(** * Swift Model Server: model manager, router and proxy

    A shallow embedding of [server/model_manager.py], of the two completion
    routes of [server/app.py] and of the proxy functions of [server/utils.py].

    - Python objects of class [ModelInfo] are mutable and shared between the
      registry dictionary and the coroutine that launches them, so the model
      keeps a store of objects and the dictionary maps an identity to an
      address in that store.
    - A Python [dict] keeps insertion order, which [get_model] observes when
      it scans for a display name: dictionaries are association lists.
    - Exceptions do not roll the state back: the monad returns the world
      together with the raised exception.
    - What the operating system, the launched process and the backend answer
      is an explicit input of each operation.
    - Every effect that leaves the process (a port drawn from the allocator,
      a spawned process, a signal, an HTTP call, a log line) is appended to a
      trace.
    - The event loop interleaves the launches with the other operations. Each
      object carries the position of the coroutine that launches it ([task]),
      which no Python code reads; a launch is given both as the function
      awaited to its end and one suspension point at a time, and the two are
      proved to agree. *)

From Stdlib Require Import ZArith List String Ascii Bool Lia Sorted.
From Stdlib Require Import DecimalString DecimalZ.
Import ListNotations.
Local Open Scope string_scope.
Local Open Scope list_scope.

(** ** Strings *)

(** [str(n)] for a Python [int]. *)
Definition str (z : Z) : string := NilZero.string_of_int (Z.to_int z).

Fixpoint has_slash (s : string) : bool :=
  match s with
  | EmptyString => false
  | String c rest => Ascii.eqb c "/" || has_slash rest
  end.

(** [os.path.basename(p)]: what follows the last ["/"]. *)
Fixpoint basename (p : string) : string :=
  match p with
  | EmptyString => EmptyString
  | String c rest =>
      if has_slash rest then basename rest
      else if Ascii.eqb c "/" then rest else p
  end.

Definition lower_ascii (c : ascii) : ascii :=
  let n := nat_of_ascii c in
  if andb (Nat.leb 65 n) (Nat.leb n 90) then ascii_of_nat (n + 32) else c.

(** [s.lower()] on ASCII text. *)
Fixpoint lower (s : string) : string :=
  match s with
  | EmptyString => EmptyString
  | String c rest => String (lower_ascii c) (lower rest)
  end.

(** [sep.join(l)]. *)
Definition join (sep : string) (l : list string) : string := String.concat sep l.

(** ** Dictionaries with insertion order *)

Module Dict.
Section Ops.
Context {V : Type}.

Definition t := list (string * V).

Fixpoint get (k : string) (d : t) : option V :=
  match d with
  | [] => None
  | (k', v) :: r => if String.eqb k' k then Some v else get k r
  end.

Definition mem (k : string) (d : t) : bool :=
  match get k d with Some _ => true | None => false end.

(** [d[k] = v]: an existing key keeps its place, a new one goes last. *)
Fixpoint set (k : string) (v : V) (d : t) : t :=
  match d with
  | [] => [(k, v)]
  | (k', v') :: r =>
      if String.eqb k' k then (k, v) :: r else (k', v') :: set k v r
  end.

(** The dictionary left by [d.pop(k)]. *)
Definition pop (k : string) (d : t) : t :=
  filter (fun kv => negb (String.eqb (fst kv) k)) d.

Definition values (d : t) : list V := map snd d.
Definition keys (d : t) : list string := map fst d.
End Ops.
Arguments t : clear implicits.
End Dict.

(** ** Data model *)

(** The four strings the code ever writes into [ModelInfo.status]. *)
Inductive Status := loading | starting | ready | failed.

Definition status_str (s : Status) : string :=
  match s with
  | loading => "loading" | starting => "starting"
  | ready => "ready" | failed => "failed"
  end.

Definition Status_eqb (a b : Status) : bool :=
  match a, b with
  | loading, loading | starting, starting | ready, ready | failed, failed => true
  | _, _ => false
  end.

Record Quantization := {
  q_enabled : bool;
  q_method : string;
  q_bits : Z
}.

(** [class ModelInfo(BaseModel)]. *)
Record ModelInfo := {
  mi_id : string;
  mi_name : string;
  mi_port : Z;
  mi_url : string;
  mi_gpu_id : Z;
  mi_status : Status;
  mi_quantization : Quantization;
  mi_pid : option Z;
  mi_start_time : option Z
}.

(** Keyword arguments of one [_start_model_server] call. *)
Record LaunchArgs := {
  deployed_model_id : string;
  max_model_len : Z;
  memory_util : string
}.

(** Where the [_start_model_server] coroutine of a record stands: created but
    not yet run, inside its loop after [k] completed cycles, or returned. *)
Inductive Launch :=
| Pending (args : LaunchArgs)
| Polling (k : nat)
| Finished.

(** An object of the store: the [ModelInfo] itself, and the position of its
    launch, which is not a field of the Python object. *)
Record Cell := {
  info : ModelInfo;
  task : Launch
}.

(** [class ModelManager]: [server_config] is read for ["infer_backend"] only
    after construction. *)
Record ModelManager := {
  infer_backend : string;
  objects : list Cell;
  models : Dict.t nat;
  next_port : Z
}.

Inductive Level := INFO | WARNING | ERROR.

Inductive Event :=
| EvReserve (port : Z)
| EvQuantize (cmd : list string) (gpu_id : Z)
| EvSpawn (cmd : list string) (gpu_id : Z)
| EvProbe (url : string)
| EvKill (pid : Z) (sig : Z)
| EvLog (lvl : Level) (msg : string)
| EvSaveConfig (file : string)
| EvRemoveConfig (file : string)
| EvPost (url : string) (headers : Dict.t string) (body : string) (stream : bool).

Record World := {
  mgr : ModelManager;
  trace : list Event
}.

(** ** Exceptions and the monad *)

(** A backend answer as [httpx] hands it over. [r_json_ok] tells whether
    [response.json()] succeeds on the body. *)
Record BackendResponse := {
  r_status : Z;
  r_content_type : option string;
  r_chunks : list string;
  r_json_ok : bool
}.

Definition r_text (r : BackendResponse) : string := join "" (r_chunks r).

Inductive Exn :=
| ValueError (msg : string)
| KeyError (msg : string)
| RuntimeError (msg : string)
| OSError (msg : string)
| ProcessLookupError
| JSONDecodeError
| HTTPException (status_code : Z) (detail : string)
| HTTPStatusError (response : BackendResponse)
| RequestError (msg : string)
| OtherError (msg : string).

(** [str(e)]. *)
Definition exn_str (e : Exn) : string :=
  match e with
  | ValueError m | RuntimeError m | OSError m | RequestError m | OtherError m => m
  | KeyError m => "'" ++ m ++ "'"
  | ProcessLookupError => "[Errno 3] No such process"
  | JSONDecodeError => "Expecting value" (* and where, which is not kept *)
  | HTTPException _ d => d
  | HTTPStatusError r => "HTTP status " ++ str (r_status r)
  end.

Inductive Res (A : Type) :=
| Ok (a : A)
| Raise (e : Exn).
Arguments Ok {A} a.
Arguments Raise {A} e.

Definition M (A : Type) : Type := World -> Res A * World.

Definition ret {A} (a : A) : M A := fun w => (Ok a, w).

Definition bind {A B} (c : M A) (k : A -> M B) : M B :=
  fun w =>
    match c w with
    | (Ok a, w1) => k a w1
    | (Raise e, w1) => (Raise e, w1)
    end.

Definition raise {A} (e : Exn) : M A := fun w => (Raise e, w).

(** [try: c  except Exception as e: h e]. *)
Definition try_except {A} (c : M A) (h : Exn -> M A) : M A :=
  fun w =>
    match c w with
    | (Ok a, w1) => (Ok a, w1)
    | (Raise e, w1) => h e w1
    end.

Definition emit (e : Event) : M unit :=
  fun w => (Ok tt, {| mgr := mgr w; trace := trace w ++ [e] |}).

Definition read {A} (f : ModelManager -> A) : M A := fun w => (Ok (f (mgr w)), w).

Definition modify (f : ModelManager -> ModelManager) : M unit :=
  fun w => (Ok tt, {| mgr := f (mgr w); trace := trace w |}).

Declare Scope m_scope.
Delimit Scope m_scope with m.
Notation "x <- c ;; k" := (bind c (fun x => k))
  (at level 61, c at next level, right associativity) : m_scope.
Notation "c ;; k" := (bind c (fun _ => k))
  (at level 61, right associativity) : m_scope.
Local Open Scope m_scope.

Definition logger (lvl : Level) (msg : string) : M unit := emit (EvLog lvl msg).

(** ** The object store *)

Definition deref (a : nat) (m : ModelManager) : option Cell := nth_error (objects m) a.

Fixpoint list_update {A} (l : list A) (n : nat) (f : A -> A) : list A :=
  match l, n with
  | [], _ => []
  | x :: r, O => f x :: r
  | x :: r, S n' => x :: list_update r n' f
  end.

Definition update_cell (a : nat) (f : Cell -> Cell) (m : ModelManager) : ModelManager :=
  {| infer_backend := infer_backend m;
     objects := list_update (objects m) a f;
     models := models m;
     next_port := next_port m |}.

Definition with_status (s : Status) (c : Cell) : Cell :=
  {| info := {| mi_id := mi_id (info c); mi_name := mi_name (info c);
                mi_port := mi_port (info c); mi_url := mi_url (info c);
                mi_gpu_id := mi_gpu_id (info c); mi_status := s;
                mi_quantization := mi_quantization (info c);
                mi_pid := mi_pid (info c);
                mi_start_time := mi_start_time (info c) |};
     task := task c |}.

Definition with_process (p : Z) (now : Z) (c : Cell) : Cell :=
  {| info := {| mi_id := mi_id (info c); mi_name := mi_name (info c);
                mi_port := mi_port (info c); mi_url := mi_url (info c);
                mi_gpu_id := mi_gpu_id (info c); mi_status := mi_status (info c);
                mi_quantization := mi_quantization (info c);
                mi_pid := Some p;
                mi_start_time := Some now |};
     task := task c |}.

Definition with_task (t : Launch) (c : Cell) : Cell :=
  {| info := info c; task := t |}.

Definition set_status (a : nat) (s : Status) : M unit := modify (update_cell a (with_status s)).
Definition set_process (a : nat) (p now : Z) : M unit := modify (update_cell a (with_process p now)).
Definition set_task (a : nat) (t : Launch) : M unit := modify (update_cell a (with_task t)).

(** A new object; its address is returned. *)
Definition alloc (c : Cell) : M nat :=
  fun w =>
    let m := mgr w in
    (Ok (List.length (objects m)),
     {| mgr := {| infer_backend := infer_backend m;
                  objects := objects m ++ [c];
                  models := models m;
                  next_port := next_port m |};
        trace := trace w |}).

Definition the_info (a : nat) : M ModelInfo :=
  fun w =>
    match deref a (mgr w) with
    | Some c => (Ok (info c), w)
    | None => (Raise (OtherError "dangling reference"), w)
    end.

(** ** Port allocator *)

Definition set_next_port (p : Z) (m : ModelManager) : ModelManager :=
  {| infer_backend := infer_backend m; objects := objects m;
     models := models m; next_port := p |}.

Definition set_models (d : Dict.t nat) (m : ModelManager) : ModelManager :=
  {| infer_backend := infer_backend m; objects := objects m;
     models := d; next_port := next_port m |}.

(** [ModelManager.__init__]; [starting_port] is
    [server_config.get("starting_port", 8000)]. *)
Definition init (backend : string) (starting_port : Z) : World :=
  {| mgr := {| infer_backend := backend; objects := []; models := [];
               next_port := starting_port |};
     trace := [] |}.

(** [_get_next_port]; the returned value is also left in the trace. *)
Definition _get_next_port : M Z :=
  port <- read next_port ;;
  modify (set_next_port (port + 1)) ;;
  emit (EvReserve port) ;;
  ret port.

(** ** Registry lookup *)

Definition name_is (key : string) (m : ModelManager) (a : nat) : bool :=
  match deref a m with
  | Some c => String.eqb (mi_name (info c)) key
  | None => false
  end.

(** [get_model]: the identity first, then the first record, in insertion
    order, whose display name is the key. *)
Definition get_model (model_id : string) (m : ModelManager) : option nat :=
  match Dict.get model_id (models m) with
  | Some a => Some a
  | None => find (name_is model_id m) (Dict.values (models m))
  end.

(** ** Launch *)

Inductive SpawnRes :=
| Spawned (pid : Z) (now : Z)
| SpawnError (msg : string).

(** What one cycle of the loop observes: [process.poll()], the content of the
    log file, and the status code of the probe ([None]: the call raised). *)
Record PollObs := {
  exit_code : option Z;
  log_text : string;
  probe : option Z
}.

Record LaunchEnv := {
  spawn_res : SpawnRes;
  poll_obs : nat -> PollObs
}.

Definition deploy_cmd (backend : string) (mi : ModelInfo) (args : LaunchArgs) : list string :=
  ["swift"; "deploy";
   "--model"; deployed_model_id args;
   "--infer_backend"; backend;
   "--port"; str (mi_port mi);
   "--host"; "0.0.0.0";
   "--max_model_len"; str (max_model_len args);
   "--gpu_memory_utilization"; memory_util args;
   "--max_batch_size"; "32"].

(** The [except Exception as e] clause of [_start_model_server]. *)
Definition launch_failed (a : nat) (e : Exn) : M unit :=
  logger ERROR ("Failed to start model server: " ++ exn_str e) ;;
  set_status a failed ;;
  set_task a Finished ;;
  raise e.

(** Lines 262-290: nothing here is inside the [try]. The
    [os.makedirs("logs", exist_ok=True)] of line 268 is taken to succeed and
    leaves no event. *)
Definition launch_prologue (a : nat) (args : LaunchArgs) : M (list string) :=
  mi <- the_info a ;;
  logger INFO ("Starting model server for " ++ mi_name mi ++ " on port " ++ str (mi_port mi)) ;;
  backend <- read infer_backend ;;
  let cmd := deploy_cmd backend mi args in
  logger INFO ("Running: " ++ join " " cmd) ;;
  ret cmd.

(** Lines 294-306: open the log file, [subprocess.Popen], record pid and
    time; the launch is then at the head of its loop. *)
Definition popen (a : nat) (cmd : list string) (r : SpawnRes) : M unit :=
  mi <- the_info a ;;
  match r with
  | SpawnError msg => raise (OSError msg)
  | Spawned pid now =>
      emit (EvSpawn cmd (mi_gpu_id mi)) ;;
      set_process a pid now ;;
      set_task a (Polling 0)
  end.

(** The address the probe is sent to. *)
Definition probe_url (mi : ModelInfo) : string :=
  "http://localhost:" ++ str (mi_port mi) ++ "/v1/models".

(** The text of the error log line and of the [RuntimeError] of an exit. *)
Definition exit_message (returncode : Z) : string :=
  "Model server process exited with code " ++ str returncode.

(** The body of [for _ in range(30)], after [await asyncio.sleep(1)]. The
    result is [true] when the function returns from inside the loop. *)
Definition poll_cycle (a : nat) (o : PollObs) : M bool :=
  mi <- the_info a ;;
  match exit_code o with
  | Some returncode =>
      logger ERROR (exit_message returncode) ;;
      logger ERROR ("Log: " ++ log_text o) ;;
      set_status a failed ;;
      raise (RuntimeError (exit_message returncode))
  | None =>
      emit (EvProbe (probe_url mi)) ;;
      match probe o with
      | Some status_code =>
          if (status_code =? 200)%Z then
            logger INFO ("Model server for " ++ mi_name mi ++ " started successfully") ;;
            set_status a ready ;;
            ret true
          else ret false
      | None => ret false
      end
  end.

Definition POLL_CYCLES : nat := 30.

(** Lines 339-341, reached when the loop runs out. *)
Definition launch_timeout (a : nat) : M unit :=
  mi <- the_info a ;;
  logger WARNING ("Model server for " ++ mi_name mi ++ " is taking longer than expected to start") ;;
  set_status a starting ;;
  set_task a Finished.

(** [n] more iterations of the loop, [k] being done; the position of the
    launch moves along. *)
Fixpoint poll_loop (n k : nat) (a : nat) (obs : nat -> PollObs) : M bool :=
  match n with
  | O => ret false
  | S n' =>
      resolved <- poll_cycle a (obs k) ;;
      if resolved then ret true
      else set_task a (Polling (S k)) ;; poll_loop n' (S k) a obs
  end.

(** [_start_model_server], awaited to its end. *)
Definition _start_model_server (a : nat) (args : LaunchArgs) (env : LaunchEnv) : M unit :=
  cmd <- launch_prologue a args ;;
  try_except
    (popen a cmd (spawn_res env) ;;
     resolved <- poll_loop POLL_CYCLES 0 a (poll_obs env) ;;
     if resolved then set_task a Finished else launch_timeout a)
    (launch_failed a).

(** The same coroutine, one suspension point at a time: the scheduler hands
    it either the result of the spawn or the observation of one cycle. *)
Inductive LaunchInput :=
| InSpawn (r : SpawnRes)
| InPoll (o : PollObs).

Definition after_cycle (a : nat) (k : nat) (resolved : bool) : M unit :=
  if resolved then set_task a Finished
  else
    set_task a (Polling (S k)) ;;
    if Nat.ltb (S k) POLL_CYCLES then ret tt else launch_timeout a.

Definition launch_step (a : nat) (i : LaunchInput) : M unit :=
  fun w =>
    match deref a (mgr w) with
    | None => (Ok tt, w)
    | Some c =>
        match task c, i with
        | Pending args, InSpawn r =>
            (cmd <- launch_prologue a args ;;
             try_except (popen a cmd r) (launch_failed a)) w
        | Polling k, InPoll o =>
            try_except
              (resolved <- poll_cycle a o ;; after_cycle a k resolved)
              (launch_failed a) w
        | _, _ => (Ok tt, w)
        end
    end.

(** ** Registration *)

(** A saved descriptor as [json.load] returns it: every key may be absent
    ([None]); a key that is there holds a value of the type [ModelInfo]
    accepts. [memory_util] is kept as the text [str] makes of the float. *)
Record ModelConfig := {
  c_model_id : option string;
  c_port : option Z;
  c_gpu_id : option Z;
  c_quant_enabled : option bool;
  c_quant_method : option string;
  c_quant_bits : option Z;
  c_max_model_len : option Z;
  c_memory_util : option string
}.

(** [d.get(key, default)]. *)
Definition dict_get_default {A} (o : option A) (default : A) : A :=
  match o with Some v => v | None => default end.

Definition localhost (port : Z) : string := "http://localhost:" ++ str port.

(** [add_model_from_config] up to and including [self.models[model_id] = model_info].
    The default of [model_config.get("port", ...)] is an argument, so
    [_get_next_port] is called each time whether the key is there or not. *)
Definition add_model_from_config_register (cfg : ModelConfig) : M (nat * LaunchArgs) :=
  match c_model_id cfg with
  | None | Some EmptyString => raise (ValueError "Missing model_id in configuration")
  | Some model_id =>
      let model_name := basename model_id in
      p1 <- _get_next_port ;;
      p2 <- _get_next_port ;;
      let model_info :=
        {| mi_id := model_id;
           mi_name := model_name;
           mi_port := dict_get_default (c_port cfg) p1;
           mi_url := localhost (dict_get_default (c_port cfg) p2);
           mi_gpu_id := dict_get_default (c_gpu_id cfg) 0%Z;
           mi_status := loading;
           mi_quantization :=
             {| q_enabled := dict_get_default (c_quant_enabled cfg) false;
                q_method := dict_get_default (c_quant_method cfg) "none";
                q_bits := dict_get_default (c_quant_bits cfg) 4%Z |};
           mi_pid := None;
           mi_start_time := None |} in
      let args :=
        {| deployed_model_id := model_id;
           max_model_len := dict_get_default (c_max_model_len cfg) 8192%Z;
           memory_util := dict_get_default (c_memory_util cfg) "0.9" |} in
      a <- alloc {| info := model_info; task := Pending args |} ;;
      ms <- read models ;;
      modify (set_models (Dict.set model_id a ms)) ;;
      ret (a, args)
  end.

Definition add_model_from_config (cfg : ModelConfig) (env : LaunchEnv) : M nat :=
  r <- add_model_from_config_register cfg ;;
  _start_model_server (fst r) (snd r) env ;;
  ret (fst r).

(** What the [swift export] run gave: the output directory was already
    there, or the subprocess ended with this return code and stderr. *)
Inductive QuantRes :=
| QuantExists
| QuantRan (returncode : Z) (stderr : string).

(** [_quantize_model]. The calibration file of lines 215-221, written once
    when it is not there, and its INFO line are not represented. *)
Definition _quantize_model (model_id quant_method : string) (quant_bits gpu_id : Z)
    (q : QuantRes) : M string :=
  logger INFO ("Quantizing model " ++ model_id ++ " with " ++ quant_method
               ++ " (" ++ str quant_bits ++ "-bit)") ;;
  let model_name := basename model_id in
  let output_dir :=
    ("models/quantized/" ++ model_name ++ "-" ++ quant_method ++ "-" ++ str quant_bits ++ "b")%string in
  match q with
  | QuantExists =>
      logger INFO ("Model already quantized at " ++ output_dir ++ ". Skipping quantization.") ;;
      ret output_dir
  | QuantRan returncode stderr =>
      let cmd := ["swift"; "export"; "--model"; model_id;
                  "--quant_bits"; str quant_bits;
                  "--quant_method"; quant_method;
                  "--dataset"; "data/calibration";
                  "--output_dir"; output_dir] in
      logger INFO ("Running: " ++ join " " cmd) ;;
      emit (EvQuantize cmd gpu_id) ;;
      if (returncode =? 0)%Z then
        logger INFO ("Quantization complete. Model saved to " ++ output_dir) ;;
        ret output_dir
      else
        logger ERROR ("Quantization failed: " ++ stderr) ;;
        raise (RuntimeError ("Failed to quantize model: " ++ stderr))
  end.

(** [s.replace('/', '_')]. *)
Fixpoint replace_slash (s : string) : string :=
  match s with
  | EmptyString => EmptyString
  | String c rest => String (if Ascii.eqb c "/" then "_"%char else c) (replace_slash rest)
  end.

Definition config_file (mi : ModelInfo) : string :=
  "config/model_configs/" ++ replace_slash (mi_name mi) ++ ".json".

(** [_save_model_config], the directory being there or made and the file
    written: a refusal of the operating system at [os.makedirs], [open] or
    [json.dump] is not represented. *)
Definition _save_model_config (a : nat) : M unit :=
  mi <- the_info a ;;
  emit (EvSaveConfig (config_file mi)) ;;
  logger INFO ("Saved model configuration to " ++ config_file mi).

(** [add_model]. [background_tasks] tells whether a [BackgroundTasks] object
    was passed: the launch is then only scheduled. *)
Definition add_model (model_id : string) (port : option Z) (gpu_id : Z)
    (quantize : bool) (quant_method : string) (quant_bits : Z)
    (max_len : Z) (mem_util : string) (background_tasks : bool)
    (q : QuantRes) (env : LaunchEnv) : M nat :=
  ms <- read models ;;
  if Dict.mem model_id ms then
    raise (ValueError ("Model " ++ model_id ++ " already exists"))
  else
    port <- match port with
            | None => _get_next_port
            | Some p => ret p
            end ;;
    let model_name := basename model_id in
    deployed <- (if quantize
                 then _quantize_model model_id quant_method quant_bits gpu_id q
                 else ret model_id) ;;
    let model_info :=
      {| mi_id := model_id;
         mi_name := model_name;
         mi_port := port;
         mi_url := localhost port;
         mi_gpu_id := gpu_id;
         mi_status := loading;
         mi_quantization :=
           {| q_enabled := quantize;
              q_method := if quantize then quant_method else "none";
              q_bits := if quantize then quant_bits else 0%Z |};
         mi_pid := None;
         mi_start_time := None |} in
    let args := {| deployed_model_id := deployed;
                   max_model_len := max_len;
                   memory_util := mem_util |} in
    a <- alloc {| info := model_info; task := Pending args |} ;;
    ms <- read models ;;
    modify (set_models (Dict.set model_id a ms)) ;;
    (if background_tasks then ret tt else _start_model_server a args env) ;;
    _save_model_config a ;;
    ret a.

(** ** Removal *)

Inductive KillRes :=
| Killed
| NoSuchProcess
| KillFailed (msg : string).

(** What the operating system answers during one [remove_model]: to SIGTERM,
    to the [k]-th existence check ([true]: the process is still there), to
    SIGKILL, whether the saved descriptor exists, and what [os.remove] does
    with it ([None]: the file is removed; [Some msg]: it raises [OSError]). *)
Record KillEnv := {
  on_term : KillRes;
  still_there : nat -> bool;
  on_kill : KillRes;
  config_exists : bool;
  on_remove : option string
}.

Definition os_kill (pid sig : Z) (r : KillRes) : M unit :=
  emit (EvKill pid sig) ;;
  match r with
  | Killed => ret tt
  | NoSuchProcess => raise ProcessLookupError
  | KillFailed msg => raise (OSError msg)
  end.

(** [for _ in range(10)] of [remove_model]; [true] when left by [break]. *)
Fixpoint wait_exit (n k : nat) (pid : Z) (alive : nat -> bool) : M bool :=
  match n with
  | O => ret false
  | S n' =>
      emit (EvKill pid 0) ;;
      if alive k then wait_exit n' (S k) pid alive else ret true
  end.

Definition stop_process (mi : ModelInfo) (pid : Z) (env : KillEnv) : M unit :=
  try_except
    (os_kill pid 15 (on_term env) ;;
     gone <- wait_exit 10 0 pid (still_there env) ;;
     (if gone then ret tt else os_kill pid 9 (on_kill env)) ;;
     logger INFO ("Stopped model server for " ++ mi_name mi ++ " (PID: " ++ str pid ++ ")"))
    (fun e =>
       match e with
       | ProcessLookupError =>
           logger WARNING ("Process for model " ++ mi_name mi
                           ++ " (PID: " ++ str pid ++ ") not found")
       | _ => logger ERROR ("Error stopping model server: " ++ exn_str e)
       end).

Record RemoveResult := {
  rr_id : string;
  rr_name : string;
  rr_port : Z
}.

(** [remove_model], taken as one uninterrupted call: the source gives way to
    other coroutines at each [await asyncio.sleep(1)] of the wait for the
    process, and what they do to the registry in between is not represented.
    [os.path.exists] and [os.remove] stand outside every [try], so a refusal
    of [os.remove] leaves the call as it is raised, before the [pop]. *)
Definition remove_model (model_id : string) (env : KillEnv) : M RemoveResult :=
  found <- read (get_model model_id) ;;
  match found with
  | None => raise (KeyError ("Model " ++ model_id ++ " not found"))
  | Some a =>
      mi <- the_info a ;;
      let result := {| rr_id := mi_id mi; rr_name := mi_name mi; rr_port := mi_port mi |} in
      match mi_pid mi with
      | Some pid => if (pid =? 0)%Z then ret tt else stop_process mi pid env
      | None => ret tt
      end ;;
      (if config_exists env then
         match on_remove env with
         | None => emit (EvRemoveConfig (config_file mi))
         | Some msg => raise (OSError msg)
         end
       else ret tt) ;;
      ms <- read models ;;
      match Dict.get (mi_id mi) ms with
      | None => raise (KeyError (mi_id mi))
      | Some _ => modify (set_models (Dict.pop (mi_id mi) ms))
      end ;;
      ret result
  end.

(** ** Sequences of operations *)

(** The operations of the manager as the event loop interleaves them: a
    registration through [add_model] as the HTTP route calls it (with
    [background_tasks]), the registering part of [add_model_from_config], one
    step of the launch of the object at an address, a removal. *)
Inductive Op :=
| OpAddModel (model_id : string) (port : option Z) (gpu_id : Z)
    (quantize : bool) (quant_method : string) (quant_bits : Z)
    (max_len : Z) (mem_util : string) (q : QuantRes)
| OpAddModelFromConfig (cfg : ModelConfig)
| OpLaunch (a : nat) (i : LaunchInput)
| OpRemoveModel (key : string) (env : KillEnv).

Definition no_launch : LaunchEnv :=
  {| spawn_res := SpawnError "";
     poll_obs := fun _ => {| exit_code := None; log_text := ""; probe := None |} |}.

Definition exec (op : Op) (w : World) : World :=
  match op with
  | OpAddModel model_id port gpu_id quantize quant_method quant_bits max_len mem_util q =>
      snd (add_model model_id port gpu_id quantize quant_method quant_bits
             max_len mem_util true q no_launch w)
  | OpAddModelFromConfig cfg => snd (add_model_from_config_register cfg w)
  | OpLaunch a i => snd (launch_step a i w)
  | OpRemoveModel key env => snd (remove_model key env w)
  end.

Definition run (ops : list Op) (w : World) : World := fold_left (fun w op => exec op w) ops w.

(** The status a caller sees for an identity: that of the object the
    registry holds under it. *)
Definition status_at (a : nat) (w : World) : option Status :=
  option_map (fun c => mi_status (info c)) (deref a (mgr w)).

Definition view (id : string) (w : World) : option Status :=
  match Dict.get id (models (mgr w)) with
  | Some a => status_at a w
  | None => None
  end.

(** The ports [_get_next_port] returned, oldest first. *)
Fixpoint reserved (tr : list Event) : list Z :=
  match tr with
  | [] => []
  | EvReserve p :: r => p :: reserved r
  | _ :: r => reserved r
  end.

(** The signals sent, oldest first. *)
Fixpoint signals (tr : list Event) : list (Z * Z) :=
  match tr with
  | [] => []
  | EvKill p s :: r => (p, s) :: signals r
  | _ :: r => signals r
  end.

(** ** Proxy ([server/utils.py]) *)

(** The JSON body of an inbound request, as far as the server reads it: the
    value of ["model"], the truth of ["stream"], and the document itself. *)
Record Body := {
  b_model : option string;
  b_stream : bool;
  b_text : string
}.

(** An inbound request. Header names are those of the ASGI scope, which the
    server has lower-cased. [req_body] is [None] when [request.json()] raises. *)
Record Request := {
  req_headers : list (string * string);
  req_body : option Body
}.

(** [request.headers[name]] and [name in request.headers]: the name is
    lower-cased and the first header of that name answers. *)
Definition headers_get (name : string) (hs : list (string * string)) : option string :=
  Dict.get (lower name) hs.

Definition WHITELIST : list string := ["Content-Type"; "Authorization"].

Definition forward_header (hs : list (string * string)) (headers : Dict.t string)
    (header_name : string) : Dict.t string :=
  match headers_get header_name hs with
  | Some v => Dict.set header_name v headers
  | None => headers
  end.

(** Lines 29-32 of [proxy_request]. *)
Definition proxy_headers (hs : list (string * string)) : Dict.t string :=
  fold_left (forward_header hs) WHITELIST [].

(** What the backend does with one call. *)
Inductive Backend :=
| Responds (r : BackendResponse)
| ResetAfter (r : BackendResponse) (n : nat) (msg : string)
| Unreachable (msg : string)
| Fails (msg : string).

(** The content of a [JSONResponse]: the value parsed from a backend body, or
    the object [{"error": msg}]. *)
Inductive Content :=
| JsonOf (text : string)
| ErrorObj (msg : string).

(** What iterating [stream_generator] gives: the chunks yielded, and the
    exception that ended the iteration, if one did. *)
Record Stream := {
  relayed : list string;
  broken : option Exn
}.

Inductive Response :=
| JSONResponse (status_code : Z) (content : Content)
| StreamingResponse (status_code : Z) (media_type : string) (body : Stream).

(** [response.is_success], on which [raise_for_status] returns. *)
Definition is_success (code : Z) : bool := ((200 <=? code) && (code <=? 299))%Z.

Definition proxy_standard_request (url : string) (body : Body) (headers : Dict.t string)
    (backend : Backend) : M Response :=
  emit (EvPost url headers (b_text body) false) ;;
  match backend with
  | Responds r =>
      if is_success (r_status r) then
        if r_json_ok r then ret (JSONResponse (r_status r) (JsonOf (r_text r)))
        else raise JSONDecodeError
      else raise (HTTPStatusError r)
  | ResetAfter _ _ msg => raise (RequestError msg)
  | Unreachable msg => raise (RequestError msg)
  | Fails msg => raise (OtherError msg)
  end.

Definition stream_generator (backend : Backend) : Stream :=
  match backend with
  | Responds r =>
      if is_success (r_status r) then {| relayed := r_chunks r; broken := None |}
      else {| relayed := []; broken := Some (HTTPStatusError r) |}
  | ResetAfter r n msg =>
      if is_success (r_status r)
      then {| relayed := firstn n (r_chunks r); broken := Some (RequestError msg) |}
      else {| relayed := []; broken := Some (HTTPStatusError r) |}
  | Unreachable msg => {| relayed := []; broken := Some (RequestError msg) |}
  | Fails msg => {| relayed := []; broken := Some (OtherError msg) |}
  end.

(** [proxy_streaming_request] only builds the response: the generator runs
    when the server iterates it, after [proxy_request] has returned, and the
    call it makes is entered in the trace here. *)
Definition proxy_streaming_request (url : string) (body : Body) (headers : Dict.t string)
    (backend : Backend) : M Response :=
  emit (EvPost url headers (b_text body) true) ;;
  ret (StreamingResponse 200 "text/event-stream" (stream_generator backend)).

Definition is_json_type (ct : option string) : bool :=
  match ct with
  | Some v => String.eqb v "application/json"
  | None => false
  end.

Definition proxy_request (request : Request) (target_url endpoint : string)
    (backend : Backend) : M Response :=
  match req_body request with
  | None => raise JSONDecodeError
  | Some body =>
      let headers := proxy_headers (req_headers request) in
      let is_streaming := b_stream body in
      let full_url := (target_url ++ "/v1/" ++ endpoint)%string in
      try_except
        (if is_streaming
         then proxy_streaming_request full_url body headers backend
         else proxy_standard_request full_url body headers backend)
        (fun e =>
           match e with
           | HTTPStatusError r =>
               logger ERROR ("HTTP error from model server: " ++ str (r_status r)
                             ++ " - " ++ r_text r) ;;
               content <- (if is_json_type (r_content_type r)
                           then (if r_json_ok r then ret (JsonOf (r_text r))
                                 else raise JSONDecodeError)
                           else ret (ErrorObj (r_text r))) ;;
               ret (JSONResponse (r_status r) content)
           | RequestError _ =>
               logger ERROR ("Request error to model server: " ++ exn_str e) ;;
               ret (JSONResponse 503 (ErrorObj ("Model server unavailable: " ++ exn_str e)))
           | _ =>
               logger ERROR ("Error proxying request: " ++ exn_str e) ;;
               ret (JSONResponse 500 (ErrorObj ("Internal server error: " ++ exn_str e)))
           end)
  end.

(** ** Routes ([server/app.py]) *)

(** The body shared by [chat_completions] and [completions]. *)
Definition completion_route (endpoint what : string) (request : Request)
    (backend : Backend) : M Response :=
  try_except
    (match req_body request with
     | None => raise JSONDecodeError
     | Some body =>
         match b_model body with
         | None | Some EmptyString => raise (HTTPException 400 "Model ID is required")
         | Some model_id =>
             found <- read (get_model model_id) ;;
             match found with
             | None => raise (HTTPException 404 ("Model " ++ model_id ++ " not found"))
             | Some a =>
                 model_info <- the_info a ;;
                 if negb (Status_eqb (mi_status model_info) ready) then
                   raise (HTTPException 503
                            ("Model " ++ model_id ++ " is not ready (status: "
                             ++ status_str (mi_status model_info) ++ ")"))
                 else proxy_request request (mi_url model_info) endpoint backend
             end
         end
     end)
    (fun e =>
       match e with
       | HTTPException _ _ => raise e
       | _ =>
           logger ERROR ("Error in " ++ what ++ ": " ++ exn_str e) ;;
           raise (HTTPException 500 ("Internal server error: " ++ exn_str e))
       end).

Definition chat_completions : Request -> Backend -> M Response :=
  completion_route "chat/completions" "chat completions".

Definition completions : Request -> Backend -> M Response :=
  completion_route "completions" "completions".

(** The route [DELETE /v1/models/{model_id}]. *)
Definition app_remove_model (model_id : string) (env : KillEnv) : M RemoveResult :=
  try_except (remove_model model_id env)
    (fun e =>
       match e with
       | KeyError _ => raise (HTTPException 404 ("Model " ++ model_id ++ " not found"))
       | _ =>
           logger ERROR ("Error removing model: " ++ exn_str e) ;;
           raise (HTTPException 500 ("Failed to remove model: " ++ exn_str e))
       end).

(** The outbound calls made, oldest first. *)
Fixpoint posts (tr : list Event) : list Event :=
  match tr with
  | [] => []
  | EvPost u h b s :: r => EvPost u h b s :: posts r
  | _ :: r => posts r
  end.

(** ** Predicates used by the statements *)

(** [I] holds after [c] whenever it held before, whatever [c] returns. *)
Definition Preserved (I : World -> Prop) {A} (c : M A) : Prop :=
  forall w, I w -> I (snd (c w)).

(** [base], [base + 1], ... ([n] values). *)
Definition ports_from (base : Z) (n : nat) : list Z :=
  map (fun i => (base + Z.of_nat i)%Z) (seq 0 n).

(** The allocator has handed out exactly the ports from [base] up to, and
    not including, [next_port]. *)
Definition alloc_inv (base : Z) (w : World) : Prop :=
  reserved (trace w) = ports_from base (List.length (reserved (trace w)))
  /\ next_port (mgr w) = (base + Z.of_nat (List.length (reserved (trace w))))%Z.

(** The fields of a record that are written at creation only. *)
Definition same_record (x y : ModelInfo) : Prop :=
  mi_id x = mi_id y /\ mi_name x = mi_name y /\ mi_port x = mi_port y
  /\ mi_url x = mi_url y /\ mi_gpu_id x = mi_gpu_id y
  /\ mi_quantization x = mi_quantization y.

(** Nothing but the mutable fields of the objects changes between [w0] and
    [w]: same registry, same allocator, same ports drawn, no object gone. *)
Definition frame (w0 w : World) : Prop :=
  models (mgr w) = models (mgr w0)
  /\ next_port (mgr w) = next_port (mgr w0)
  /\ infer_backend (mgr w) = infer_backend (mgr w0)
  /\ reserved (trace w) = reserved (trace w0)
  /\ List.length (objects (mgr w)) = List.length (objects (mgr w0))
  /\ forall a c, deref a (mgr w0) = Some c ->
       exists c', deref a (mgr w) = Some c' /\ same_record (info c) (info c').

(** The store and the registry are some given ones. *)
Definition holds_mgr (objs : list Cell) (ms : Dict.t nat) (w : World) : Prop :=
  objects (mgr w) = objs /\ models (mgr w) = ms.

(** The world in which the object at [a] has become [c'] and the events
    [evs] have been added: the form in which the effect of a launch is
    stated. *)
Definition touch (a : nat) (c' : Cell) (evs : list Event) (w : World) : World :=
  {| mgr := update_cell a (fun _ => c') (mgr w); trace := trace w ++ evs |}.

(** The probes issued, oldest first. *)
Fixpoint probes (tr : list Event) : list string :=
  match tr with
  | [] => []
  | EvProbe u :: r => u :: probes r
  | _ :: r => probes r
  end.

(** The record the registry holds under an identity. *)
Definition lookup (id : string) (w : World) : option ModelInfo :=
  match Dict.get id (models (mgr w)) with
  | Some a => option_map info (deref a (mgr w))
  | None => None
  end.

Definition task_at (a : nat) (w : World) : option Launch :=
  option_map task (deref a (mgr w)).

(** A cycle that neither ends the launch nor fails it: the process lives and
    the probe raises or is answered with a status other than 200. *)
Definition unresolved (o : PollObs) : bool :=
  match exit_code o with
  | Some _ => false
  | None =>
      match probe o with
      | Some status_code => negb (status_code =? 200)%Z
      | None => true
      end
  end.

(** The steps of one awaited launch, in order: the spawn, then the thirty
    cycles (those that come after the launch has ended do nothing). *)
Definition launch_schedule (a : nat) (env : LaunchEnv) : list Op :=
  OpLaunch a (InSpawn (spawn_res env))
  :: map (fun k => OpLaunch a (InPoll (poll_obs env k))) (seq 0 POLL_CYCLES).

(** A launch that has not returned has not written the status yet, and the
    registry names objects of the store only. *)
Definition launch_inv (w : World) : Prop :=
  (forall a c, deref a (mgr w) = Some c ->
     task c <> Finished -> mi_status (info c) = loading)
  /\ (forall id a, Dict.get id (models (mgr w)) = Some a ->
        (a < List.length (objects (mgr w)))%nat).

(** How one launch step may change the object it runs on: not at all, or,
    the launch not being over, it keeps what was written at creation and
    writes a status other than [loading] exactly when it ends. *)
Definition cell_step (c c' : Cell) : Prop :=
  c' = c
  \/ (task c <> Finished
      /\ same_record (info c) (info c')
      /\ (task c' = Finished -> mi_status (info c') <> loading)
      /\ (task c' <> Finished -> mi_status (info c') = mi_status (info c))).

(** What one operation does to the manager, the allocator aside: nothing;
    or it stores a new object, [loading] and not yet launched, under an
    identity, which the registry did not hold if [G]; or it drops an identity
    from the registry; or it moves one object along [cell_step]. *)
Inductive Effect (G : Prop) (m m' : ModelManager) : Prop :=
| E_none :
    objects m' = objects m -> models m' = models m -> Effect G m m'
| E_register (id : string) (c : Cell) :
    objects m' = objects m ++ [c] ->
    mi_status (info c) = loading -> task c <> Finished ->
    models m' = Dict.set id (List.length (objects m)) (models m) ->
    (G -> Dict.get id (models m) = None) ->
    Effect G m m'
| E_remove (id : string) :
    objects m' = objects m -> models m' = Dict.pop id (models m) -> Effect G m m'
| E_launch (a : nat) (c c' : Cell) :
    deref a m = Some c ->
    objects m' = list_update (objects m) a (fun _ => c') -> models m' = models m ->
    cell_step c c' ->
    Effect G m m'.

(** How the status of one object may differ after one operation. *)
Definition object_edge (x y : option Status) : bool :=
  match x, y with
  | None, None => true
  | None, Some loading => true
  | Some loading, Some _ => true
  | Some starting, Some starting => true
  | Some ready, Some ready => true
  | Some failed, Some failed => true
  | _, _ => false
  end.

(** How the status seen under one identity may differ after one operation:
    as for an object, or the record is gone. *)
Definition registry_edge (x y : option Status) : bool :=
  match y with
  | None => true
  | Some _ => object_edge x y
  end.

(** The registration of [add_model_from_config] names an identity that the
    registry does not hold; every other operation is let through. *)
Definition guarded (op : Op) (w : World) : bool :=
  match op with
  | OpAddModelFromConfig cfg =>
      match c_model_id cfg with
      | Some model_id => negb (Dict.mem model_id (models (mgr w)))
      | None => true
      end
  | _ => true
  end.

(** The statuses of the specification; [stopped] is what it calls a record
    that has been removed. *)
Inductive SpecStatus := st_loading | st_starting | st_ready | st_failed | st_stopped.

Definition observed (v : option Status) : SpecStatus :=
  match v with
  | Some loading => st_loading
  | Some starting => st_starting
  | Some ready => st_ready
  | Some failed => st_failed
  | None => st_stopped
  end.

(** The edges of the state machine as the specification lists them. *)
Definition spec_edge (x y : SpecStatus) : bool :=
  match x, y with
  | st_loading, (st_ready | st_starting | st_failed) => true
  | st_starting, (st_ready | st_failed) => true
  | st_ready, st_stopped => true
  | st_failed, st_stopped => true
  | _, _ => false
  end.

(** ** Sample inputs *)

(** A cycle in which the process lives and the probe raises. *)
Definition quiet : PollObs := {| exit_code := None; log_text := ""; probe := None |}.

(** A cycle in which the process lives and the probe is answered. *)
Definition answers (code : Z) : PollObs :=
  {| exit_code := None; log_text := ""; probe := Some code |}.

(** A cycle that finds the process gone. *)
Definition exited (returncode : Z) (log : string) : PollObs :=
  {| exit_code := Some returncode; log_text := log; probe := None |}.

Definition ex_world : World := init "vllm" 8000.

Definition ex_cfg : ModelConfig :=
  {| c_model_id := Some "org/modelA"; c_port := None; c_gpu_id := None;
     c_quant_enabled := None; c_quant_method := None; c_quant_bits := None;
     c_max_model_len := None; c_memory_util := None |}.

(** The backend answers the first probe. *)
Definition ex_env_ready : LaunchEnv :=
  {| spawn_res := Spawned 4242 1000; poll_obs := fun _ => answers 200 |}.

(** The backend answers the thirty-first probe only. *)
Definition ex_env_slow : LaunchEnv :=
  {| spawn_res := Spawned 4343 2000;
     poll_obs := fun k => if Nat.ltb k 30 then quiet else answers 200 |}.

Definition ex_kill : KillEnv :=
  {| on_term := Killed; still_there := fun _ => false; on_kill := Killed;
     config_exists := true; on_remove := None |}.

Definition ex_args : LaunchArgs :=
  {| deployed_model_id := "org/modelA"; max_model_len := 8192; memory_util := "0.9" |}.

Definition ex_request (model : string) (stream : bool) : Request :=
  {| req_headers := [("host", "gateway"); ("content-type", "application/json");
                     ("x-trace", "t1"); ("authorization", "Bearer k")];
     req_body := Some {| b_model := Some model; b_stream := stream;
                         b_text := "{}" |} |}.

(** A backend error whose body is the JSON array [[507, 13]], sent in two
    chunks and announced with a charset. *)
Definition ex_backend_error : BackendResponse :=
  {| r_status := 500; r_content_type := Some "application/json; charset=utf-8";
     r_chunks := ["[507, "; "13]"]; r_json_ok := true |}.

(** ["org/modelA"] registered through [add_model] and ready. *)
Definition ex_ready_world : World :=
  snd (add_model "org/modelA" None 0 false "awq" 4 8192 "0.9" false QuantExists
         ex_env_ready ex_world).

(** ["org/modelA"] registered through [add_model]; its launch ran out of
    cycles. *)
Definition ex_starting_world : World :=
  snd (add_model "org/modelA" None 0 false "awq" 4 8192 "0.9" false QuantExists
         ex_env_slow ex_world).

(** ["org/modelA"] registered through the route, nothing launched yet. *)
Definition ex_registered_world : World :=
  run [OpAddModel "org/modelA" None 0 false "awq" 4 8192 "0.9" QuantExists] ex_world.

(** ["org/modelA"] registered through the route, its process spawned, no
    cycle run yet. *)
Definition ex_polling_world : World :=
  run [OpAddModel "org/modelA" None 0 false "awq" 4 8192 "0.9" QuantExists;
       OpLaunch 0 (InSpawn (Spawned 4242 1000))] ex_world.

(** The route registers ["org/modelA"], the process is spawned, and thirty
    cycles pass with the process alive and no answer to the probe. *)
Definition ex_timeout_ops : list Op :=
  OpAddModel "org/modelA" None 0 false "awq" 4 8192 "0.9" QuantExists
  :: OpLaunch 0 (InSpawn (Spawned 4343 2000))
  :: repeat (OpLaunch 0 (InPoll quiet)) 30.

(** The startup hook registers ["org/modelA"] from a descriptor, the process
    is spawned and the first probe is answered. *)
Definition ex_config_ready_ops : list Op :=
  [OpAddModelFromConfig ex_cfg;
   OpLaunch 0 (InSpawn (Spawned 4242 1000));
   OpLaunch 0 (InPoll (answers 200))].

(** * Listing, shutdown, startup, the route that adds a model, and
    [merge_configs] *)

(** ** Listing ([list_models], [get_uptime]) *)

(** [ModelInfo.get_uptime], the clock being read in whole seconds (the
    source subtracts floats and truncates at the end, so its seconds can be
    one off). [divmod] by a positive number is floor division and its
    remainder. *)
Definition get_uptime (mi : ModelInfo) (now : Z) : string :=
  match mi_start_time mi with
  | None => "Not started"
  | Some start_time =>
      if (start_time =? 0)%Z then "Not started"
      else
        let uptime_seconds := (now - start_time)%Z in
        let hours := (uptime_seconds / 3600)%Z in
        let remainder := (uptime_seconds mod 3600)%Z in
        let minutes := (remainder / 60)%Z in
        let seconds := (remainder mod 60)%Z in
        (str hours ++ "h " ++ str minutes ++ "m " ++ str seconds ++ "s")%string
  end.

(** One dictionary of the list [list_models] returns. *)
Record ModelEntry := {
  e_id : string;
  e_name : string;
  e_status : string;
  e_quantization : Quantization;
  e_uptime : string
}.

(** [self.models.values()]. *)
Definition records (m : ModelManager) : list ModelInfo :=
  flat_map (fun a => match deref a m with Some c => [info c] | None => [] end)
    (Dict.values (models m)).

Fixpoint entries (l : list ModelInfo) (k : nat) (clock : nat -> Z) : list ModelEntry :=
  match l with
  | [] => []
  | model :: rest =>
      {| e_id := mi_id model;
         e_name := mi_name model;
         e_status := status_str (mi_status model);
         e_quantization := mi_quantization model;
         e_uptime := get_uptime model (clock k) |}
      :: entries rest (S k) clock
  end.

(** [list_models]; [clock k] is what the [k]-th call of [time.time()] gives. *)
Definition list_models (clock : nat -> Z) (m : ModelManager) : list ModelEntry :=
  entries (records m) 0 clock.

(** ** Shutdown and startup *)

(** [for model_id in list(self.models.keys())] of [shutdown_all]; the [k]-th
    removal gets the answers [envs k] of the operating system. *)
Fixpoint shutdown_loop (keys : list string) (k : nat) (envs : nat -> KillEnv) : M unit :=
  match keys with
  | [] => ret tt
  | model_id :: rest =>
      try_except (remove_model model_id (envs k) ;; ret tt)
        (fun e => logger ERROR ("Error shutting down model " ++ model_id ++ ": "
                                ++ exn_str e)) ;;
      shutdown_loop rest (S k) envs
  end.

Definition shutdown_all (envs : nat -> KillEnv) : M unit :=
  keys <- read (fun m => Dict.keys (models m)) ;;
  shutdown_loop keys 0 envs.

(** The body of [for config_file in model_config_dir.glob("*.json")] in
    [startup_event]; [loaded] is what [open] and [json.load] make of the file
    ([None]: one of them raises, or what is read is no dictionary, which
    raises at its first [get]). *)
Definition load_model_file (config_file : string) (loaded : option ModelConfig)
    (env : LaunchEnv) : M unit :=
  try_except
    (match loaded with
     | None => raise JSONDecodeError
     | Some model_config =>
         logger INFO ("Loading model from config: " ++ config_file) ;;
         add_model_from_config model_config env ;;
         ret tt
     end)
    (fun e => logger ERROR ("Failed to load model from " ++ config_file ++ ": "
                            ++ exn_str e)).

(** The loop itself; the launch of the [k]-th file gets the answers
    [envs k]. *)
Fixpoint startup_loop (files : list (string * option ModelConfig)) (k : nat)
    (envs : nat -> LaunchEnv) : M unit :=
  match files with
  | [] => ret tt
  | (config_file, loaded) :: rest =>
      load_model_file config_file loaded (envs k) ;;
      startup_loop rest (S k) envs
  end.

(** [startup_event] once its three [os.makedirs] calls have succeeded;
    [files] is what the [glob] over the descriptor directory yields, in its
    order. *)
Definition startup_event (files : list (string * option ModelConfig))
    (envs : nat -> LaunchEnv) : M unit :=
  logger INFO "Starting Swift Model Server" ;;
  startup_loop files 0 envs.

(** ** The route [POST /v1/models/add] *)

(** The body of the request as pydantic hands it over, each optional field
    holding a value (its default when the client sent none). A body that
    gives [gpu_id], [quantize], [quant_method], [quant_bits], [max_model_len]
    or [memory_util] as [null] is not represented. *)
Record ModelAddRequest := {
  ar_model_id : string;
  ar_port : option Z;
  ar_gpu_id : Z;
  ar_quantize : bool;
  ar_quant_method : string;
  ar_quant_bits : Z;
  ar_max_model_len : Z;
  ar_memory_util : string
}.

Record AddResponse := {
  ad_status : string;
  ad_message : string;
  ad_model_info : ModelInfo
}.

Definition app_add_model (model_req : ModelAddRequest) (q : QuantRes) : M AddResponse :=
  try_except
    (a <- add_model (ar_model_id model_req) (ar_port model_req) (ar_gpu_id model_req)
           (ar_quantize model_req) (ar_quant_method model_req) (ar_quant_bits model_req)
           (ar_max_model_len model_req) (ar_memory_util model_req) true q no_launch ;;
     model_info <- the_info a ;;
     ret {| ad_status := "started";
            ad_message := "Model " ++ ar_model_id model_req ++ " is being loaded";
            ad_model_info := model_info |})
    (fun e =>
       logger ERROR ("Error adding model: " ++ exn_str e) ;;
       raise (HTTPException 500 ("Failed to add model: " ++ exn_str e))).

(** ** [merge_configs] ([server/utils.py]) *)

(** A configuration value, as far as [merge_configs] looks at it: a
    dictionary, or anything else, kept as its text. *)
#[warnings="-register-all"] Inductive Value :=
| VLeaf (text : string)
| VDict (items : list (string * Value)).

(** [merge_configs(base, override)] with [override] wrapped as a value, so
    that the recursion on the nested dictionaries is structural; [result]
    starts as the copy of [base]. *)
Fixpoint merge_into (override : Value) (result : Dict.t Value) {struct override}
    : Dict.t Value :=
  match override with
  | VLeaf _ => result
  | VDict items =>
      (fix loop (items : list (string * Value)) (result : Dict.t Value) : Dict.t Value :=
         match items with
         | [] => result
         | (key, value) :: rest =>
             loop rest
               (match value, Dict.get key result with
                | VDict _, Some (VDict sub) =>
                    Dict.set key (VDict (merge_into value sub)) result
                | _, _ => Dict.set key value result
                end)
         end) items result
  end.

Definition merge_configs (base override : Dict.t Value) : Dict.t Value :=
  merge_into (VDict override) base.

(** What one turn of the loop of [merge_configs] does to [result]. *)
Definition merge_key (key : string) (value : Value) (result : Dict.t Value)
    : Dict.t Value :=
  match value, Dict.get key result with
  | VDict items, Some (VDict sub) => Dict.set key (VDict (merge_configs sub items)) result
  | _, _ => Dict.set key value result
  end.

(** What [result[key]] is after that turn, [old] being [result.get(key)]
    before it. *)
Definition merged_value (old : option Value) (value : Value) : Value :=
  match value, old with
  | VDict items, Some (VDict sub) => VDict (merge_configs sub items)
  | _, _ => value
  end.

(** Sample configurations. *)
Definition ex_base : Dict.t Value :=
  [("host", VLeaf "0.0.0.0");
   ("limits", VDict [("gpu", VLeaf "1"); ("mem", VLeaf "0.9")]);
   ("port", VLeaf "8888")].

Definition ex_override : Dict.t Value :=
  [("limits", VDict [("mem", VLeaf "0.5"); ("len", VLeaf "8192")]);
   ("debug", VLeaf "true")].

(** A process that ignores SIGTERM. *)
Definition ex_kill_stubborn : KillEnv :=
  {| on_term := Killed; still_there := fun _ => true; on_kill := Killed;
     config_exists := false; on_remove := None |}.

(** The process goes at SIGTERM, the descriptor cannot be removed. *)
Definition ex_kill_refused : KillEnv :=
  {| on_term := Killed; still_there := fun _ => false; on_kill := Killed;
     config_exists := true; on_remove := Some "Permission denied" |}.

(** The body of a request to add ["org/modelA"], every option at its default. *)
Definition ex_add_request : ModelAddRequest :=
  {| ar_model_id := "org/modelA"; ar_port := None; ar_gpu_id := 0;
     ar_quantize := false; ar_quant_method := "awq"; ar_quant_bits := 4;
     ar_max_model_len := 8192; ar_memory_util := "0.9" |}.

(** The process is gone when the third cycle looks at it. *)
Definition ex_env_crash : LaunchEnv :=
  {| spawn_res := Spawned 4545 3000;
     poll_obs := fun k => if Nat.ltb k 2 then quiet else exited 1 "CUDA out of memory" |}.

(** A backend answer 200 with a JSON body. *)
Definition ex_backend_ok : BackendResponse :=
  {| r_status := 200; r_content_type := Some "application/json";
     r_chunks := ["{}"]; r_json_ok := true |}.

(** ** Predicates used by the further statements *)

(** The registry as a Python dictionary of records has it: no key twice,
    and under each key an object of the store whose identity is the key and
    whose display name is the base name of the identity. *)
Definition registry_wf (m : ModelManager) : Prop :=
  NoDup (Dict.keys (models m))
  /\ forall id a, In (id, a) (models m) ->
       exists c, deref a m = Some c
                 /\ mi_id (info c) = id
                 /\ mi_name (info c) = basename id.

(** The record [add_model] creates. *)
Definition new_record (model_id : string) (port gpu_id : Z) (quantize : bool)
    (quant_method : string) (quant_bits : Z) : ModelInfo :=
  {| mi_id := model_id;
     mi_name := basename model_id;
     mi_port := port;
     mi_url := localhost port;
     mi_gpu_id := gpu_id;
     mi_status := loading;
     mi_quantization :=
       {| q_enabled := quantize;
          q_method := if quantize then quant_method else "none";
          q_bits := if quantize then quant_bits else 0%Z |};
     mi_pid := None;
     mi_start_time := None |}.

(** The world in which the object [c] has been stored under [id], the
    allocator stands at [port] and the events [evs] have been added. *)
Definition store (id : string) (c : Cell) (port : Z) (evs : list Event) (w : World) : World :=
  {| mgr := {| infer_backend := infer_backend (mgr w);
               objects := objects (mgr w) ++ [c];
               models := Dict.set id (List.length (objects (mgr w))) (models (mgr w));
               next_port := port |};
     trace := trace w ++ evs |}.

(** The port [add_model] gives the record, and where it leaves the allocator. *)
Definition port_given (port : option Z) (m : ModelManager) : Z :=
  match port with Some p => p | None => next_port m end.

Definition port_after (port : option Z) (m : ModelManager) : Z :=
  match port with Some _ => next_port m | None => (next_port m + 1)%Z end.

(** The world with the events [evs] added. *)
Definition extend (evs : list Event) (w : World) : World :=
  {| mgr := mgr w; trace := trace w ++ evs |}.

(** The number of existence checks the loop of [remove_model] makes. *)
Fixpoint checks (n k : nat) (alive : nat -> bool) : nat :=
  match n with
  | O => O
  | S n' => S (if alive k then checks n' (S k) alive else O)
  end.

(** The signals one [remove_model] sends to a process. *)
Definition stop_signals (pid : Z) (env : KillEnv) : list (Z * Z) :=
  (pid, 15%Z)
  :: match on_term env with
     | Killed =>
         repeat (pid, 0%Z) (checks 10 0 (still_there env))
         ++ (if forallb (still_there env) (seq 0 10) then [(pid, 9%Z)] else [])
     | _ => []
     end.

(** The message of the [OSError] with which [os.remove] refuses to remove
    the descriptor during one [remove_model], if the file is there and it
    does. *)
Definition remove_refused (env : KillEnv) : option string :=
  if config_exists env then on_remove env else None.

(** The entries of a registry that [shutdown_all] leaves behind: those whose
    descriptor [os.remove] refuses to remove, the [k]-th removal getting the
    answers [envs k]. *)
Fixpoint refused_entries (d : Dict.t nat) (k : nat) (envs : nat -> KillEnv) : Dict.t nat :=
  match d with
  | [] => []
  | entry :: rest =>
      match remove_refused (envs k) with
      | Some _ => entry :: refused_entries rest (S k) envs
      | None => refused_entries rest (S k) envs
      end
  end.

(** The standard error of the export when [add_model] is to quantize and
    the export fails. *)
Definition quantize_error (quantize : bool) (q : QuantRes) : option string :=
  if quantize then
    match q with
    | QuantExists => None
    | QuantRan returncode stderr => if (returncode =? 0)%Z then None else Some stderr
    end
  else None.

(** The events of [w'] that [w] does not have yet. *)
Definition added (w w' : World) : list Event :=
  skipn (List.length (trace w)) (trace w').

(** A descriptor [add_model_from_config] accepts. *)
Definition has_model_id (cfg : ModelConfig) : bool :=
  match c_model_id cfg with
  | Some (String _ _) => true
  | _ => false
  end.

(** The descriptors among the files of a startup that were loaded and are
    accepted. *)
Fixpoint accepted (files : list (string * option ModelConfig)) : list ModelConfig :=
  match files with
  | [] => []
  | (_, Some cfg) :: rest =>
      if has_model_id cfg then cfg :: accepted rest else accepted rest
  | (_, None) :: rest => accepted rest
  end.

Fixpoint spawns (tr : list Event) : list (list string) :=
  match tr with
  | [] => []
  | EvSpawn cmd _ :: r => cmd :: spawns r
  | _ :: r => spawns r
  end.

Fixpoint saved_configs (tr : list Event) : list string :=
  match tr with
  | [] => []
  | EvSaveConfig f :: r => f :: saved_configs r
  | _ :: r => saved_configs r
  end.

(** The launch fails inside the [try] of [_start_model_server] with the
    exception [e]: the process cannot be spawned, or a cycle, the process
    alive and no probe answered 200 till then, finds it gone. *)
Inductive launch_fails (env : LaunchEnv) : Exn -> Prop :=
| fails_at_spawn (msg : string) :
    spawn_res env = SpawnError msg -> launch_fails env (OSError msg)
| fails_at_cycle (pid now : Z) (j : nat) (returncode : Z) :
    spawn_res env = Spawned pid now ->
    (j < POLL_CYCLES)%nat ->
    (forall i, (i < j)%nat -> unresolved (poll_obs env i) = true) ->
    exit_code (poll_obs env j) = Some returncode ->
    launch_fails env (RuntimeError (exit_message returncode)).

(** The allocator stands at [n] or above. *)
Definition port_floor (n : Z) (w : World) : Prop := (n <= next_port (mgr w))%Z.

(** The trace has grown from [t0] without a descriptor being saved. *)
Definition no_config_saved (t0 : list Event) (w : World) : Prop :=
  exists evs, trace w = t0 ++ evs /\ saved_configs evs = [].

(** * Proofs *)

(** ** The monad *)

Section Hoare.
Variable I : World -> Prop.

Lemma Preserved_ret {A} (a : A) : Preserved I (ret a).
Proof. intros w H; exact H. Qed.

Lemma Preserved_raise {A} (e : Exn) : Preserved I (@raise A e).
Proof. intros w H; exact H. Qed.

Lemma Preserved_read {A} (f : ModelManager -> A) : Preserved I (read f).
Proof. intros w H; exact H. Qed.

Lemma Preserved_the_info (a : nat) : Preserved I (the_info a).
Proof. intros w H; unfold the_info; destruct (deref a (mgr w)); exact H. Qed.

Lemma Preserved_bind {A B} (c : M A) (k : A -> M B) :
  Preserved I c -> (forall a, Preserved I (k a)) -> Preserved I (bind c k).
Proof.
  intros Hc Hk w H. unfold bind. specialize (Hc w H).
  destruct (c w) as [[a | e] w1]; simpl in *.
  - apply Hk, Hc.
  - exact Hc.
Qed.

Lemma Preserved_try {A} (c : M A) (h : Exn -> M A) :
  Preserved I c -> (forall e, Preserved I (h e)) -> Preserved I (try_except c h).
Proof.
  intros Hc Hh w H. unfold try_except. specialize (Hc w H).
  destruct (c w) as [[a | e] w1]; simpl in *.
  - exact Hc.
  - apply Hh, Hc.
Qed.
End Hoare.

(** Unfolds the monad, and nothing else. *)
Ltac mrun :=
  cbv beta iota zeta delta
    [bind ret raise read modify emit try_except the_info logger
     set_status set_task set_process alloc].

Create HintDb pres.

(** Takes a goal [Preserved I c] apart along the structure of [c]; what is
    left is about the primitives, which the hints of [pres] settle. *)
Ltac pres_step :=
  lazymatch goal with
  | |- Preserved _ (bind _ _) => apply Preserved_bind; [ | intro ]
  | |- Preserved _ (try_except _ _) => apply Preserved_try; [ | intro ]
  | |- Preserved _ (ret _) => apply Preserved_ret
  | |- Preserved _ (raise _) => apply Preserved_raise
  | |- Preserved _ (read _) => apply Preserved_read
  | |- Preserved _ (the_info _) => apply Preserved_the_info
  | |- Preserved _ (match ?x with _ => _ end) => destruct x
  | |- Preserved _ (let _ := _ in _) => cbv zeta
  end.

Ltac pres := repeat pres_step; auto with pres.

(** ** Lists, dictionaries, the store *)

Lemma reserved_app (a b : list Event) : reserved (a ++ b) = reserved a ++ reserved b.
Proof.
  induction a as [ | e a IH]; simpl; [ reflexivity | ].
  destruct e; simpl; rewrite IH; reflexivity.
Qed.

Lemma posts_app (a b : list Event) : posts (a ++ b) = posts a ++ posts b.
Proof.
  induction a as [ | e a IH]; simpl; [ reflexivity | ].
  destruct e; simpl; rewrite IH; reflexivity.
Qed.

Lemma probes_app (a b : list Event) : probes (a ++ b) = probes a ++ probes b.
Proof.
  induction a as [ | e a IH]; simpl; [ reflexivity | ].
  destruct e; simpl; rewrite IH; reflexivity.
Qed.

Lemma dict_get_set_same {V} (k : string) (v : V) (d : Dict.t V) :
  Dict.get k (Dict.set k v d) = Some v.
Proof.
  induction d as [ | [k' v'] d IH]; simpl.
  - rewrite String.eqb_refl; reflexivity.
  - destruct (String.eqb k' k) eqn:E; simpl.
    + rewrite String.eqb_refl; reflexivity.
    + rewrite E; exact IH.
Qed.

Lemma dict_get_set_other {V} (k k0 : string) (v : V) (d : Dict.t V) :
  k0 <> k -> Dict.get k0 (Dict.set k v d) = Dict.get k0 d.
Proof.
  intros Hne. induction d as [ | [k' v'] d IH]; simpl.
  - destruct (String.eqb_spec k k0); [ congruence | reflexivity ].
  - destruct (String.eqb_spec k' k) as [-> | Hk]; simpl.
    + destruct (String.eqb_spec k k0); [ congruence | reflexivity ].
    + destruct (String.eqb_spec k' k0); [ reflexivity | exact IH ].
Qed.

Lemma dict_get_pop_same {V} (k : string) (d : Dict.t V) :
  Dict.get k (Dict.pop k d) = None.
Proof.
  unfold Dict.pop. induction d as [ | [k' v'] d IH]; simpl; [ reflexivity | ].
  destruct (String.eqb k' k) eqn:E; simpl; [ exact IH | ].
  rewrite E; exact IH.
Qed.

Lemma dict_get_pop_other {V} (k k0 : string) (d : Dict.t V) :
  k0 <> k -> Dict.get k0 (Dict.pop k d) = Dict.get k0 d.
Proof.
  intros Hne. unfold Dict.pop. induction d as [ | [k' v'] d IH]; simpl; [ reflexivity | ].
  destruct (String.eqb_spec k' k) as [-> | Hk]; simpl.
  - destruct (String.eqb_spec k k0); [ congruence | exact IH ].
  - destruct (String.eqb_spec k' k0); [ reflexivity | exact IH ].
Qed.

Lemma list_update_length {A} (l : list A) (n : nat) (f : A -> A) :
  List.length (list_update l n f) = List.length l.
Proof.
  revert n; induction l as [ | x l IH]; intros [ | n]; simpl; auto.
Qed.

Lemma nth_error_list_update_same {A} (l : list A) (n : nat) (f : A -> A) :
  nth_error (list_update l n f) n = option_map f (nth_error l n).
Proof.
  revert n; induction l as [ | x l IH]; intros [ | n]; simpl; auto.
Qed.

Lemma nth_error_list_update_other {A} (l : list A) (n m : nat) (f : A -> A) :
  m <> n -> nth_error (list_update l n f) m = nth_error l m.
Proof.
  revert n m; induction l as [ | x l IH]; intros [ | n] [ | m] H; simpl; auto.
  congruence.
Qed.

Lemma deref_update_same (a : nat) (f : Cell -> Cell) (m : ModelManager) (c : Cell) :
  deref a m = Some c -> deref a (update_cell a f m) = Some (f c).
Proof.
  unfold deref, update_cell; simpl. intros H.
  rewrite nth_error_list_update_same, H; reflexivity.
Qed.

Lemma deref_update_other (a b : nat) (f : Cell -> Cell) (m : ModelManager) :
  b <> a -> deref b (update_cell a f m) = deref b m.
Proof.
  unfold deref, update_cell; simpl. apply nth_error_list_update_other.
Qed.

(** ** Decimal text *)

Lemma to_int_not_nil (z : Z) :
  Z.to_int z <> Decimal.Pos Decimal.Nil /\ Z.to_int z <> Decimal.Neg Decimal.Nil.
Proof.
  destruct z as [ | p | p]; simpl; split; try discriminate; intros [= H];
    revert H; apply DecimalPos.Unsigned.to_uint_nonnil.
Qed.

Lemma str_inj (x y : Z) : str x = str y -> x = y.
Proof.
  unfold str. intros H.
  apply (f_equal NilZero.int_of_string) in H.
  destruct (to_int_not_nil x) as [Hx1 Hx2], (to_int_not_nil y) as [Hy1 Hy2].
  rewrite !NilZero.isi in H by assumption.
  injection H as H. apply DecimalZ.to_int_inj, H.
Qed.

Lemma localhost_inj (p q : Z) : localhost p = localhost q -> p = q.
Proof.
  unfold localhost. intros H. simpl in H. injection H as H. apply str_inj, H.
Qed.

Lemma dict_get_in {V} (k : string) (v : V) (d : Dict.t V) :
  Dict.get k d = Some v -> In (k, v) d.
Proof.
  induction d as [ | [k' v'] d IH]; simpl; [ discriminate | ].
  destruct (String.eqb_spec k' k) as [-> | Hne].
  - intros [= ->]. now left.
  - intros H. right. apply IH, H.
Qed.

Lemma dict_in_get_some {V} (k : string) (v : V) (d : Dict.t V) :
  In (k, v) d -> exists v', Dict.get k d = Some v'.
Proof.
  induction d as [ | [k' v'] d IH]; simpl; [ intros [] | ].
  destruct (String.eqb_spec k' k) as [-> | Hne]; [ intros _; eexists; reflexivity | ].
  intros [[= -> _] | H]; [ congruence | apply IH, H ].
Qed.

(** ** Port allocator *)

Lemma alloc_inv_emit (base : Z) (e : Event) :
  reserved [e] = [] -> Preserved (alloc_inv base) (emit e).
Proof.
  intros He w [H1 H2]. unfold alloc_inv, emit; simpl.
  rewrite reserved_app, He, app_nil_r. split; assumption.
Qed.

Lemma alloc_inv_modify (base : Z) (f : ModelManager -> ModelManager) :
  (forall m, next_port (f m) = next_port m) -> Preserved (alloc_inv base) (modify f).
Proof.
  intros Hf w [H1 H2]. unfold alloc_inv, modify; simpl.
  rewrite Hf. split; assumption.
Qed.

Lemma alloc_inv_alloc (base : Z) (c : Cell) : Preserved (alloc_inv base) (alloc c).
Proof. intros w H. exact H. Qed.

Lemma ports_from_S (base : Z) (n : nat) :
  ports_from base (S n) = ports_from base n ++ [(base + Z.of_nat n)%Z].
Proof. unfold ports_from. rewrite seq_S, map_app. reflexivity. Qed.

Lemma alloc_inv_get_next_port (base : Z) : Preserved (alloc_inv base) _get_next_port.
Proof.
  intros w [H1 H2]. unfold alloc_inv, _get_next_port, bind, read, modify, emit, ret; simpl.
  rewrite reserved_app; simpl. rewrite length_app; simpl.
  rewrite Nat.add_1_r, ports_from_S, <- H1, H2. split; [ reflexivity | lia ].
Qed.

#[export] Hint Resolve alloc_inv_alloc alloc_inv_get_next_port : pres.
#[export] Hint Extern 1 (Preserved (alloc_inv _) (emit _)) =>
  apply alloc_inv_emit; reflexivity : pres.
#[export] Hint Extern 1 (Preserved (alloc_inv _) (logger _ _)) =>
  apply alloc_inv_emit; reflexivity : pres.
#[export] Hint Extern 1 (Preserved (alloc_inv _) (modify _)) =>
  apply alloc_inv_modify; reflexivity : pres.
#[export] Hint Extern 1 (Preserved (alloc_inv _) (set_status _ _)) =>
  apply alloc_inv_modify; reflexivity : pres.
#[export] Hint Extern 1 (Preserved (alloc_inv _) (set_process _ _ _)) =>
  apply alloc_inv_modify; reflexivity : pres.
#[export] Hint Extern 1 (Preserved (alloc_inv _) (set_task _ _)) =>
  apply alloc_inv_modify; reflexivity : pres.

Lemma alloc_inv_launch_failed (base : Z) (a : nat) (e : Exn) :
  Preserved (alloc_inv base) (launch_failed a e).
Proof. unfold launch_failed. pres. Qed.

Lemma alloc_inv_launch_timeout (base : Z) (a : nat) :
  Preserved (alloc_inv base) (launch_timeout a).
Proof. unfold launch_timeout. pres. Qed.

Lemma alloc_inv_poll_cycle (base : Z) (a : nat) (o : PollObs) :
  Preserved (alloc_inv base) (poll_cycle a o).
Proof. unfold poll_cycle. pres. Qed.

Lemma alloc_inv_popen (base : Z) (a : nat) (cmd : list string) (r : SpawnRes) :
  Preserved (alloc_inv base) (popen a cmd r).
Proof. unfold popen. pres. Qed.

Lemma alloc_inv_launch_prologue (base : Z) (a : nat) (args : LaunchArgs) :
  Preserved (alloc_inv base) (launch_prologue a args).
Proof. unfold launch_prologue. pres. Qed.

#[export] Hint Resolve alloc_inv_launch_failed alloc_inv_launch_timeout
  alloc_inv_poll_cycle alloc_inv_popen alloc_inv_launch_prologue : pres.

Lemma alloc_inv_poll_loop (base : Z) (n k a : nat) (obs : nat -> PollObs) :
  Preserved (alloc_inv base) (poll_loop n k a obs).
Proof.
  revert k; induction n as [ | n IH]; intros k; simpl; pres.
Qed.

#[export] Hint Resolve alloc_inv_poll_loop : pres.

Lemma alloc_inv_start_model_server (base : Z) (a : nat) (args : LaunchArgs) (env : LaunchEnv) :
  Preserved (alloc_inv base) (_start_model_server a args env).
Proof. unfold _start_model_server. pres. Qed.

Lemma alloc_inv_launch_step (base : Z) (a : nat) (i : LaunchInput) :
  Preserved (alloc_inv base) (launch_step a i).
Proof.
  intros w H. unfold launch_step.
  destruct (deref a (mgr w)) as [c | ]; [ | exact H ].
  destruct (task c) as [args | k | ], i as [r | o]; try exact H.
  - refine ((_ : Preserved (alloc_inv base) _) w H). pres.
  - refine ((_ : Preserved (alloc_inv base) _) w H). unfold after_cycle. pres.
Qed.

#[export] Hint Resolve alloc_inv_start_model_server alloc_inv_launch_step : pres.

Lemma alloc_inv_quantize (base : Z) (model_id quant_method : string) (quant_bits gpu_id : Z)
    (q : QuantRes) :
  Preserved (alloc_inv base) (_quantize_model model_id quant_method quant_bits gpu_id q).
Proof. unfold _quantize_model. pres. Qed.

Lemma alloc_inv_save_model_config (base : Z) (a : nat) :
  Preserved (alloc_inv base) (_save_model_config a).
Proof. unfold _save_model_config. pres. Qed.

#[export] Hint Resolve alloc_inv_quantize alloc_inv_save_model_config : pres.

Lemma alloc_inv_add_model (base : Z) (model_id : string) (port : option Z) (gpu_id : Z)
    (quantize : bool) (quant_method : string) (quant_bits max_len : Z) (mem_util : string)
    (background_tasks : bool) (q : QuantRes) (env : LaunchEnv) :
  Preserved (alloc_inv base)
    (add_model model_id port gpu_id quantize quant_method quant_bits max_len mem_util
       background_tasks q env).
Proof. unfold add_model. pres. Qed.

Lemma alloc_inv_add_model_from_config_register (base : Z) (cfg : ModelConfig) :
  Preserved (alloc_inv base) (add_model_from_config_register cfg).
Proof. unfold add_model_from_config_register. pres. Qed.

#[export] Hint Resolve alloc_inv_add_model_from_config_register : pres.

Lemma alloc_inv_add_model_from_config (base : Z) (cfg : ModelConfig) (env : LaunchEnv) :
  Preserved (alloc_inv base) (add_model_from_config cfg env).
Proof. unfold add_model_from_config. pres. Qed.

Lemma alloc_inv_wait_exit (base : Z) (n k : nat) (pid : Z) (alive : nat -> bool) :
  Preserved (alloc_inv base) (wait_exit n k pid alive).
Proof. revert k; induction n as [ | n IH]; intros k; simpl; pres. Qed.

#[export] Hint Resolve alloc_inv_wait_exit : pres.

Lemma alloc_inv_remove_model (base : Z) (key : string) (env : KillEnv) :
  Preserved (alloc_inv base) (remove_model key env).
Proof. unfold remove_model, stop_process, os_kill. pres. Qed.

Lemma alloc_inv_exec (base : Z) (op : Op) (w : World) :
  alloc_inv base w -> alloc_inv base (exec op w).
Proof.
  intros H. destruct op; simpl.
  - apply alloc_inv_add_model, H.
  - apply alloc_inv_add_model_from_config_register, H.
  - apply alloc_inv_launch_step, H.
  - apply alloc_inv_remove_model, H.
Qed.

Lemma alloc_inv_run (base : Z) (ops : list Op) (w : World) :
  alloc_inv base w -> alloc_inv base (run ops w).
Proof.
  revert w; induction ops as [ | op ops IH]; intros w H; simpl; [ exact H | ].
  apply IH, alloc_inv_exec, H.
Qed.

Lemma ports_from_sorted (base : Z) (n : nat) : StronglySorted Z.lt (ports_from base n).
Proof.
  unfold ports_from. generalize 0%nat as s.
  induction n as [ | n IH]; intros s; simpl; constructor; [ apply IH | ].
  apply Forall_forall. intros x Hx.
  apply in_map_iff in Hx. destruct Hx as [i [<- Hi]].
  apply in_seq in Hi. lia.
Qed.

Lemma ports_from_NoDup (base : Z) (n : nat) : NoDup (ports_from base n).
Proof.
  generalize (ports_from_sorted base n). generalize (ports_from base n) as l.
  induction 1 as [ | x l Hs IH Hx]; constructor; [ | exact IH ].
  intros Hin. rewrite Forall_forall in Hx. specialize (Hx _ Hin). lia.
Qed.

(** ** What a launch leaves alone *)

Lemma same_record_refl (x : ModelInfo) : same_record x x.
Proof. repeat split. Qed.

Lemma same_record_trans (x y z : ModelInfo) :
  same_record x y -> same_record y z -> same_record x z.
Proof.
  unfold same_record. intros (?&?&?&?&?&?) (?&?&?&?&?&?).
  repeat split; congruence.
Qed.

Lemma frame_refl (w : World) : frame w w.
Proof.
  repeat split. intros a c H. exists c. split; [ exact H | apply same_record_refl ].
Qed.

Lemma frame_emit (w0 : World) (e : Event) :
  reserved [e] = [] -> Preserved (frame w0) (emit e).
Proof.
  intros He w (H1&H2&H3&H4&H5&H6). unfold frame, emit; simpl.
  rewrite reserved_app, He, app_nil_r. repeat split; assumption.
Qed.

Lemma frame_update (w0 : World) (a : nat) (f : Cell -> Cell) :
  (forall c, same_record (info c) (info (f c))) ->
  Preserved (frame w0) (modify (update_cell a f)).
Proof.
  intros Hf w (H1&H2&H3&H4&H5&H6). unfold frame, modify; simpl.
  rewrite list_update_length. repeat split; try assumption.
  intros b c Hb. destruct (H6 b c Hb) as [c' [Hc' Hs]].
  destruct (Nat.eq_dec b a) as [-> | Hne].
  - exists (f c'). split; [ apply deref_update_same, Hc' | ].
    eapply same_record_trans; [ exact Hs | apply Hf ].
  - exists c'. split; [ rewrite deref_update_other; assumption | exact Hs ].
Qed.

#[export] Hint Extern 1 (Preserved (frame _) (emit _)) =>
  apply frame_emit; reflexivity : pres.
#[export] Hint Extern 1 (Preserved (frame _) (logger _ _)) =>
  apply frame_emit; reflexivity : pres.
#[export] Hint Extern 1 (Preserved (frame _) (set_status _ _)) =>
  apply frame_update; intro; repeat split : pres.
#[export] Hint Extern 1 (Preserved (frame _) (set_process _ _ _)) =>
  apply frame_update; intro; repeat split : pres.
#[export] Hint Extern 1 (Preserved (frame _) (set_task _ _)) =>
  apply frame_update; intro; repeat split : pres.

Lemma frame_poll_loop (w0 : World) (n k a : nat) (obs : nat -> PollObs) :
  Preserved (frame w0) (poll_loop n k a obs).
Proof.
  revert k; induction n as [ | n IH]; intros k; simpl; unfold poll_cycle; pres.
Qed.

#[export] Hint Resolve frame_poll_loop : pres.

Lemma frame_start_model_server (w0 : World) (a : nat) (args : LaunchArgs) (env : LaunchEnv) :
  Preserved (frame w0) (_start_model_server a args env).
Proof.
  unfold _start_model_server, launch_prologue, popen, launch_timeout, launch_failed. pres.
Qed.

(** ** Registration from a saved descriptor *)

Lemma deref_alloc_new (m : ModelManager) (c : Cell) (l : list Cell) :
  l = objects m ++ [c] ->
  nth_error l (List.length (objects m)) = Some c.
Proof. intros ->. rewrite nth_error_app2, Nat.sub_diag by lia. reflexivity. Qed.

Lemma register_from_config_effect (cfg : ModelConfig) (model_id : string) (w : World) :
  c_model_id cfg = Some model_id -> model_id <> "" ->
  let p := next_port (mgr w) in
  let a := List.length (objects (mgr w)) in
  exists mi args w1,
    add_model_from_config_register cfg w = (Ok (a, args), w1)
    /\ objects (mgr w1) = objects (mgr w) ++ [{| info := mi; task := Pending args |}]
    /\ models (mgr w1) = Dict.set model_id a (models (mgr w))
    /\ next_port (mgr w1) = (p + 2)%Z
    /\ infer_backend (mgr w1) = infer_backend (mgr w)
    /\ trace w1 = trace w ++ [EvReserve p; EvReserve (p + 1)]
    /\ mi_id mi = model_id
    /\ mi_status mi = loading
    /\ mi_port mi = dict_get_default (c_port cfg) p
    /\ mi_url mi = localhost (dict_get_default (c_port cfg) (p + 1)%Z).
Proof.
  intros Hid Hne p a.
  unfold add_model_from_config_register. rewrite Hid.
  destruct model_id as [ | ch rest]; [ congruence | ].
  unfold bind, _get_next_port, read, modify, emit, ret, alloc; simpl.
  do 3 eexists. split; [ reflexivity | ]. simpl.
  rewrite <- app_assoc. simpl.
  repeat split. subst p. lia.
Qed.

(** C10. [add_model_from_config] calls [_get_next_port] twice, once for the
    port and once for the URL. For a descriptor without ["port"] the record it
    leaves in the registry has the first value as its port and names the next
    one in its URL; a record whose URL names its own port can only come from a
    descriptor that carries ["port"]. *)
Theorem config_without_port_url_mismatch (cfg : ModelConfig) (model_id : string)
    (env : LaunchEnv) (w : World) :
  c_model_id cfg = Some model_id -> model_id <> "" ->
  let p := next_port (mgr w) in
  let w' := snd (add_model_from_config cfg env w) in
  reserved (trace w') = reserved (trace w) ++ [p; (p + 1)%Z]
  /\ exists a c,
       Dict.get model_id (models (mgr w')) = Some a
       /\ deref a (mgr w') = Some c
       /\ (c_port cfg = None ->
             mi_port (info c) = p /\ mi_url (info c) = localhost (p + 1))
       /\ (mi_url (info c) = localhost (mi_port (info c)) -> c_port cfg <> None).
Proof.
  intros Hid Hne p w'.
  destruct (register_from_config_effect cfg model_id w Hid Hne)
    as (mi & args & w1 & Hreg & Hobjs & Hmodels & _ & _ & Htrace & _ & _ & Hport & Hurl).
  fold p in Htrace, Hport, Hurl.
  assert (Hw' : frame w1 w').
  { subst w'. unfold add_model_from_config, bind. rewrite Hreg. simpl.
    pose proof (frame_start_model_server w1 (List.length (objects (mgr w))) args env w1
                  (frame_refl w1)) as Hf.
    destruct (_start_model_server _ args env w1) as [[[] | e] w2]; exact Hf. }
  destruct Hw' as (Hm & _ & _ & Hr & _ & Hobj).
  split.
  - rewrite Hr, Htrace, reserved_app. reflexivity.
  - destruct (Hobj (List.length (objects (mgr w))) _ (deref_alloc_new _ _ _ Hobjs))
      as [c' [Hc' Hs]].
    exists (List.length (objects (mgr w))), c'.
    rewrite Hm, Hmodels.
    split; [ apply dict_get_set_same | ].
    split; [ exact Hc' | ].
    destruct Hs as (_ & _ & Hp & Hu & _). simpl in Hp, Hu.
    rewrite <- Hp, <- Hu, Hport, Hurl.
    split.
    + intros ->. simpl. split; reflexivity.
    + intros Heq Hnone. rewrite Hnone in Heq. simpl in Heq.
      apply localhost_inj in Heq. lia.
Qed.

(** ** Duplicate registration *)

(** [add_model] refuses an identity the registry holds, before it touches
    anything. *)
Lemma add_model_rejects_duplicate (model_id : string) (port : option Z) (gpu_id : Z)
    (quantize : bool) (quant_method : string) (quant_bits max_len : Z) (mem_util : string)
    (background_tasks : bool) (q : QuantRes) (env : LaunchEnv) (w : World) :
  Dict.mem model_id (models (mgr w)) = true ->
  add_model model_id port gpu_id quantize quant_method quant_bits max_len mem_util
    background_tasks q env w
  = (Raise (ValueError ("Model " ++ model_id ++ " already exists")), w).
Proof.
  intros H. unfold add_model, bind, read; simpl. rewrite H. reflexivity.
Qed.

Lemma holds_emit (id : string) (e : Event) :
  Preserved (fun w => Dict.mem id (models (mgr w)) = true) (emit e).
Proof. intros w H. exact H. Qed.

Lemma holds_update (id : string) (a : nat) (f : Cell -> Cell) :
  Preserved (fun w => Dict.mem id (models (mgr w)) = true) (modify (update_cell a f)).
Proof. intros w H. exact H. Qed.

#[export] Hint Extern 1 (Preserved (fun w => Dict.mem _ (models (mgr w)) = true) (emit _)) =>
  apply holds_emit : pres.
#[export] Hint Extern 1 (Preserved (fun w => Dict.mem _ (models (mgr w)) = true) (logger _ _)) =>
  apply holds_emit : pres.
#[export] Hint Extern 1 (Preserved (fun w => Dict.mem _ (models (mgr w)) = true) (set_status _ _)) =>
  apply holds_update : pres.
#[export] Hint Extern 1 (Preserved (fun w => Dict.mem _ (models (mgr w)) = true) (set_process _ _ _)) =>
  apply holds_update : pres.
#[export] Hint Extern 1 (Preserved (fun w => Dict.mem _ (models (mgr w)) = true) (set_task _ _)) =>
  apply holds_update : pres.

Lemma holds_poll_loop (id : string) (n k a : nat) (obs : nat -> PollObs) :
  Preserved (fun w => Dict.mem id (models (mgr w)) = true) (poll_loop n k a obs).
Proof.
  revert k; induction n as [ | n IH]; intros k; simpl; unfold poll_cycle; pres.
Qed.

#[export] Hint Resolve holds_poll_loop : pres.

Lemma holds_start_model_server (id : string) (a : nat) (args : LaunchArgs) (env : LaunchEnv) :
  Preserved (fun w => Dict.mem id (models (mgr w)) = true) (_start_model_server a args env).
Proof.
  unfold _start_model_server, launch_prologue, popen, launch_timeout, launch_failed. pres.
Qed.

Lemma snd_bind_ok {A B} (c : M A) (k : A -> M B) (w w1 : World) (a : A) :
  c w = (Ok a, w1) -> snd (bind c k w) = snd (k a w1).
Proof. intros H. unfold bind. rewrite H. reflexivity. Qed.

Lemma bind_ok {A B} (c : M A) (k : A -> M B) (w w1 : World) (a : A) :
  c w = (Ok a, w1) -> bind c k w = k a w1.
Proof. intros H. unfold bind. rewrite H. reflexivity. Qed.

Lemma bind_raise {A B} (c : M A) (k : A -> M B) (w w1 : World) (e : Exn) :
  c w = (Raise e, w1) -> bind c k w = (Raise e, w1).
Proof. intros H. unfold bind. rewrite H. reflexivity. Qed.

(** Once [add_model] has stored the record, the identity stays registered
    to the end of the call, however the launch ends. *)
Lemma add_model_registers (model_id : string) (port : option Z) (gpu_id : Z)
    (quant_method : string) (quant_bits max_len : Z) (mem_util : string)
    (background_tasks : bool) (q : QuantRes) (env : LaunchEnv) (w : World) :
  Dict.mem model_id (models (mgr w)) = false ->
  Dict.mem model_id
    (models (mgr (snd (add_model model_id port gpu_id false quant_method quant_bits
                         max_len mem_util background_tasks q env w)))) = true.
Proof.
  intros H.
  assert (Hset : forall a (m : Dict.t nat), Dict.mem model_id (Dict.set model_id a m) = true).
  { intros a m. unfold Dict.mem. rewrite dict_get_set_same. reflexivity. }
  assert (Hrest : forall a args,
             Preserved (fun w => Dict.mem model_id (models (mgr w)) = true)
               ((if background_tasks then ret tt
                 else _start_model_server a args env) ;;
                _save_model_config a ;; ret a)).
  { intros a args. unfold _save_model_config.
    pres; try apply holds_start_model_server; apply holds_emit. }
  unfold add_model.
  erewrite snd_bind_ok by reflexivity. rewrite H.
  destruct port as [p | ];
    repeat (erewrite snd_bind_ok by reflexivity);
    apply Hrest; simpl; apply Hset.
Qed.

(** C3. Two descriptors with the same ["model_id"] fed to
    [add_model_from_config] one after the other: the second call returns a
    record instead of raising, and the registry now holds a new record under
    the identity, with another port and another status, where the first
    call had left a ready one. *)
Theorem add_model_from_config_overwrites :
  let w1 := snd (add_model_from_config ex_cfg ex_env_ready ex_world) in
  let second := add_model_from_config ex_cfg ex_env_slow w1 in
  (option_map mi_status (lookup "org/modelA" w1) = Some ready
   /\ option_map mi_port (lookup "org/modelA" w1) = Some 8000%Z
   /\ Dict.get "org/modelA" (models (mgr w1)) = Some 0%nat)
  /\ fst second = Ok 1%nat
  /\ (option_map mi_status (lookup "org/modelA" (snd second)) = Some starting
      /\ option_map mi_port (lookup "org/modelA" (snd second)) = Some 8002%Z
      /\ Dict.get "org/modelA" (models (mgr (snd second))) = Some 1%nat).
Proof.
  vm_compute. repeat split.
Qed.

(** ** Removal *)

Lemma find_all_false {A} (f : A -> bool) (l : list A) :
  (forall x, In x l -> f x = false) -> find f l = None.
Proof.
  induction l as [ | x l IH]; simpl; intros H; [ reflexivity | ].
  rewrite (H x (or_introl eq_refl)). apply IH. intros y Hy. apply H. now right.
Qed.

Lemma get_model_none (key : string) (m : ModelManager) :
  Dict.get key (models m) = None ->
  (forall a c, In a (Dict.values (models m)) -> deref a m = Some c ->
     mi_name (info c) <> key) ->
  get_model key m = None.
Proof.
  intros Hid Hname. unfold get_model. rewrite Hid.
  apply find_all_false. intros a Ha. unfold name_is.
  destruct (deref a m) as [c | ] eqn:Hc; [ | reflexivity ].
  apply String.eqb_neq. eapply Hname; eassumption.
Qed.

(** C8. A key that is neither the identity nor the display name of a
    registered record: [remove_model] raises [KeyError], the route answers
    404, and the world is the one before the call, so no signal was sent and
    the registry is as it was. *)
Theorem remove_unknown_key_not_found (key : string) (env : KillEnv) (w : World) :
  Dict.get key (models (mgr w)) = None ->
  (forall a c, In a (Dict.values (models (mgr w))) -> deref a (mgr w) = Some c ->
     mi_name (info c) <> key) ->
  remove_model key env w = (Raise (KeyError ("Model " ++ key ++ " not found")), w)
  /\ app_remove_model key env w
     = (Raise (HTTPException 404 ("Model " ++ key ++ " not found")), w)
  /\ signals (trace (snd (app_remove_model key env w))) = signals (trace w).
Proof.
  intros Hid Hname.
  assert (Hrm : remove_model key env w
                = (Raise (KeyError ("Model " ++ key ++ " not found")), w)).
  { unfold remove_model.
    erewrite bind_ok by reflexivity.
    rewrite (get_model_none key (mgr w) Hid Hname). reflexivity. }
  assert (Happ : app_remove_model key env w
                 = (Raise (HTTPException 404 ("Model " ++ key ++ " not found")), w)).
  { unfold app_remove_model, try_except. rewrite Hrm. reflexivity. }
  split; [ exact Hrm | ]. split; [ exact Happ | ]. rewrite Happ. reflexivity.
Qed.

(** C8, as stated, fails: ["modelA"] is not an identity of the registry, which
    holds ["org/modelA"] only, yet removing ["modelA"] succeeds, signals the
    process of that record and empties the registry. *)
Lemma remove_by_display_name_removes :
  Dict.get "modelA" (models (mgr ex_ready_world)) = None
  /\ Dict.keys (models (mgr ex_ready_world)) = ["org/modelA"]
  /\ fst (remove_model "modelA" ex_kill ex_ready_world)
     = Ok {| rr_id := "org/modelA"; rr_name := "modelA"; rr_port := 8000 |}
  /\ signals (trace (snd (remove_model "modelA" ex_kill ex_ready_world)))
     = [(4242, 15); (4242, 0)]%Z
  /\ models (mgr (snd (remove_model "modelA" ex_kill ex_ready_world))) = [].
Proof.
  vm_compute. repeat split.
Qed.

(** ** Forwarded headers *)

Lemma proxy_headers_cases (hs : list (string * string)) :
  proxy_headers hs =
    match headers_get "Content-Type" hs, headers_get "Authorization" hs with
    | Some c, Some a => [("Content-Type", c); ("Authorization", a)]
    | Some c, None => [("Content-Type", c)]
    | None, Some a => [("Authorization", a)]
    | None, None => []
    end.
Proof.
  unfold proxy_headers, WHITELIST, forward_header; simpl.
  destruct (headers_get "Content-Type" hs), (headers_get "Authorization" hs); reflexivity.
Qed.

Lemma proxy_request_trace (request : Request) (url endpoint : string) (backend : Backend)
    (w : World) :
  mgr (snd (proxy_request request url endpoint backend w)) = mgr w
  /\ exists evs,
       trace (snd (proxy_request request url endpoint backend w)) = trace w ++ evs
       /\ posts evs
          = match req_body request with
            | Some body =>
                [EvPost (url ++ "/v1/" ++ endpoint) (proxy_headers (req_headers request))
                   (b_text body) (b_stream body)]
            | None => []
            end.
Proof.
  unfold proxy_request.
  destruct (req_body request) as [body | ]; simpl;
    [ | split; [ reflexivity | exists []; now rewrite app_nil_r ] ].
  cbv beta iota zeta delta
    [try_except proxy_streaming_request proxy_standard_request bind emit ret raise logger].
  destruct (b_stream body); cbn [snd mgr trace];
    [ split; [ reflexivity | eexists; split; reflexivity ] | ].
  destruct backend as [r | r n msg | msg | msg]; cbn [snd mgr trace];
    try (rewrite <- app_assoc; split; [ reflexivity | eexists; split; reflexivity ]).
  destruct (is_success (r_status r)); cbn [snd mgr trace].
  - destruct (r_json_ok r); cbn [snd mgr trace]; rewrite <- ?app_assoc;
      (split; [ reflexivity | eexists; split; reflexivity ]).
  - destruct (is_json_type (r_content_type r)); cbn [snd mgr trace];
      [ destruct (r_json_ok r); cbn [snd mgr trace] | ];
      rewrite <- app_assoc; (split; [ reflexivity | eexists; split; reflexivity ]).
Qed.

(** What a completion route does to the world: the manager is untouched, and
    either no call leaves the server, or exactly one does, to the URL of a
    ready record that the key of the request resolves to, with the headers
    [proxy_headers] builds. *)
Lemma completion_route_posts (endpoint what : string) (request : Request)
    (backend : Backend) (w : World) :
  let w' := snd (completion_route endpoint what request backend w) in
  mgr w' = mgr w
  /\ (posts (trace w') = posts (trace w)
      \/ exists body key a c,
           req_body request = Some body
           /\ b_model body = Some key /\ key <> EmptyString
           /\ get_model key (mgr w) = Some a
           /\ deref a (mgr w) = Some c
           /\ mi_status (info c) = ready
           /\ posts (trace w')
              = posts (trace w)
                ++ [EvPost (mi_url (info c) ++ "/v1/" ++ endpoint)
                      (proxy_headers (req_headers request)) (b_text body) (b_stream body)]).
Proof.
  intros w'. subst w'. unfold completion_route.
  destruct (req_body request) as [body | ] eqn:Hbody.
  2:{ mrun. cbn [snd mgr trace]. split; [ reflexivity | left ].
      rewrite posts_app. cbn. apply app_nil_r. }
  destruct (b_model body) as [[ | ch key] | ] eqn:Hkey;
    try (mrun; split; [ reflexivity | left; reflexivity ]).
  mrun.
  destruct (get_model (String ch key) (mgr w)) as [a | ] eqn:Hget;
    [ | split; [ reflexivity | left; reflexivity ] ].
  destruct (deref a (mgr w)) as [c | ] eqn:Hc.
  2:{ cbn [snd mgr trace]. split; [ reflexivity | left ].
      rewrite posts_app. cbn. apply app_nil_r. }
  destruct (mi_status (info c)) eqn:Hst; cbn [negb Status_eqb];
    try (split; [ reflexivity | left; reflexivity ]).
  pose proof (proxy_request_trace request (mi_url (info c)) endpoint backend w)
    as [Hm (evs & Ht & Hposts)].
  rewrite Hbody in Hposts.
  destruct (proxy_request request (mi_url (info c)) endpoint backend w) as [[resp | e] w1];
    cbn [snd] in *.
  - split; [ exact Hm | ]. right. exists body, (String ch key), a, c.
    rewrite Ht, posts_app, Hposts. repeat split; try assumption. discriminate.
  - assert (Hp : posts (trace w1)
                 = posts (trace w)
                   ++ [EvPost (mi_url (info c) ++ "/v1/" ++ endpoint)
                         (proxy_headers (req_headers request)) (b_text body) (b_stream body)])
      by (rewrite Ht, posts_app, Hposts; reflexivity).
    destruct e; cbn [snd mgr trace]; (split; [ exact Hm | ]); right;
      exists body, (String ch key), a, c;
      rewrite ?posts_app, Hp; cbn [posts]; rewrite ?app_nil_r;
      (repeat split; try assumption; discriminate).
Qed.

(** The call a completion route sends out for a ready record. *)
Lemma completion_route_ready_posts (endpoint what : string) (request : Request)
    (body : Body) (key : string) (backend : Backend) (w : World) (a : nat) (c : Cell) :
  req_body request = Some body -> b_model body = Some key -> key <> EmptyString ->
  get_model key (mgr w) = Some a -> deref a (mgr w) = Some c ->
  mi_status (info c) = ready ->
  exists evs,
    trace (snd (completion_route endpoint what request backend w)) = trace w ++ evs
    /\ posts evs = [EvPost (mi_url (info c) ++ "/v1/" ++ endpoint)
                      (proxy_headers (req_headers request)) (b_text body) (b_stream body)].
Proof.
  intros Hbody Hkey Hne Hget Hc Hst.
  unfold completion_route. rewrite Hbody, Hkey.
  destruct key as [ | ch rest]; [ congruence | ].
  unfold try_except.
  rewrite (bind_ok _ _ w w (Some a)) by (unfold read; rewrite Hget; reflexivity).
  cbv beta iota.
  rewrite (bind_ok _ _ w w (info c)) by (unfold the_info; rewrite Hc; reflexivity).
  cbv beta. rewrite Hst. cbn [Status_eqb negb].
  destruct (proxy_request_trace request (mi_url (info c)) endpoint backend w)
    as [_ (evs & Ht & Hposts)].
  rewrite Hbody in Hposts.
  destruct (proxy_request request (mi_url (info c)) endpoint backend w) as [[resp | e] w1];
    cbn [snd] in *.
  - exists evs. split; [ exact Ht | exact Hposts ].
  - destruct e; cbv beta iota zeta delta [bind logger emit raise]; cbn [snd trace];
      rewrite Ht, <- ?app_assoc; eexists; (split; [ reflexivity | ]);
      rewrite ?posts_app, Hposts; reflexivity.
Qed.

(** C9. The headers handed to the backend, the inbound request carrying
    its header names in lower case as the server receives them. Each has the
    name [Content-Type] or [Authorization] and the value of the inbound
    header of that name; each of the two is there whenever the inbound
    request has it, once, with the value of the first inbound header of that
    name; no header of another name is handed on. A call that a completion
    route sends out carries exactly these headers, and for a ready record
    one such call is sent. *)
Theorem forwarded_headers_whitelisted (endpoint what : string) (request : Request)
    (backend : Backend) (w : World) :
  let hs := req_headers request in
  let out := proxy_headers hs in
  let w' := snd (completion_route endpoint what request backend w) in
  (forall name value, In (name, value) out ->
     (name = "Content-Type" /\ In ("content-type", value) hs
      /\ Dict.get "content-type" hs = Some value)
     \/ (name = "Authorization" /\ In ("authorization", value) hs
         /\ Dict.get "authorization" hs = Some value))
  /\ ((exists value, In ("content-type", value) hs) ->
      exists value, In ("Content-Type", value) out)
  /\ ((exists value, In ("authorization", value) hs) ->
      exists value, In ("Authorization", value) out)
  /\ Dict.get "Content-Type" out = Dict.get "content-type" hs
  /\ Dict.get "Authorization" out = Dict.get "authorization" hs
  /\ NoDup (Dict.keys out)
  /\ (exists sent,
        posts (trace w') = posts (trace w) ++ sent
        /\ forall url headers body stream,
             In (EvPost url headers body stream) sent -> headers = out)
  /\ (forall body key a c,
        req_body request = Some body -> b_model body = Some key -> key <> EmptyString ->
        get_model key (mgr w) = Some a -> deref a (mgr w) = Some c ->
        mi_status (info c) = ready ->
        exists evs,
          trace w' = trace w ++ evs
          /\ posts evs = [EvPost (mi_url (info c) ++ "/v1/" ++ endpoint) out
                            (b_text body) (b_stream body)]).
Proof.
  intros hs out w'.
  assert (Hout : out = match Dict.get "content-type" hs, Dict.get "authorization" hs with
                       | Some c, Some a => [("Content-Type", c); ("Authorization", a)]
                       | Some c, None => [("Content-Type", c)]
                       | None, Some a => [("Authorization", a)]
                       | None, None => []
                       end).
  { subst out. rewrite proxy_headers_cases. reflexivity. }
  split; [ | split; [ | split; [ | split; [ | split; [ | split; [ | split ] ] ] ] ] ].
  - intros name value. rewrite Hout.
    destruct (Dict.get "content-type" hs) as [c | ] eqn:Hc,
             (Dict.get "authorization" hs) as [a | ] eqn:Ha; simpl;
      intros H; repeat (destruct H as [H | H]; [ | ]); try contradiction;
      injection H as <- <-;
      [ left | right | left | right ]; (split; [ reflexivity | ]);
      (split; [ apply dict_get_in; assumption | reflexivity ]).
  - intros [value Hin]. destruct (dict_in_get_some _ _ _ Hin) as [v Hv].
    exists v. rewrite Hout, Hv. destruct (Dict.get "authorization" hs); now left.
  - intros [value Hin]. destruct (dict_in_get_some _ _ _ Hin) as [v Hv].
    exists v. rewrite Hout, Hv. destruct (Dict.get "content-type" hs); simpl; auto.
  - rewrite Hout.
    destruct (Dict.get "content-type" hs), (Dict.get "authorization" hs); reflexivity.
  - rewrite Hout.
    destruct (Dict.get "content-type" hs), (Dict.get "authorization" hs); reflexivity.
  - rewrite Hout.
    destruct (Dict.get "content-type" hs), (Dict.get "authorization" hs); simpl;
      repeat constructor; simpl; intuition discriminate.
  - destruct (completion_route_posts endpoint what request backend w)
      as [_ [Hsame | (body & key & a & c & _ & _ & _ & _ & _ & _ & Hp)]].
    + exists []. fold w' in Hsame. rewrite Hsame, app_nil_r. split; [ reflexivity | ].
      intros ? ? ? ? [].
    + eexists. fold w' in Hp. split; [ exact Hp | ].
      intros url headers b s [[= _ <- _ _] | []]. reflexivity.
  - intros body key a c Hbody Hkey Hne Hget Hc Hst.
    apply (completion_route_ready_posts endpoint what request body key backend w a c);
      assumption.
Qed.

(** ** Routing *)

(** C6. A completion route answers 400 when the request names no model or an
    empty one, 404 when the name resolves to no record and 503 when it
    resolves to a record that is not ready; in these three cases the world
    is untouched, so nothing was sent. A call leaves the server only when
    the name resolves to a ready record. *)
Theorem route_forwards_only_when_ready (endpoint what : string) (request : Request)
    (backend : Backend) (w : World) :
  let res := completion_route endpoint what request backend w in
  (forall body, req_body request = Some body ->
     b_model body = None \/ b_model body = Some EmptyString ->
     res = (Raise (HTTPException 400 "Model ID is required"), w))
  /\ (forall body key, req_body request = Some body ->
        b_model body = Some key -> key <> EmptyString ->
        get_model key (mgr w) = None ->
        res = (Raise (HTTPException 404 ("Model " ++ key ++ " not found")), w))
  /\ (forall body key a c, req_body request = Some body ->
        b_model body = Some key -> key <> EmptyString ->
        get_model key (mgr w) = Some a -> deref a (mgr w) = Some c ->
        mi_status (info c) <> ready ->
        res = (Raise (HTTPException 503
                        ("Model " ++ key ++ " is not ready (status: "
                         ++ status_str (mi_status (info c)) ++ ")")), w))
  /\ (posts (trace (snd res)) <> posts (trace w) ->
      exists body key a c,
        req_body request = Some body /\ b_model body = Some key
        /\ get_model key (mgr w) = Some a /\ deref a (mgr w) = Some c
        /\ mi_status (info c) = ready).
Proof.
  intros res. subst res. repeat split.
  - intros body Hbody [Hkey | Hkey]; unfold completion_route;
      rewrite Hbody, Hkey; reflexivity.
  - intros body key Hbody Hkey Hne Hget. unfold completion_route.
    rewrite Hbody, Hkey. destruct key as [ | ch key]; [ congruence | ].
    mrun. rewrite Hget. reflexivity.
  - intros body key a c Hbody Hkey Hne Hget Hc Hst. unfold completion_route.
    rewrite Hbody, Hkey. destruct key as [ | ch key]; [ congruence | ].
    mrun. rewrite Hget, Hc.
    destruct (mi_status (info c)); try congruence; reflexivity.
  - intros Hposts.
    destruct (completion_route_posts endpoint what request backend w)
      as [_ [Hsame | (body & key & a & c & Hbody & Hkey & _ & Hget & Hc & Hst & _)]].
    + contradiction.
    + exists body, key, a, c. repeat split; assumption.
Qed.

(** C6, as stated, fails: the empty key resolves to no record of the fresh
    registry, and the route answers 400, not 404. *)
Lemma route_empty_key_bad_request :
  get_model EmptyString (mgr ex_world) = None
  /\ chat_completions (ex_request EmptyString false) (Unreachable "refused") ex_world
     = (Raise (HTTPException 400 "Model ID is required"), ex_world)
  /\ completions (ex_request EmptyString false) (Unreachable "refused") ex_world
     = (Raise (HTTPException 400 "Model ID is required"), ex_world).
Proof.
  repeat split.
Qed.

(** ** Error mapping of the proxy *)

(** C5. A buffered request. A backend status outside 2xx comes back with the
    same status: with the parsed value as body when the content type is
    exactly [application/json] and the body parses, and with the text of the
    body wrapped in an [error] object when the content type is anything
    else. A connection that fails or is reset gives 503, any other failure
    500, each with an [error] object. *)
Theorem buffered_proxy_error_mapping (request : Request) (body : Body)
    (url endpoint : string) (backend : Backend) (w : World) :
  req_body request = Some body -> b_stream body = false ->
  let res := fst (proxy_request request url endpoint backend w) in
  (forall r, backend = Responds r -> is_success (r_status r) = false ->
     (is_json_type (r_content_type r) = true -> r_json_ok r = true ->
        res = Ok (JSONResponse (r_status r) (JsonOf (r_text r))))
     /\ (is_json_type (r_content_type r) = false ->
           res = Ok (JSONResponse (r_status r) (ErrorObj (r_text r)))))
  /\ (forall msg, backend = Unreachable msg \/ (exists r n, backend = ResetAfter r n msg) ->
        res = Ok (JSONResponse 503 (ErrorObj ("Model server unavailable: " ++ msg))))
  /\ (forall msg, backend = Fails msg ->
        res = Ok (JSONResponse 500 (ErrorObj ("Internal server error: " ++ msg)))).
Proof.
  intros Hbody Hstream res. subst res.
  unfold proxy_request. rewrite Hbody, Hstream.
  unfold proxy_standard_request. mrun.
  split; [ | split ].
  - intros r -> Hs. rewrite Hs. split.
    + intros -> ->. reflexivity.
    + intros ->. reflexivity.
  - intros msg [-> | (r & n & ->)]; reflexivity.
  - intros msg ->. reflexivity.
Qed.

(** The case the mapping leaves out: a status outside 2xx whose content type
    is exactly [application/json] and whose body does not parse. The
    [e.response.json()] of the [except] clause raises inside the clause, no
    later clause of the same [try] sees it, the error leaves [proxy_request],
    and the completion route that called it answers 500, not the status of
    the backend. *)
Lemma proxy_unparsable_error_body (request : Request) (body : Body)
    (url endpoint what key : string) (r : BackendResponse) (a : nat) (c : Cell)
    (w : World) :
  req_body request = Some body -> b_stream body = false ->
  is_success (r_status r) = false ->
  is_json_type (r_content_type r) = true -> r_json_ok r = false ->
  fst (proxy_request request url endpoint (Responds r) w) = Raise JSONDecodeError
  /\ (b_model body = Some key -> key <> EmptyString ->
      get_model key (mgr w) = Some a -> deref a (mgr w) = Some c ->
      mi_status (info c) = ready ->
      exists detail,
        fst (completion_route endpoint what request (Responds r) w)
        = Raise (HTTPException 500 ("Internal server error: " ++ detail))).
Proof.
  intros Hbody Hstream Hs Hty Hjson. split.
  - unfold proxy_request. rewrite Hbody, Hstream.
    unfold proxy_standard_request. mrun. rewrite Hs, Hty, Hjson. reflexivity.
  - intros Hkey Hne Hget Hc Hst.
    unfold completion_route. rewrite Hbody, Hkey.
    destruct key as [ | ch rest]; [ congruence | ].
    unfold proxy_request. rewrite Hbody, Hstream. unfold proxy_standard_request.
    mrun. rewrite Hget, Hc, Hst. cbn [Status_eqb negb]. rewrite Hs, Hty, Hjson.
    eexists. reflexivity.
Qed.

(** C5, as stated, fails: the backend answers 500 with a JSON body and the
    content type [application/json; charset=utf-8]; the caller gets the
    status, but the body wrapped as a string in an [error] object. *)
Lemma proxy_wraps_backend_error_body :
  is_success (r_status ex_backend_error) = false
  /\ r_text ex_backend_error = "[507, 13]"
  /\ fst (chat_completions (ex_request "org/modelA" false) (Responds ex_backend_error)
            ex_ready_world)
     = Ok (JSONResponse 500 (ErrorObj "[507, 13]"))
  /\ fst (chat_completions (ex_request "org/modelA" false) (Responds ex_backend_error)
            ex_ready_world)
     <> Ok (JSONResponse 500 (JsonOf "[507, 13]")).
Proof.
  vm_compute. repeat split. discriminate.
Qed.

(** A streamed request is answered 200 before the backend is called: what
    the backend does then shows in the stream only, and the three [except]
    clauses of [proxy_request] never see it. *)
Lemma streamed_proxy_answers_200 (request : Request) (body : Body)
    (url endpoint : string) (backend : Backend) (w : World) :
  req_body request = Some body -> b_stream body = true ->
  fst (proxy_request request url endpoint backend w)
  = Ok (StreamingResponse 200 "text/event-stream" (stream_generator backend)).
Proof.
  intros Hbody Hstream. unfold proxy_request. rewrite Hbody, Hstream. reflexivity.
Qed.

Lemma streamed_proxy_unreachable_backend :
  fst (chat_completions (ex_request "org/modelA" true) (Unreachable "refused") ex_ready_world)
  = Ok (StreamingResponse 200 "text/event-stream"
          {| relayed := []; broken := Some (RequestError "refused") |}).
Proof.
  vm_compute. reflexivity.
Qed.

(** ** One step of a launch *)

Lemma list_update_twice {A} (l : list A) (n : nat) (f g : A -> A) :
  list_update (list_update l n g) n f = list_update l n (fun x => f (g x)).
Proof.
  revert n; induction l as [ | x l IH]; intros [ | n]; simpl; auto.
  rewrite IH. reflexivity.
Qed.

Lemma list_update_const {A} (l : list A) (n : nat) (f : A -> A) (x : A) :
  nth_error l n = Some x -> list_update l n f = list_update l n (fun _ => f x).
Proof.
  revert n; induction l as [ | y l IH]; intros [ | n]; simpl; try discriminate.
  - intros [= ->]. reflexivity.
  - intros H. rewrite (IH n H). reflexivity.
Qed.

Lemma list_update_same {A} (l : list A) (n : nat) (x : A) :
  nth_error l n = Some x -> list_update l n (fun _ => x) = l.
Proof.
  revert n; induction l as [ | y l IH]; intros [ | n]; simpl; try discriminate.
  - intros [= ->]. reflexivity.
  - intros H. rewrite (IH n H). reflexivity.
Qed.

Lemma update_cell_twice (a : nat) (f g : Cell -> Cell) (m : ModelManager) :
  update_cell a f (update_cell a g m) = update_cell a (fun c => f (g c)) m.
Proof. unfold update_cell; simpl. rewrite list_update_twice. reflexivity. Qed.

Lemma update_cell_const (a : nat) (f : Cell -> Cell) (m : ModelManager) (c : Cell) :
  deref a m = Some c -> update_cell a f m = update_cell a (fun _ => f c) m.
Proof.
  intros H. unfold update_cell. rewrite (list_update_const _ _ f c H). reflexivity.
Qed.

Lemma update_cell_same (a : nat) (m : ModelManager) (c : Cell) :
  deref a m = Some c -> update_cell a (fun _ => c) m = m.
Proof.
  intros H. unfold update_cell. rewrite (list_update_same _ _ c H).
  destruct m; reflexivity.
Qed.

Lemma touch_touch (a : nat) (c1 c2 : Cell) (e1 e2 : list Event) (w : World) :
  touch a c2 e2 (touch a c1 e1 w) = touch a c2 (e1 ++ e2) w.
Proof.
  unfold touch; simpl. rewrite update_cell_twice, app_assoc. reflexivity.
Qed.

Lemma touch_same (a : nat) (c : Cell) (w : World) :
  deref a (mgr w) = Some c -> touch a c [] w = w.
Proof.
  intros H. unfold touch. rewrite (update_cell_same _ _ _ H), app_nil_r.
  destruct w; reflexivity.
Qed.

Lemma deref_touch (a : nat) (c c' : Cell) (evs : list Event) (w : World) :
  deref a (mgr w) = Some c -> deref a (mgr (touch a c' evs w)) = Some c'.
Proof. intros H. unfold touch; simpl. apply (deref_update_same a _ _ c H). Qed.

Lemma deref_touch_other (a b : nat) (c' : Cell) (evs : list Event) (w : World) :
  b <> a -> deref b (mgr (touch a c' evs w)) = deref b (mgr w).
Proof. intros H. unfold touch; simpl. apply deref_update_other, H. Qed.

Lemma emit_only (a : nat) (c : Cell) (evs : list Event) (w : World) :
  deref a (mgr w) = Some c ->
  {| mgr := mgr w; trace := trace w ++ evs |} = touch a c evs w.
Proof. intros H. unfold touch. rewrite (update_cell_same _ _ _ H). reflexivity. Qed.

Lemma modify_touch (a : nat) (c : Cell) (f : Cell -> Cell) (evs : list Event) (w : World) :
  deref a (mgr w) = Some c ->
  {| mgr := update_cell a f (mgr w); trace := trace w ++ evs |} = touch a (f c) evs w.
Proof. intros H. unfold touch. rewrite (update_cell_const _ _ _ _ H). reflexivity. Qed.

Lemma launch_prologue_run (a : nat) (args : LaunchArgs) (c : Cell) (w : World) :
  deref a (mgr w) = Some c ->
  exists evs,
    launch_prologue a args w
    = (Ok (deploy_cmd (infer_backend (mgr w)) (info c) args), touch a c evs w)
    /\ reserved evs = [] /\ probes evs = [].
Proof.
  intros Hc. unfold launch_prologue, bind, the_info, logger, emit, read, ret.
  rewrite Hc. simpl mgr. simpl trace. rewrite <- app_assoc.
  eexists. split; [ rewrite (emit_only a c _ w Hc); reflexivity | split; reflexivity ].
Qed.

Lemma popen_run (a : nat) (cmd : list string) (r : SpawnRes) (c : Cell) (w : World) :
  deref a (mgr w) = Some c ->
  popen a cmd r w =
    match r with
    | Spawned pid now =>
        (Ok tt, touch a (with_task (Polling 0) (with_process pid now c))
                  [EvSpawn cmd (mi_gpu_id (info c))] w)
    | SpawnError msg => (Raise (OSError msg), w)
    end.
Proof.
  intros Hc. unfold popen, bind, the_info. rewrite Hc.
  destruct r as [pid now | msg]; [ | reflexivity ].
  unfold emit, set_process, set_task, modify. simpl mgr. simpl trace.
  rewrite update_cell_twice. rewrite (modify_touch a c _ _ w Hc). reflexivity.
Qed.

Lemma launch_failed_run (a : nat) (e : Exn) (c : Cell) (w : World) :
  deref a (mgr w) = Some c ->
  launch_failed a e w
  = (Raise e, touch a (with_task Finished (with_status failed c))
                [EvLog ERROR ("Failed to start model server: " ++ exn_str e)] w).
Proof.
  intros Hc. unfold launch_failed, bind, logger, emit, set_status, set_task, modify, raise.
  simpl mgr. simpl trace.
  rewrite update_cell_twice. rewrite (modify_touch a c _ _ w Hc). reflexivity.
Qed.

Lemma launch_timeout_run (a : nat) (c : Cell) (w : World) :
  deref a (mgr w) = Some c ->
  launch_timeout a w
  = (Ok tt, touch a (with_task Finished (with_status starting c))
              [EvLog WARNING ("Model server for " ++ mi_name (info c)
                              ++ " is taking longer than expected to start")] w).
Proof.
  intros Hc. unfold launch_timeout, bind, the_info, logger, emit, set_status, set_task, modify.
  rewrite Hc. simpl mgr. simpl trace.
  rewrite update_cell_twice. rewrite (modify_touch a c _ _ w Hc). reflexivity.
Qed.

Lemma set_task_run (a : nat) (t : Launch) (c : Cell) (w : World) :
  deref a (mgr w) = Some c ->
  set_task a t w = (Ok tt, touch a (with_task t c) [] w).
Proof.
  intros Hc. unfold set_task, modify.
  rewrite <- (modify_touch a c _ _ w Hc), app_nil_r. reflexivity.
Qed.

(** One cycle, in full. *)
Lemma poll_cycle_run (a : nat) (o : PollObs) (c : Cell) (w : World) :
  deref a (mgr w) = Some c ->
  poll_cycle a o w =
    match exit_code o with
    | Some returncode =>
        (Raise (RuntimeError (exit_message returncode)),
         touch a (with_status failed c)
           [EvLog ERROR (exit_message returncode);
            EvLog ERROR ("Log: " ++ log_text o)] w)
    | None =>
        match probe o with
        | Some status_code =>
            if (status_code =? 200)%Z then
              (Ok true,
               touch a (with_status ready c)
                 [EvProbe (probe_url (info c));
                  EvLog INFO ("Model server for " ++ mi_name (info c)
                              ++ " started successfully")] w)
            else (Ok false, touch a c [EvProbe (probe_url (info c))] w)
        | None => (Ok false, touch a c [EvProbe (probe_url (info c))] w)
        end
    end.
Proof.
  intros Hc. unfold poll_cycle, bind, the_info. rewrite Hc.
  destruct (exit_code o) as [rc | ].
  - unfold logger, emit, set_status, modify, raise. simpl mgr. simpl trace.
    rewrite <- app_assoc. rewrite (modify_touch a c _ _ w Hc). reflexivity.
  - unfold emit at 1. simpl mgr. simpl trace.
    destruct (probe o) as [code | ].
    + destruct (code =? 200)%Z.
      * unfold logger, emit, set_status, modify, ret, bind. simpl mgr. simpl trace.
        rewrite <- app_assoc. rewrite (modify_touch a c _ _ w Hc). reflexivity.
      * unfold ret. rewrite (emit_only a c _ w Hc). reflexivity.
    + unfold ret. rewrite (emit_only a c _ w Hc). reflexivity.
Qed.

Lemma after_cycle_run (a k : nat) (resolved : bool) (c : Cell) (w : World) :
  deref a (mgr w) = Some c ->
  after_cycle a k resolved w =
    if resolved then (Ok tt, touch a (with_task Finished c) [] w)
    else if Nat.ltb (S k) POLL_CYCLES
         then (Ok tt, touch a (with_task (Polling (S k)) c) [] w)
         else (Ok tt, touch a (with_task Finished (with_status starting c))
                        [EvLog WARNING ("Model server for " ++ mi_name (info c)
                                        ++ " is taking longer than expected to start")] w).
Proof.
  intros Hc. unfold after_cycle.
  destruct resolved; [ apply set_task_run, Hc | ].
  rewrite (bind_ok _ _ _ _ _ (set_task_run a (Polling (S k)) c w Hc)).
  destruct (Nat.ltb (S k) POLL_CYCLES); [ reflexivity | ].
  rewrite (launch_timeout_run a _ _ (deref_touch a c _ [] w Hc)).
  rewrite touch_touch. reflexivity.
Qed.

Lemma try_ok {A} (c : M A) (h : Exn -> M A) (w w1 : World) (a : A) :
  c w = (Ok a, w1) -> try_except c h w = (Ok a, w1).
Proof. intros H. unfold try_except. rewrite H. reflexivity. Qed.

Lemma try_raise {A} (c : M A) (h : Exn -> M A) (w w1 : World) (e : Exn) :
  c w = (Raise e, w1) -> try_except c h w = h e w1.
Proof. intros H. unfold try_except. rewrite H. reflexivity. Qed.

Lemma cell_step_finish (c c' : Cell) :
  task c <> Finished -> same_record (info c) (info c') ->
  task c' = Finished -> mi_status (info c') <> loading ->
  cell_step c c'.
Proof.
  intros Ht Hr Ht' Hs. right.
  split; [ exact Ht | ]. split; [ exact Hr | ].
  split; [ intros _; exact Hs | intros H; contradiction ].
Qed.

Lemma cell_step_continue (c c' : Cell) :
  task c <> Finished -> same_record (info c) (info c') ->
  task c' <> Finished -> mi_status (info c') = mi_status (info c) ->
  cell_step c c'.
Proof.
  intros Ht Hr Ht' Hs. right.
  split; [ exact Ht | ]. split; [ exact Hr | ].
  split; [ intros H; contradiction | intros _; exact Hs ].
Qed.

Ltac cell_step_tac Ht :=
  first
    [ apply cell_step_finish;
      [ rewrite Ht; discriminate | repeat split | reflexivity | discriminate ]
    | apply cell_step_continue;
      [ rewrite Ht; discriminate | repeat split | discriminate | reflexivity ] ].

(** One step of the launch of the object at [a] changes that object only,
    along [cell_step], and draws no port. *)
Lemma launch_step_run (a : nat) (i : LaunchInput) (w : World) (c : Cell) :
  deref a (mgr w) = Some c ->
  exists res c' evs,
    launch_step a i w = (res, touch a c' evs w)
    /\ cell_step c c' /\ reserved evs = [].
Proof.
  intros Hc. unfold launch_step. rewrite Hc.
  destruct (task c) as [args | k | ] eqn:Ht, i as [r | o];
    try (exists (Ok tt), c, []; rewrite (touch_same a c w Hc);
         repeat split; now left).
  - destruct (launch_prologue_run a args c w Hc) as (evs0 & Hp & Hr0 & _).
    rewrite (bind_ok _ _ _ _ _ Hp). cbv beta.
    pose proof (deref_touch a c c evs0 w Hc) as Hc1.
    destruct r as [pid now | msg].
    + rewrite (try_ok _ _ _ _ _ (popen_run a _ (Spawned pid now) c _ Hc1)).
      do 3 eexists. rewrite touch_touch.
      split; [ reflexivity | split ].
      * cell_step_tac Ht.
      * rewrite reserved_app, Hr0. reflexivity.
    + rewrite (try_raise _ _ _ _ _ (popen_run a _ (SpawnError msg) c _ Hc1)).
      do 3 eexists.
      rewrite (launch_failed_run a _ c _ Hc1), touch_touch.
      split; [ reflexivity | split ].
      * cell_step_tac Ht.
      * rewrite reserved_app, Hr0. reflexivity.
  - pose proof (poll_cycle_run a o c w Hc) as Hp.
    destruct (exit_code o) as [rc | ].
    + rewrite (try_raise _ _ _ _ _ (bind_raise _ _ _ _ _ Hp)).
      rewrite (launch_failed_run a _ _ _ (deref_touch a c _ _ w Hc)), touch_touch.
      do 3 eexists. split; [ reflexivity | split; [ | reflexivity ] ].
      cell_step_tac Ht.
    + assert (Hcont : forall evs,
                 reserved evs = [] ->
                 poll_cycle a o w = (Ok false, touch a c evs w) ->
                 exists res c' evs',
                   try_except (resolved <- poll_cycle a o ;; after_cycle a k resolved)
                     (launch_failed a) w = (res, touch a c' evs' w)
                   /\ cell_step c c' /\ reserved evs' = []).
      { intros evs Hevs Hp'.
        unfold try_except. rewrite (bind_ok _ _ _ _ _ Hp').
        rewrite (after_cycle_run a k false c _ (deref_touch a c c evs w Hc)).
        destruct (Nat.ltb (S k) POLL_CYCLES); rewrite touch_touch;
          do 3 eexists; (split; [ reflexivity | split ]);
          try (rewrite reserved_app, Hevs; reflexivity).
        - cell_step_tac Ht.
        - cell_step_tac Ht. }
      destruct (probe o) as [code | ]; [ destruct (code =? 200)%Z | ];
        try (eapply Hcont; [ | exact Hp ]; reflexivity).
      unfold try_except. rewrite (bind_ok _ _ _ _ _ Hp).
      rewrite (after_cycle_run a k true _ _ (deref_touch a c _ _ w Hc)), touch_touch.
      do 3 eexists. split; [ reflexivity | split; [ | reflexivity ] ].
      cell_step_tac Ht.
Qed.

(** ** What one operation does to the manager *)

Lemma bind_post {A B} (I Q : World -> Prop) (c : M A) (k : A -> M B) (w : World) :
  Preserved I c -> I w ->
  (forall a w1, I w1 -> Q (snd (k a w1))) ->
  (forall w1, I w1 -> Q w1) ->
  Q (snd (bind c k w)).
Proof.
  intros Hc Hw Hk Hr. unfold bind. specialize (Hc w Hw).
  destruct (c w) as [[a | e] w1]; simpl in *; auto.
Qed.

Lemma holds_mgr_emit (objs : list Cell) (ms : Dict.t nat) (e : Event) :
  Preserved (holds_mgr objs ms) (emit e).
Proof. intros w H. exact H. Qed.

Lemma holds_mgr_get_next_port (objs : list Cell) (ms : Dict.t nat) :
  Preserved (holds_mgr objs ms) _get_next_port.
Proof. intros w H. exact H. Qed.

#[export] Hint Resolve holds_mgr_emit holds_mgr_get_next_port : pres.
#[export] Hint Extern 1 (Preserved (holds_mgr _ _) (logger _ _)) =>
  apply holds_mgr_emit : pres.

Lemma holds_mgr_quantize (objs : list Cell) (ms : Dict.t nat)
    (model_id quant_method : string) (quant_bits gpu_id : Z) (q : QuantRes) :
  Preserved (holds_mgr objs ms) (_quantize_model model_id quant_method quant_bits gpu_id q).
Proof. unfold _quantize_model. pres. Qed.

Lemma holds_mgr_save_model_config (objs : list Cell) (ms : Dict.t nat) (a : nat) :
  Preserved (holds_mgr objs ms) (_save_model_config a).
Proof. unfold _save_model_config. pres. Qed.

Lemma holds_mgr_wait_exit (objs : list Cell) (ms : Dict.t nat) (n k : nat) (pid : Z)
    (alive : nat -> bool) :
  Preserved (holds_mgr objs ms) (wait_exit n k pid alive).
Proof. revert k; induction n as [ | n IH]; intros k; simpl; pres. Qed.

#[export] Hint Resolve holds_mgr_quantize holds_mgr_save_model_config
  holds_mgr_wait_exit : pres.

Lemma holds_mgr_stop_process (objs : list Cell) (ms : Dict.t nat) (mi : ModelInfo)
    (pid : Z) (env : KillEnv) :
  Preserved (holds_mgr objs ms) (stop_process mi pid env).
Proof. unfold stop_process, os_kill. pres. Qed.

#[export] Hint Resolve holds_mgr_stop_process : pres.

Lemma add_model_effect (G : Prop) (model_id : string) (port : option Z) (gpu_id : Z)
    (quantize : bool) (quant_method : string) (quant_bits max_len : Z) (mem_util : string)
    (q : QuantRes) (env : LaunchEnv) (w : World) :
  Effect G (mgr w)
    (mgr (snd (add_model model_id port gpu_id quantize quant_method quant_bits max_len
                 mem_util true q env w))).
Proof.
  unfold add_model.
  erewrite snd_bind_ok by reflexivity.
  destruct (Dict.mem model_id (models (mgr w))) eqn:Hmem;
    [ apply E_none; reflexivity | ].
  assert (Hnone : Dict.get model_id (models (mgr w)) = None).
  { unfold Dict.mem in Hmem. destruct (Dict.get model_id (models (mgr w))); congruence. }
  assert (Hgo : forall port w1, holds_mgr (objects (mgr w)) (models (mgr w)) w1 ->
            Effect G (mgr w)
              (mgr (snd ((deployed <- (if quantize
                                       then _quantize_model model_id quant_method quant_bits
                                              gpu_id q
                                       else ret model_id) ;;
                          a <- alloc {| info :=
                                          {| mi_id := model_id;
                                             mi_name := basename model_id;
                                             mi_port := port;
                                             mi_url := localhost port;
                                             mi_gpu_id := gpu_id;
                                             mi_status := loading;
                                             mi_quantization :=
                                               {| q_enabled := quantize;
                                                  q_method := if quantize then quant_method
                                                              else "none";
                                                  q_bits := if quantize then quant_bits
                                                            else 0%Z |};
                                             mi_pid := None;
                                             mi_start_time := None |};
                                        task := Pending {| deployed_model_id := deployed;
                                                           max_model_len := max_len;
                                                           memory_util := mem_util |} |} ;;
                          ms <- read models ;;
                          modify (set_models (Dict.set model_id a ms)) ;;
                          (if true then ret tt
                           else _start_model_server a
                                  {| deployed_model_id := deployed;
                                     max_model_len := max_len;
                                     memory_util := mem_util |} env) ;;
                          _save_model_config a ;;
                          ret a) w1)))).
  { intros p w1 Hw1.
    apply (bind_post (holds_mgr (objects (mgr w)) (models (mgr w)))
             (fun w' => Effect G (mgr w) (mgr w'))); try assumption.
    - destruct quantize; pres.
    - intros deployed w2 [Hobj Hms].
      do 3 (erewrite snd_bind_ok by reflexivity).
      match goal with |- Effect _ _ (mgr (snd (?c ?w3))) =>
        assert (Hfin : holds_mgr (objects (mgr w3)) (models (mgr w3)) (snd (c w3)))
          by (refine ((_ : Preserved _ c) w3 _); [ pres | split; reflexivity ])
      end.
      destruct Hfin as [Ho Hm].
      eapply E_register with (id := model_id).
      + rewrite Ho. simpl. rewrite Hobj. reflexivity.
      + reflexivity.
      + discriminate.
      + rewrite Hm. simpl. rewrite Hobj, Hms. reflexivity.
      + intros _. exact Hnone.
    - intros w2 [Hobj Hms]. apply E_none; assumption. }
  destruct port as [p | ].
  - erewrite snd_bind_ok by reflexivity. apply Hgo. split; reflexivity.
  - erewrite snd_bind_ok by reflexivity. apply Hgo. split; reflexivity.
Qed.

Lemma add_model_from_config_register_effect (cfg : ModelConfig) (w : World) :
  Effect (guarded (OpAddModelFromConfig cfg) w = true) (mgr w)
    (mgr (snd (add_model_from_config_register cfg w))).
Proof.
  destruct (c_model_id cfg) as [[ | ch rest] | ] eqn:Hid;
    try (unfold add_model_from_config_register; rewrite Hid; apply E_none; reflexivity).
  destruct (register_from_config_effect cfg (String ch rest) w Hid ltac:(discriminate))
    as (mi & args & w1 & Hreg & Hobjs & Hmodels & _ & _ & _ & _ & Hst & _).
  rewrite Hreg. simpl snd.
  eapply E_register with (id := String ch rest); try eassumption.
  - discriminate.
  - simpl. rewrite Hid. unfold Dict.mem.
    destruct (Dict.get (String ch rest) (models (mgr w))); [ discriminate | reflexivity ].
Qed.

Lemma remove_model_effect (G : Prop) (key : string) (env : KillEnv) (w : World) :
  Effect G (mgr w) (mgr (snd (remove_model key env w))).
Proof.
  unfold remove_model.
  erewrite snd_bind_ok by reflexivity.
  destruct (get_model key (mgr w)) as [a | ]; [ | apply E_none; reflexivity ].
  unfold bind at 1, the_info.
  destruct (deref a (mgr w)) as [c | ] eqn:Hc; [ | apply E_none; reflexivity ].
  apply (bind_post (holds_mgr (objects (mgr w)) (models (mgr w)))
           (fun w' => Effect G (mgr w) (mgr w')));
    [ destruct (mi_pid (info c)) as [pid | ]; [ destruct (pid =? 0)%Z | ]; pres
    | split; reflexivity | | intros w1 [Ho Hm]; apply E_none; assumption ].
  intros _ w1 Hw1.
  apply (bind_post (holds_mgr (objects (mgr w)) (models (mgr w)))
           (fun w' => Effect G (mgr w) (mgr w')));
    [ destruct (config_exists env); pres
    | exact Hw1 | | intros w2 [Ho Hm]; apply E_none; assumption ].
  intros _ w2 [Ho Hm].
  erewrite snd_bind_ok by reflexivity.
  destruct (Dict.get (mi_id (info c)) (models (mgr w2))).
  - apply E_remove with (id := mi_id (info c)); simpl; [ exact Ho | rewrite Hm; reflexivity ].
  - apply E_none; assumption.
Qed.

Lemma launch_step_effect (G : Prop) (a : nat) (i : LaunchInput) (w : World) :
  Effect G (mgr w) (mgr (snd (launch_step a i w))).
Proof.
  destruct (deref a (mgr w)) as [c | ] eqn:Hc.
  - destruct (launch_step_run a i w c Hc) as (res & c' & evs & Hrun & Hstep & _).
    rewrite Hrun. eapply E_launch; try eassumption; reflexivity.
  - unfold launch_step. rewrite Hc. apply E_none; reflexivity.
Qed.

Lemma exec_effect (op : Op) (w : World) :
  Effect (guarded op w = true) (mgr w) (mgr (exec op w)).
Proof.
  destruct op; simpl exec.
  - apply add_model_effect.
  - apply add_model_from_config_register_effect.
  - apply launch_step_effect.
  - apply remove_model_effect.
Qed.

(** ** Invariant of the launches *)

Lemma dict_get_pop_some {V} (k k0 : string) (d : Dict.t V) (v : V) :
  Dict.get k0 (Dict.pop k d) = Some v -> k0 <> k /\ Dict.get k0 d = Some v.
Proof.
  intros H. destruct (String.eqb_spec k0 k) as [-> | Hne].
  - rewrite dict_get_pop_same in H. discriminate.
  - rewrite dict_get_pop_other in H by assumption. split; assumption.
Qed.

Lemma launch_inv_init (backend : string) (base : Z) : launch_inv (init backend base).
Proof.
  split; simpl.
  - intros [ | a] c H; discriminate.
  - intros id a H; discriminate.
Qed.

Lemma effect_launch_inv (G : Prop) (w w' : World) :
  launch_inv w -> Effect G (mgr w) (mgr w') -> launch_inv w'.
Proof.
  intros [Hst Hreg] [Ho Hm | id c Ho Hl Ht Hm _ | id Ho Hm | a c c' Hc Ho Hm Hstep];
    unfold launch_inv, deref in *; rewrite Ho, Hm.
  - split; assumption.
  - split.
    + intros b c0 Hb.
      destruct (Nat.lt_ge_cases b (List.length (objects (mgr w)))) as [Hlt | Hge].
      * rewrite nth_error_app1 in Hb by assumption. apply Hst with b, Hb.
      * rewrite nth_error_app2 in Hb by assumption.
        destruct (b - List.length (objects (mgr w)))%nat as [ | [ | n]];
          simpl in Hb; try discriminate.
        injection Hb as <-. intros _. exact Hl.
    + intros id0 b Hb. rewrite length_app; simpl.
      destruct (String.eqb_spec id0 id) as [-> | Hne].
      * rewrite dict_get_set_same in Hb. injection Hb as <-. lia.
      * rewrite dict_get_set_other in Hb by assumption.
        specialize (Hreg id0 b Hb). lia.
  - split; [ assumption | ].
    intros id0 b Hb. apply dict_get_pop_some in Hb. apply Hreg with id0, Hb.
  - split.
    + intros b c0 Hb.
      destruct (Nat.eq_dec b a) as [-> | Hne].
      * rewrite nth_error_list_update_same in Hb. rewrite Hc in Hb.
        injection Hb as <-.
        destruct Hstep as [-> | (Hnf & _ & _ & Hkeep)]; [ apply Hst with a, Hc | ].
        intros Hnf'. rewrite (Hkeep Hnf'). apply Hst with a; assumption.
      * rewrite nth_error_list_update_other in Hb by assumption. apply Hst with b, Hb.
    + intros id0 b Hb. rewrite list_update_length. apply Hreg with id0, Hb.
Qed.

Lemma launch_inv_exec (op : Op) (w : World) : launch_inv w -> launch_inv (exec op w).
Proof. intros H. eapply effect_launch_inv; [ exact H | apply exec_effect ]. Qed.

Lemma launch_inv_run (ops : list Op) (w : World) : launch_inv w -> launch_inv (run ops w).
Proof.
  revert w; induction ops as [ | op ops IH]; intros w H; simpl; [ exact H | ].
  apply IH, launch_inv_exec, H.
Qed.

(** ** Status transitions *)

Lemma object_edge_refl (x : option Status) : object_edge x x = true.
Proof. destruct x as [[ | | | ] | ]; reflexivity. Qed.

Lemma registry_edge_refl (x : option Status) : registry_edge x x = true.
Proof. destruct x as [[ | | | ] | ]; reflexivity. Qed.

Lemma object_edge_registry_edge (x y : option Status) :
  object_edge x y = true -> registry_edge x y = true.
Proof. destruct y; simpl; auto. Qed.

Lemma effect_object_edge (G : Prop) (w w' : World) (a : nat) :
  launch_inv w -> Effect G (mgr w) (mgr w') ->
  object_edge (status_at a w) (status_at a w') = true.
Proof.
  intros [Hst Hreg] [Ho Hm | id c Ho Hl Ht Hm _ | id Ho Hm | b c c' Hc Ho Hm Hstep];
    unfold status_at, deref in *; rewrite Ho.
  - apply object_edge_refl.
  - destruct (Nat.lt_ge_cases a (List.length (objects (mgr w)))) as [Hlt | Hge].
    + rewrite nth_error_app1 by assumption. apply object_edge_refl.
    + rewrite nth_error_app2 by assumption.
      apply nth_error_None in Hge. rewrite Hge.
      destruct (a - List.length (objects (mgr w)))%nat as [ | [ | n]]; simpl;
        try reflexivity.
      rewrite Hl. reflexivity.
  - apply object_edge_refl.
  - destruct (Nat.eq_dec a b) as [-> | Hne].
    + rewrite nth_error_list_update_same, Hc. cbn [option_map].
      destruct Hstep as [-> | (Hnf & _ & _ & _)]; [ apply object_edge_refl | ].
      rewrite (Hst b c Hc Hnf). reflexivity.
    + rewrite nth_error_list_update_other by assumption. apply object_edge_refl.
Qed.

Lemma effect_registry_edge (G : Prop) (w w' : World) (id : string) :
  launch_inv w -> Effect G (mgr w) (mgr w') -> G ->
  registry_edge (view id w) (view id w') = true.
Proof.
  intros Hinv Heff HG.
  pose proof (fun a => effect_object_edge G w w' a Hinv Heff) as Hobj.
  destruct Hinv as [Hst Hreg].
  destruct Heff as [Ho Hm | id0 c Ho Hl Ht Hm Hfresh | id0 Ho Hm | b c c' Hc Ho Hm Hstep];
    unfold view; rewrite Hm.
  - destruct (Dict.get id (models (mgr w))) as [a | ];
      [ apply object_edge_registry_edge, Hobj | reflexivity ].
  - destruct (String.eqb_spec id id0) as [-> | Hne].
    + rewrite (Hfresh HG), dict_get_set_same.
      unfold status_at, deref. rewrite Ho, nth_error_app2, Nat.sub_diag by lia.
      simpl. rewrite Hl. reflexivity.
    + rewrite dict_get_set_other by assumption.
      destruct (Dict.get id (models (mgr w))) as [a | ];
        [ apply object_edge_registry_edge, Hobj | reflexivity ].
  - destruct (String.eqb_spec id id0) as [-> | Hne].
    + rewrite dict_get_pop_same. reflexivity.
    + rewrite dict_get_pop_other by assumption.
      destruct (Dict.get id (models (mgr w))) as [a | ];
        [ apply object_edge_registry_edge, Hobj | reflexivity ].
  - destruct (Dict.get id (models (mgr w))) as [a | ];
      [ apply object_edge_registry_edge, Hobj | reflexivity ].
Qed.

(** C1. Along any sequence of registrations, launch steps and removals: the
    status of a record object changes from [loading] to [ready], [starting]
    or [failed] and in no other way, and under an identity the registry
    shows the same changes, a record appearing as [loading], or the record
    going away, which [remove_model] does from any status. The registry part
    is about operations other than an [add_model_from_config] for an
    identity already held. In particular [ready] is never followed by
    [loading], nor [failed] by [ready]. *)
Theorem status_edges (backend : string) (base : Z) (ops : list Op) (op : Op)
    (id : string) (a : nat) :
  let w := run ops (init backend base) in
  let w' := exec op w in
  object_edge (status_at a w) (status_at a w') = true
  /\ (guarded op w = true ->
      registry_edge (view id w) (view id w') = true
      /\ ~ (view id w = Some ready /\ view id w' = Some loading)
      /\ ~ (view id w = Some failed /\ view id w' = Some ready)).
Proof.
  intros w w'.
  assert (Hinv : launch_inv w) by apply launch_inv_run, launch_inv_init.
  pose proof (exec_effect op w) as Heff. fold w' in Heff.
  split; [ eapply effect_object_edge; eassumption | ].
  intros HG.
  pose proof (effect_registry_edge _ w w' id Hinv Heff HG) as Hedge.
  split; [ exact Hedge | ].
  split; intros [H1 H2]; rewrite H1, H2 in Hedge; discriminate.
Qed.

(** C1, as stated, fails: a record whose launch ran out of cycles is
    [starting]; [remove_model] deletes it, and the specification has no edge
    from [starting] to [stopped]. *)
Lemma starting_record_removed :
  view "org/modelA" (run ex_timeout_ops ex_world) = Some starting
  /\ view "org/modelA"
       (exec (OpRemoveModel "org/modelA" ex_kill) (run ex_timeout_ops ex_world)) = None
  /\ signals (trace (exec (OpRemoveModel "org/modelA" ex_kill)
                       (run ex_timeout_ops ex_world))) = [(4343, 15); (4343, 0)]%Z
  /\ spec_edge
       (observed (view "org/modelA" (run ex_timeout_ops ex_world)))
       (observed (view "org/modelA"
                    (exec (OpRemoveModel "org/modelA" ex_kill)
                       (run ex_timeout_ops ex_world)))) = false.
Proof.
  vm_compute. repeat split.
Qed.

(** What [status_edges] leaves out: a second descriptor with the identity of
    a ready record. The operation is not guarded; the object that was ready
    stays ready, but the registry now holds a new, [loading] object under
    the identity. *)
Lemma ready_record_replaced_by_loading :
  view "org/modelA" (run ex_config_ready_ops ex_world) = Some ready
  /\ guarded (OpAddModelFromConfig ex_cfg) (run ex_config_ready_ops ex_world) = false
  /\ view "org/modelA"
       (exec (OpAddModelFromConfig ex_cfg) (run ex_config_ready_ops ex_world))
     = Some loading
  /\ status_at 0 (exec (OpAddModelFromConfig ex_cfg) (run ex_config_ready_ops ex_world))
     = Some ready.
Proof.
  vm_compute. repeat split.
Qed.

(** ** The cycles of a launch *)

Lemma status_at_touch (a : nat) (c c' : Cell) (evs : list Event) (w : World) :
  deref a (mgr w) = Some c ->
  status_at a (touch a c' evs w) = Some (mi_status (info c')).
Proof. intros H. unfold status_at. rewrite (deref_touch a c c' evs w H). reflexivity. Qed.

Lemma task_at_touch (a : nat) (c c' : Cell) (evs : list Event) (w : World) :
  deref a (mgr w) = Some c ->
  task_at a (touch a c' evs w) = Some (task c').
Proof. intros H. unfold task_at. rewrite (deref_touch a c c' evs w H). reflexivity. Qed.

(** C4. One cycle of the loop, for a launch that is in its loop. If the
    process has exited, no probe is sent, the exit code and the whole log
    are written to the error log, the status becomes [failed], the launch
    ends and raises an error that carries the exit code. Otherwise a probe is
    sent; answered with status 200 it makes the status [ready] and ends the
    launch; answered otherwise, or not at all, it leaves the status as it is
    and, cycles remaining, the launch goes on to the next one. *)
Theorem poll_cycle_outcomes (a k : nat) (c : Cell) (o : PollObs) (w : World) :
  deref a (mgr w) = Some c -> task c = Polling k ->
  let res := launch_step a (InPoll o) w in
  match exit_code o with
  | Some returncode =>
      fst res = Raise (RuntimeError (exit_message returncode))
      /\ status_at a (snd res) = Some failed
      /\ task_at a (snd res) = Some Finished
      /\ trace (snd res)
         = trace w ++ [EvLog ERROR (exit_message returncode);
                       EvLog ERROR ("Log: " ++ log_text o);
                       EvLog ERROR ("Failed to start model server: "
                                    ++ exit_message returncode)]
  | None =>
      fst res = Ok tt
      /\ probes (trace (snd res)) = probes (trace w) ++ [probe_url (info c)]
      /\ if unresolved o
         then (S k < POLL_CYCLES)%nat ->
              status_at a (snd res) = Some (mi_status (info c))
              /\ task_at a (snd res) = Some (Polling (S k))
         else probe o = Some 200%Z
              /\ status_at a (snd res) = Some ready
              /\ task_at a (snd res) = Some Finished
  end.
Proof.
  intros Hc Ht res. subst res. unfold launch_step. rewrite Hc, Ht.
  pose proof (poll_cycle_run a o c w Hc) as Hp.
  unfold unresolved.
  destruct (exit_code o) as [rc | ].
  - rewrite (try_raise _ _ _ _ _ (bind_raise _ _ _ _ _ Hp)).
    rewrite (launch_failed_run a _ _ _ (deref_touch a c _ _ w Hc)), touch_touch.
    cbn [fst snd].
    rewrite (status_at_touch a c _ _ w Hc), (task_at_touch a c _ _ w Hc).
    repeat split.
  - assert (Hcont : poll_cycle a o w = (Ok false, touch a c [EvProbe (probe_url (info c))] w) ->
              fst (try_except (resolved <- poll_cycle a o ;; after_cycle a k resolved)
                     (launch_failed a) w) = Ok tt
              /\ probes (trace (snd (try_except
                                       (resolved <- poll_cycle a o ;; after_cycle a k resolved)
                                       (launch_failed a) w)))
                 = probes (trace w) ++ [probe_url (info c)]
              /\ ((S k < POLL_CYCLES)%nat ->
                  status_at a (snd (try_except
                                      (resolved <- poll_cycle a o ;; after_cycle a k resolved)
                                      (launch_failed a) w))
                  = Some (mi_status (info c))
                  /\ task_at a (snd (try_except
                                       (resolved <- poll_cycle a o ;; after_cycle a k resolved)
                                       (launch_failed a) w))
                     = Some (Polling (S k)))).
    { intros Hp'. unfold try_except. rewrite (bind_ok _ _ _ _ _ Hp').
      rewrite (after_cycle_run a k false c _ (deref_touch a c c _ w Hc)).
      destruct (Nat.ltb_spec (S k) POLL_CYCLES) as [Hlt | Hge];
        rewrite touch_touch; cbn [fst snd];
        rewrite (status_at_touch a c _ _ w Hc), (task_at_touch a c _ _ w Hc);
        (split; [ reflexivity | split ]);
        try (unfold touch; cbn [trace]; rewrite probes_app; reflexivity).
      - intros _. split; reflexivity.
      - intros Hlt. lia. }
    destruct (probe o) as [code | ]; [ | apply Hcont, Hp ].
    destruct (code =? 200)%Z eqn:Hcode; cbn [negb]; [ | apply Hcont, Hp ].
    apply Z.eqb_eq in Hcode. subst code.
    unfold try_except. rewrite (bind_ok _ _ _ _ _ Hp).
    rewrite (after_cycle_run a k true _ _ (deref_touch a c _ _ w Hc)), touch_touch.
    cbn [fst snd].
    rewrite (status_at_touch a c _ _ w Hc), (task_at_touch a c _ _ w Hc).
    repeat split.
    unfold touch; cbn [trace]. rewrite probes_app. reflexivity.
Qed.

(** C4, as stated, fails: 204 is a success response, and a probe answered
    with it leaves the record [loading] and the launch in its loop. *)
Lemma probe_204_keeps_polling :
  is_success 204 = true
  /\ status_at 0 ex_polling_world = Some loading
  /\ task_at 0 ex_polling_world = Some (Polling 0)
  /\ status_at 0 (exec (OpLaunch 0 (InPoll (answers 204))) ex_polling_world) = Some loading
  /\ task_at 0 (exec (OpLaunch 0 (InPoll (answers 204))) ex_polling_world)
     = Some (Polling 1).
Proof.
  vm_compute. repeat split.
Qed.

(** ** A launch that runs out of cycles *)

Lemma unresolved_cycle (a : nat) (o : PollObs) (c : Cell) (w : World) :
  deref a (mgr w) = Some c -> unresolved o = true ->
  poll_cycle a o w = (Ok false, touch a c [EvProbe (probe_url (info c))] w).
Proof.
  intros Hc Hu. rewrite (poll_cycle_run a o c w Hc). unfold unresolved in Hu.
  destruct (exit_code o); [ discriminate | ].
  destruct (probe o) as [code | ]; [ | reflexivity ].
  destruct (code =? 200)%Z; [ discriminate | reflexivity ].
Qed.

Lemma poll_loop_unresolved (n k a : nat) (obs : nat -> PollObs) (c : Cell) (w : World) :
  deref a (mgr w) = Some c ->
  (forall j, (k <= j < k + n)%nat -> unresolved (obs j) = true) ->
  exists c' evs,
    poll_loop n k a obs w = (Ok false, touch a c' evs w)
    /\ info c' = info c
    /\ List.length (probes evs) = n
    /\ reserved evs = [].
Proof.
  revert k c w. induction n as [ | n IH]; intros k c w Hc Hobs.
  - exists c, []. simpl. unfold ret. rewrite (touch_same a c w Hc). repeat split.
  - simpl poll_loop.
    rewrite (bind_ok _ _ _ _ _ (unresolved_cycle a (obs k) c w Hc (Hobs k ltac:(lia)))).
    pose proof (deref_touch a c c [EvProbe (probe_url (info c))] w Hc) as Hc1.
    rewrite (bind_ok _ _ _ _ _ (set_task_run a (Polling (S k)) c _ Hc1)).
    rewrite touch_touch.
    pose proof (deref_touch a c (with_task (Polling (S k)) c)
                  ([EvProbe (probe_url (info c))] ++ []) w Hc) as Hc2.
    destruct (IH (S k) _ _ Hc2) as (c' & evs & Hrun & Hinfo & Hlen & Hres).
    { intros j Hj. apply Hobs. lia. }
    rewrite Hrun, touch_touch.
    exists c'. eexists. split; [ reflexivity | ].
    split; [ exact Hinfo | ].
    split.
    + rewrite probes_app. simpl. rewrite Hlen. reflexivity.
    + rewrite reserved_app. simpl. exact Hres.
Qed.

Lemma launch_inv_touch_finished (a : nat) (c c' : Cell) (evs : list Event) (w : World) :
  launch_inv w -> deref a (mgr w) = Some c -> task c' = Finished ->
  launch_inv (touch a c' evs w).
Proof.
  intros [Hst Hreg] Hc Ht. split.
  - intros b c0 Hb. destruct (Nat.eq_dec b a) as [-> | Hne].
    + rewrite (deref_touch a c c' evs w Hc) in Hb. injection Hb as <-.
      intros Hnf. contradiction.
    + rewrite deref_touch_other in Hb by assumption. apply Hst with b, Hb.
  - intros id b Hb. unfold touch in *; simpl in *.
    rewrite list_update_length. apply Hreg with id, Hb.
Qed.

Lemma starting_stays (ops : list Op) (w : World) (a : nat) :
  launch_inv w -> status_at a w = Some starting ->
  status_at a (run ops w) = Some starting.
Proof.
  revert w; induction ops as [ | op ops IH]; intros w Hinv Hst; simpl; [ exact Hst | ].
  apply IH; [ apply launch_inv_exec, Hinv | ].
  pose proof (effect_object_edge _ w (exec op w) a Hinv (exec_effect op w)) as He.
  rewrite Hst in He.
  destruct (status_at a (exec op w)) as [[ | | | ] | ]; try discriminate. reflexivity.
Qed.

Lemma finished_launch_step (a : nat) (i : LaunchInput) (w : World) :
  task_at a w = Some Finished -> launch_step a i w = (Ok tt, w).
Proof.
  unfold task_at, launch_step. intros H.
  destruct (deref a (mgr w)) as [c | ]; [ | reflexivity ].
  injection H as H. rewrite H. destruct i; reflexivity.
Qed.

Lemma not_loading_finished (a : nat) (w : World) (s : Status) :
  launch_inv w -> status_at a w = Some s -> s <> loading ->
  task_at a w = Some Finished.
Proof.
  unfold status_at, task_at. intros [Hst _] Hs Hne.
  destruct (deref a (mgr w)) as [c | ] eqn:Hc; [ | discriminate ].
  injection Hs as Hs. simpl. f_equal.
  destruct (task c) eqn:Ht; try reflexivity;
    exfalso; apply Hne; rewrite <- Hs; apply (Hst a c Hc); rewrite Ht; discriminate.
Qed.

Lemma start_model_server_timeout (a : nat) (c : Cell) (args : LaunchArgs) (env : LaunchEnv)
    (pid now : Z) (w : World) :
  deref a (mgr w) = Some c ->
  spawn_res env = Spawned pid now ->
  (forall k, (k < POLL_CYCLES)%nat -> unresolved (poll_obs env k) = true) ->
  exists c' evs,
    _start_model_server a args env w = (Ok tt, touch a c' evs w)
    /\ mi_status (info c') = starting /\ task c' = Finished
    /\ List.length (probes evs) = 30%nat.
Proof.
  intros Hc Hspawn Hobs. unfold _start_model_server. rewrite Hspawn.
  destruct (launch_prologue_run a args c w Hc) as (evs0 & Hp & _ & Hp0).
  rewrite (bind_ok _ _ _ _ _ Hp). cbv beta.
  pose proof (deref_touch a c c evs0 w Hc) as Hc1.
  set (cmd := deploy_cmd (infer_backend (mgr w)) (info c) args).
  pose proof (popen_run a cmd (Spawned pid now) c _ Hc1) as Hopen.
  cbv beta iota in Hopen. rewrite touch_touch in Hopen.
  set (c1 := with_task (Polling 0) (with_process pid now c)) in *.
  pose proof (deref_touch a c c1 (evs0 ++ [EvSpawn cmd (mi_gpu_id (info c))]) w Hc) as Hc2.
  destruct (poll_loop_unresolved POLL_CYCLES 0 a (poll_obs env) c1 _ Hc2)
    as (c2 & evs & Hloop & Hinfo & Hlen & _).
  { intros j Hj. apply Hobs. lia. }
  rewrite touch_touch in Hloop.
  pose proof (deref_touch a c c2 ((evs0 ++ [EvSpawn cmd (mi_gpu_id (info c))]) ++ evs) w Hc)
    as Hc3.
  pose proof (launch_timeout_run a c2 _ Hc3) as Hout. rewrite touch_touch in Hout.
  do 2 eexists. split.
  - apply try_ok.
    rewrite (bind_ok _ _ _ _ _ Hopen), (bind_ok _ _ _ _ _ Hloop). exact Hout.
  - split; [ reflexivity | ]. split; [ reflexivity | ].
    rewrite !probes_app, Hp0. simpl. rewrite !length_app, Hlen. reflexivity.
Qed.

(** C2. A launch whose process is spawned and whose thirty cycles all find
    the process alive and the probe unanswered, or answered with a status
    other than 200, returns to its caller without an error, thirty probes
    sent, the status [starting] and the coroutine over. Nothing polls
    afterwards: whatever operations follow, the status of the record stays
    [starting], and a launch step for it does nothing at all. *)
Theorem launch_timeout_is_final (backend : string) (base : Z) (ops more : list Op)
    (a : nat) (c : Cell) (args : LaunchArgs) (env : LaunchEnv) (pid now : Z)
    (i : LaunchInput) :
  let w := run ops (init backend base) in
  deref a (mgr w) = Some c ->
  spawn_res env = Spawned pid now ->
  (forall k, (k < POLL_CYCLES)%nat -> unresolved (poll_obs env k) = true) ->
  let res := _start_model_server a args env w in
  fst res = Ok tt
  /\ status_at a (snd res) = Some starting
  /\ task_at a (snd res) = Some Finished
  /\ List.length (probes (trace (snd res))) = (List.length (probes (trace w)) + 30)%nat
  /\ status_at a (run more (snd res)) = Some starting
  /\ exec (OpLaunch a i) (run more (snd res)) = run more (snd res).
Proof.
  intros w Hc Hspawn Hobs res.
  assert (Hinv : launch_inv w) by apply launch_inv_run, launch_inv_init.
  destruct (start_model_server_timeout a c args env pid now w Hc Hspawn Hobs)
    as (c' & evs & Hrun & Hst & Ht & Hlen).
  subst res. rewrite Hrun. cbn [fst snd].
  assert (Hinv' : launch_inv (touch a c' evs w))
    by (eapply launch_inv_touch_finished; eassumption).
  assert (Hst' : status_at a (touch a c' evs w) = Some starting)
    by (rewrite (status_at_touch a c c' evs w Hc), Hst; reflexivity).
  pose proof (starting_stays more _ a Hinv' Hst') as Hlater.
  split; [ reflexivity | ]. split; [ exact Hst' | ].
  split; [ rewrite (task_at_touch a c c' evs w Hc), Ht; reflexivity | ].
  split; [ unfold touch; cbn [trace]; rewrite probes_app, length_app, Hlen; reflexivity | ].
  split; [ exact Hlater | ].
  simpl exec. rewrite finished_launch_step; [ reflexivity | ].
  eapply not_loading_finished;
    [ apply launch_inv_run, Hinv' | exact Hlater | discriminate ].
Qed.

(** C2, as stated, fails: the backend of this launch would answer the
    thirty-first probe. The launch sends thirty, leaves the record
    [starting] and is over; handed the answer, it does nothing, and the
    record is still [starting]. *)
Lemma no_poll_after_timeout :
  view "org/modelA" ex_starting_world = Some starting
  /\ task_at 0 ex_starting_world = Some Finished
  /\ List.length (probes (trace ex_starting_world)) = 30%nat
  /\ unresolved (poll_obs ex_env_slow 30) = false
  /\ exec (OpLaunch 0 (InPoll (poll_obs ex_env_slow 30))) ex_starting_world
     = ex_starting_world
  /\ view "org/modelA"
       (exec (OpLaunch 0 (InPoll (poll_obs ex_env_slow 30))) ex_starting_world)
     = Some starting.
Proof.
  vm_compute. repeat split.
Qed.

(** ** The awaited launch is a schedule of launch steps *)

Lemma run_finished_polls (a : nat) (obs : nat -> PollObs) (l : list nat) (w : World) :
  task_at a w = Some Finished ->
  run (map (fun k => OpLaunch a (InPoll (obs k))) l) w = w.
Proof.
  intros H. induction l as [ | k l IH]; simpl; [ reflexivity | ].
  rewrite (finished_launch_step a _ w H). exact IH.
Qed.

Lemma poll_cycle_cases (a : nat) (o : PollObs) (c : Cell) (w : World) :
  deref a (mgr w) = Some c ->
  (exists e c1 evs, poll_cycle a o w = (Raise e, touch a c1 evs w))
  \/ (exists c1 evs, poll_cycle a o w = (Ok true, touch a c1 evs w))
  \/ poll_cycle a o w = (Ok false, touch a c [EvProbe (probe_url (info c))] w).
Proof.
  intros Hc. rewrite (poll_cycle_run a o c w Hc).
  destruct (exit_code o) as [rc | ]; [ left; eauto | right ].
  destruct (probe o) as [code | ]; [ | right; reflexivity ].
  destruct (code =? 200)%Z; [ left; eauto | right; reflexivity ].
Qed.

(** The loop of the awaited launch, one iteration unfolded. *)
Lemma awaited_loop_unfold (n k a : nat) (obs : nat -> PollObs) (w : World) :
  try_except
    (resolved <- poll_loop (S n) k a obs ;;
     if resolved then set_task a Finished else launch_timeout a)
    (launch_failed a) w
  = match poll_cycle a (obs k) w with
    | (Ok true, w1) => try_except (set_task a Finished) (launch_failed a) w1
    | (Ok false, w1) =>
        try_except
          (resolved <- poll_loop n (S k) a obs ;;
           if resolved then set_task a Finished else launch_timeout a)
          (launch_failed a) (snd (set_task a (Polling (S k)) w1))
    | (Raise e, w1) => launch_failed a e w1
    end.
Proof.
  cbn [poll_loop]. unfold try_except at 1, bind at 1 2.
  destruct (poll_cycle a (obs k) w) as [[[ | ] | e] w1]; reflexivity.
Qed.

(** One step of the interleaved launch, in the same form. *)
Lemma launch_step_unfold (a k : nat) (o : PollObs) (c : Cell) (w : World) :
  deref a (mgr w) = Some c -> task c = Polling k ->
  launch_step a (InPoll o) w
  = match poll_cycle a o w with
    | (Ok true, w1) => try_except (set_task a Finished) (launch_failed a) w1
    | (Ok false, w1) =>
        try_except (if Nat.ltb (S k) POLL_CYCLES then ret tt else launch_timeout a)
          (launch_failed a) (snd (set_task a (Polling (S k)) w1))
    | (Raise e, w1) => launch_failed a e w1
    end.
Proof.
  intros Hc Ht. unfold launch_step. rewrite Hc, Ht.
  unfold try_except at 1, bind at 1, after_cycle.
  destruct (poll_cycle a o w) as [[[ | ] | e] w1]; reflexivity.
Qed.

Lemma poll_loop_as_steps (n k a : nat) (obs : nat -> PollObs) (c : Cell) (w : World) :
  deref a (mgr w) = Some c -> task c = Polling k -> (k + S n = POLL_CYCLES)%nat ->
  snd (try_except
         (resolved <- poll_loop (S n) k a obs ;;
          if resolved then set_task a Finished else launch_timeout a)
         (launch_failed a) w)
  = run (map (fun j => OpLaunch a (InPoll (obs j))) (seq k (S n))) w.
Proof.
  revert k c w. induction n as [ | n IH]; intros k c w Hc Ht Hk;
    rewrite awaited_loop_unfold;
    change (seq k (S ?m)) with (k :: seq (S k) m);
    cbn [map run fold_left exec];
    change (fold_left (fun w op => exec op w) ?l ?w0) with (run l w0);
    rewrite (launch_step_unfold a k (obs k) c w Hc Ht);
    destruct (poll_cycle_cases a (obs k) c w Hc)
      as [(e & c1 & evs & Hp) | [(c1 & evs & Hp) | Hp]];
    rewrite Hp.
  1, 4: rewrite (launch_failed_run a e _ _ (deref_touch a c c1 evs w Hc)), touch_touch;
        cbn [snd]; symmetry; apply run_finished_polls;
        rewrite (task_at_touch a c _ _ w Hc); reflexivity.
  1, 3: rewrite (try_ok _ _ _ _ _
                   (set_task_run a Finished c1 _ (deref_touch a c c1 evs w Hc))),
          touch_touch;
        cbn [snd]; symmetry; apply run_finished_polls;
        rewrite (task_at_touch a c _ _ w Hc); reflexivity.
  - (* the last cycle goes by unanswered: both time out *)
    assert (Hlast : Nat.ltb (S k) POLL_CYCLES = false) by (apply Nat.ltb_ge; lia).
    rewrite Hlast. reflexivity.
  - assert (Hmore : Nat.ltb (S k) POLL_CYCLES = true) by (apply Nat.ltb_lt; lia).
    rewrite Hmore.
    rewrite (set_task_run a (Polling (S k)) c _
               (deref_touch a c c [EvProbe (probe_url (info c))] w Hc)), touch_touch.
    cbn [snd]. unfold try_except at 2, ret. cbn [snd].
    apply (IH (S k) (with_task (Polling (S k)) c)).
    + apply (deref_touch a c _ _ w Hc).
    + reflexivity.
    + lia.
Qed.

(** Awaiting [_start_model_server] for a record whose launch has not begun
    leaves the world that its schedule of steps leaves. *)
Lemma start_model_server_as_steps (a : nat) (c : Cell) (args : LaunchArgs)
    (env : LaunchEnv) (w : World) :
  deref a (mgr w) = Some c -> task c = Pending args ->
  snd (_start_model_server a args env w) = run (launch_schedule a env) w.
Proof.
  intros Hc Ht. unfold launch_schedule, _start_model_server.
  cbn [run fold_left exec].
  change (fold_left (fun w op => exec op w) ?l ?w0) with (run l w0).
  unfold launch_step at 1. rewrite Hc, Ht.
  destruct (launch_prologue_run a args c w Hc) as (evs0 & Hp & _ & _).
  rewrite !(bind_ok _ _ _ _ _ Hp). cbv beta.
  pose proof (deref_touch a c c evs0 w Hc) as Hc1.
  set (cmd := deploy_cmd (infer_backend (mgr w)) (info c) args).
  pose proof (popen_run a cmd (spawn_res env) c _ Hc1) as Hopen.
  destruct (spawn_res env) as [pid now | msg].
  - rewrite touch_touch in Hopen.
    rewrite (try_ok _ _ _ _ _ Hopen). cbn [snd].
    unfold try_except at 1, bind at 1. rewrite Hopen.
    apply (poll_loop_as_steps 29 0 a (poll_obs env)
             (with_task (Polling 0) (with_process pid now c))).
    + apply (deref_touch a c _ _ w Hc).
    + reflexivity.
    + reflexivity.
  - rewrite (try_raise _ _ _ _ _ Hopen).
    unfold try_except at 1, bind at 1. rewrite Hopen.
    rewrite (launch_failed_run a _ c _ Hc1), touch_touch. cbn [snd].
    symmetry. apply run_finished_polls.
    rewrite (task_at_touch a c _ _ w Hc). reflexivity.
Qed.

(** [add_model_from_config], awaited as the startup hook awaits it, is its
    registration followed by the schedule of the launch. *)
Lemma add_model_from_config_as_ops (cfg : ModelConfig) (model_id : string)
    (env : LaunchEnv) (w : World) :
  c_model_id cfg = Some model_id -> model_id <> EmptyString ->
  snd (add_model_from_config cfg env w)
  = run (OpAddModelFromConfig cfg
         :: launch_schedule (List.length (objects (mgr w))) env) w.
Proof.
  intros Hid Hne.
  destruct (register_from_config_effect cfg model_id w Hid Hne)
    as (mi & args & w1 & Hreg & Hobjs & _).
  change (run (?op :: ?l) w) with (run l (exec op w)).
  cbn [exec]. unfold add_model_from_config, bind at 1. rewrite Hreg. cbn [fst snd].
  rewrite <- (start_model_server_as_steps _ {| info := mi; task := Pending args |} args env w1).
  - unfold bind. destruct (_start_model_server _ args env w1) as [[[] | e] w2]; reflexivity.
  - apply deref_alloc_new, Hobjs.
  - reflexivity.
Qed.

(** ** The statements at sample inputs *)

(** The removal of a [starting] record is an operation [status_edges] covers. *)
Lemma status_edges_witness :
  guarded (OpRemoveModel "org/modelA" ex_kill) (run ex_timeout_ops (init "vllm" 8000)) = true
  /\ object_edge
       (status_at 0 (run ex_timeout_ops (init "vllm" 8000)))
       (status_at 0 (exec (OpRemoveModel "org/modelA" ex_kill)
                       (run ex_timeout_ops (init "vllm" 8000)))) = true
  /\ registry_edge
       (view "org/modelA" (run ex_timeout_ops (init "vllm" 8000)))
       (view "org/modelA" (exec (OpRemoveModel "org/modelA" ex_kill)
                             (run ex_timeout_ops (init "vllm" 8000)))) = true.
Proof.
  split; [ reflexivity | ].
  pose proof (status_edges "vllm" 8000 ex_timeout_ops (OpRemoveModel "org/modelA" ex_kill)
                "org/modelA" 0) as [Hobj Hreg].
  split; [ exact Hobj | exact (proj1 (Hreg eq_refl)) ].
Defined.

(** A launch whose backend answers too late, and the answer handed to it
    afterwards. *)
Lemma launch_timeout_is_final_witness :
  exists c,
    deref 0 (mgr ex_registered_world) = Some c
    /\ spawn_res ex_env_slow = Spawned 4343 2000
    /\ (forall k, (k < POLL_CYCLES)%nat -> unresolved (poll_obs ex_env_slow k) = true)
    /\ status_at 0
         (run [OpLaunch 0 (InPoll (answers 200))]
            (snd (_start_model_server 0 ex_args ex_env_slow
                    ex_registered_world)))
       = Some starting.
Proof.
  assert (Hobs : forall k, (k < POLL_CYCLES)%nat -> unresolved (poll_obs ex_env_slow k) = true).
  { intros k Hk. unfold ex_env_slow, poll_obs, POLL_CYCLES in *.
    destruct (Nat.ltb_spec k 30); [ reflexivity | lia ]. }
  eexists. split; [ reflexivity | ]. split; [ reflexivity | ]. split; [ exact Hobs | ].
  exact (proj1 (proj2 (proj2 (proj2 (proj2
           (launch_timeout_is_final "vllm" 8000
              [OpAddModel "org/modelA" None 0 false "awq" 4 8192 "0.9" QuantExists]
              [OpLaunch 0 (InPoll (answers 200))]
              0 _ ex_args ex_env_slow 4343 2000 (InPoll (answers 200))
              eq_refl eq_refl Hobs)))))).
Defined.

(** A cycle that finds the process gone with exit code 1. *)
Lemma poll_cycle_outcomes_witness :
  exists c,
    deref 0 (mgr ex_polling_world) = Some c
    /\ task c = Polling 0
    /\ fst (launch_step 0 (InPoll (exited 1 "CUDA out of memory")) ex_polling_world)
       = Raise (RuntimeError (exit_message 1))
    /\ status_at 0 (snd (launch_step 0 (InPoll (exited 1 "CUDA out of memory"))
                           ex_polling_world)) = Some failed.
Proof.
  eexists. split; [ reflexivity | ]. split; [ reflexivity | ].
  pose proof (poll_cycle_outcomes 0 0 _ (exited 1 "CUDA out of memory") ex_polling_world
                eq_refl eq_refl) as H.
  cbv beta iota zeta delta [exited exit_code] in H.
  destruct H as (H1 & H2 & _). split; [ exact H1 | exact H2 ].
Defined.

(** A backend error with a charset in its content type, and a backend that
    refuses the connection. *)
Lemma buffered_proxy_error_mapping_witness :
  req_body (ex_request "org/modelA" false)
    = Some {| b_model := Some "org/modelA"; b_stream := false; b_text := "{}" |}
  /\ b_stream {| b_model := Some "org/modelA"; b_stream := false; b_text := "{}" |} = false
  /\ fst (proxy_request (ex_request "org/modelA" false) "http://localhost:8000"
            "chat/completions" (Responds ex_backend_error) ex_ready_world)
     = Ok (JSONResponse 500 (ErrorObj (r_text ex_backend_error)))
  /\ fst (proxy_request (ex_request "org/modelA" false) "http://localhost:8000"
            "chat/completions" (Unreachable "refused") ex_ready_world)
     = Ok (JSONResponse 503 (ErrorObj "Model server unavailable: refused")).
Proof.
  split; [ reflexivity | ]. split; [ reflexivity | ].
  split.
  - exact (proj2
             (proj1 (buffered_proxy_error_mapping (ex_request "org/modelA" false) _
                       "http://localhost:8000" "chat/completions"
                       (Responds ex_backend_error) ex_ready_world eq_refl eq_refl)
                ex_backend_error eq_refl eq_refl) eq_refl).
  - exact (proj1 (proj2
             (buffered_proxy_error_mapping (ex_request "org/modelA" false) _
                "http://localhost:8000" "chat/completions"
                (Unreachable "refused") ex_ready_world eq_refl eq_refl))
             "refused" (or_introl eq_refl)).
Defined.

(** A key that names nothing in a registry of one record. *)
Lemma remove_unknown_key_not_found_witness :
  Dict.get "org/modelB" (models (mgr ex_ready_world)) = None
  /\ (forall a c, In a (Dict.values (models (mgr ex_ready_world))) ->
        deref a (mgr ex_ready_world) = Some c -> mi_name (info c) <> "org/modelB")
  /\ remove_model "org/modelB" ex_kill ex_ready_world
     = (Raise (KeyError "Model org/modelB not found"), ex_ready_world)
  /\ app_remove_model "org/modelB" ex_kill ex_ready_world
     = (Raise (HTTPException 404 "Model org/modelB not found"), ex_ready_world).
Proof.
  assert (Hname : forall a c, In a (Dict.values (models (mgr ex_ready_world))) ->
            deref a (mgr ex_ready_world) = Some c -> mi_name (info c) <> "org/modelB").
  { intros a c [<- | []] Hc. vm_compute in Hc. injection Hc as <-. discriminate. }
  split; [ reflexivity | ]. split; [ exact Hname | ].
  destruct (remove_unknown_key_not_found "org/modelB" ex_kill ex_ready_world eq_refl Hname)
    as (H1 & H2 & _).
  split; [ exact H1 | exact H2 ].
Defined.

(** A descriptor that has a model identity only. *)
Lemma config_without_port_url_mismatch_witness :
  c_model_id ex_cfg = Some "org/modelA"
  /\ "org/modelA" <> EmptyString
  /\ reserved (trace (snd (add_model_from_config ex_cfg ex_env_ready ex_world)))
     = [8000; 8001]%Z
  /\ exists a c,
       Dict.get "org/modelA"
         (models (mgr (snd (add_model_from_config ex_cfg ex_env_ready ex_world)))) = Some a
       /\ deref a (mgr (snd (add_model_from_config ex_cfg ex_env_ready ex_world))) = Some c
       /\ mi_port (info c) = 8000%Z
       /\ mi_url (info c) = localhost 8001.
Proof.
  assert (Hne : "org/modelA" <> EmptyString) by discriminate.
  split; [ reflexivity | ]. split; [ exact Hne | ].
  destruct (config_without_port_url_mismatch ex_cfg "org/modelA" ex_env_ready ex_world
              eq_refl Hne) as (Hres & a & c & Hget & Hc & Hport & _).
  split; [ exact Hres | ].
  exists a, c. split; [ exact Hget | ]. split; [ exact Hc | ].
  exact (Hport eq_refl).
Defined.

(** * Further properties of the code *)

(** ** [os.path.basename] *)

Lemma basename_no_slash (p : string) : has_slash (basename p) = false.
Proof.
  induction p as [ | c rest IH]; simpl; [ reflexivity | ].
  destruct (has_slash rest) eqn:Hs; [ exact IH | ].
  destruct (Ascii.eqb c "/") eqn:Hc; [ exact Hs | ].
  simpl. rewrite Hc, Hs. reflexivity.
Qed.

Lemma replace_slash_without (s : string) : has_slash s = false -> replace_slash s = s.
Proof.
  induction s as [ | c rest IH]; simpl; [ reflexivity | ].
  destruct (Ascii.eqb c "/"); simpl; [ discriminate | ].
  intros H. rewrite (IH H). reflexivity.
Qed.

(** [os.path.basename] splits a path after its last slash: the path is a
    directory part, empty or ending in a slash, followed by the base name,
    and the base name has no slash; a path without a slash is its own base
    name. *)
Lemma basename_splits_after_last_slash (p : string) :
  (exists dir,
     p = (dir ++ basename p)%string
     /\ (dir = EmptyString \/ exists d, dir = (d ++ "/")%string))
  /\ has_slash (basename p) = false
  /\ (has_slash p = false -> basename p = p)
  /\ replace_slash (basename p) = basename p.
Proof.
  split; [ | split; [ apply basename_no_slash | split ] ].
  - induction p as [ | c rest IH]; simpl.
    + exists EmptyString. split; [ reflexivity | now left ].
    + destruct (has_slash rest) eqn:Hs.
      * destruct IH as (dir & Heq & Hdir).
        exists (String c dir). split; [ simpl; rewrite <- Heq; reflexivity | right ].
        destruct Hdir as [-> | (d & ->)].
        -- exfalso. pose proof (basename_no_slash rest) as Hb.
           change (rest = basename rest) in Heq.
           rewrite <- Heq in Hb. rewrite Hb in Hs. discriminate.
        -- exists (String c d). reflexivity.
      * destruct (Ascii.eqb_spec c "/") as [-> | Hc].
        -- exists "/"%string. split; [ reflexivity | right; exists EmptyString; reflexivity ].
        -- exists EmptyString. split; [ reflexivity | now left ].
  - destruct p as [ | c rest]; simpl; [ reflexivity | ].
    destruct (Ascii.eqb c "/"); simpl; [ discriminate | ].
    intros ->. reflexivity.
  - apply replace_slash_without, basename_no_slash.
Qed.

(** ** [merge_configs] *)

Lemma merge_configs_cons (base rest : Dict.t Value) (key : string) (value : Value) :
  merge_configs base ((key, value) :: rest)
  = merge_configs (merge_key key value base) rest.
Proof. destruct value; reflexivity. Qed.

Lemma dict_get_none_keys {V} (k : string) (d : Dict.t V) :
  Dict.get k d = None <-> ~ In k (Dict.keys d).
Proof.
  induction d as [ | [k' v] d IH]; simpl.
  - split; [ intros _ [] | reflexivity ].
  - destruct (String.eqb_spec k' k) as [-> | Hne].
    + split; [ discriminate | intros H; exfalso; apply H; now left ].
    + rewrite IH. split; [ intros H [ E | I ]; [ congruence | auto ] | intros H I; apply H; now right ].
Qed.

Lemma dict_keys_set {V} (k : string) (v : V) (d : Dict.t V) :
  Dict.keys (Dict.set k v d)
  = if Dict.mem k d then Dict.keys d else Dict.keys d ++ [k].
Proof.
  unfold Dict.mem. induction d as [ | [k' v'] d IH]; simpl; [ reflexivity | ].
  destruct (String.eqb_spec k' k) as [-> | Hne]; simpl; [ reflexivity | ].
  rewrite IH. destruct (Dict.get k d); reflexivity.
Qed.

Lemma dict_mem_set_other {V} (k k0 : string) (v : V) (d : Dict.t V) :
  k0 <> k -> Dict.mem k0 (Dict.set k v d) = Dict.mem k0 d.
Proof. intros H. unfold Dict.mem. rewrite dict_get_set_other by assumption. reflexivity. Qed.

Lemma get_merge_key_same (k : string) (v : Value) (d : Dict.t Value) :
  Dict.get k (merge_key k v d) = Some (merged_value (Dict.get k d) v).
Proof.
  unfold merge_key, merged_value.
  destruct v as [t | items]; [ apply dict_get_set_same | ].
  destruct (Dict.get k d) as [ [t | sub] | ]; apply dict_get_set_same.
Qed.

Lemma get_merge_key_other (k k0 : string) (v : Value) (d : Dict.t Value) :
  k0 <> k -> Dict.get k0 (merge_key k v d) = Dict.get k0 d.
Proof.
  intros H. unfold merge_key.
  destruct v as [t | items]; [ now apply dict_get_set_other | ].
  destruct (Dict.get k d) as [ [t | sub] | ]; now apply dict_get_set_other.
Qed.

Lemma keys_merge_key (k : string) (v : Value) (d : Dict.t Value) :
  Dict.keys (merge_key k v d)
  = if Dict.mem k d then Dict.keys d else Dict.keys d ++ [k].
Proof.
  unfold merge_key.
  destruct v as [t | items]; [ apply dict_keys_set | ].
  destruct (Dict.get k d) as [ [t | sub] | ] eqn:E; apply dict_keys_set.
Qed.

Lemma get_merge_absent (override base : Dict.t Value) (k : string) :
  ~ In k (Dict.keys override) ->
  Dict.get k (merge_configs base override) = Dict.get k base.
Proof.
  revert base. induction override as [ | [k' v] rest IH]; intros base Hk; [ reflexivity | ].
  rewrite merge_configs_cons, IH by (intros I; apply Hk; now right).
  apply get_merge_key_other. intros ->. apply Hk. now left.
Qed.

(** X1. [merge_configs] key by key: a key the override does not have keeps
    the value of the base; a key it has takes the override's value, except
    that when both values are dictionaries the two are merged in turn (the
    base's sub-dictionary overridden by the override's). *)
Theorem merge_configs_lookup (base override : Dict.t Value) (k : string) :
  NoDup (Dict.keys override) ->
  Dict.get k (merge_configs base override)
  = match Dict.get k override with
    | None => Dict.get k base
    | Some v => Some (merged_value (Dict.get k base) v)
    end.
Proof.
  revert base. induction override as [ | [k' v] rest IH]; intros base Hnd; [ reflexivity | ].
  inversion Hnd as [ | ? ? Hnotin Hnd']; subst.
  rewrite merge_configs_cons. simpl Dict.get.
  destruct (String.eqb_spec k' k) as [-> | Hne].
  - rewrite get_merge_absent by exact Hnotin. apply get_merge_key_same.
  - rewrite IH by exact Hnd'.
    rewrite get_merge_key_other by congruence. reflexivity.
Qed.

(** X2. The keys of [merge_configs(base, override)] are the keys of the
    base, in their order, followed by the keys only the override has, in the
    override's order: no key of the base is dropped or moved. *)
Theorem merge_configs_keys (base override : Dict.t Value) :
  NoDup (Dict.keys override) ->
  Dict.keys (merge_configs base override)
  = Dict.keys base
    ++ filter (fun k => negb (Dict.mem k base)) (Dict.keys override).
Proof.
  revert base. induction override as [ | [k v] rest IH]; intros base Hnd.
  - simpl. rewrite app_nil_r. reflexivity.
  - inversion Hnd as [ | ? ? Hnotin Hnd']; subst.
    rewrite merge_configs_cons, IH by exact Hnd'.
    rewrite keys_merge_key. simpl filter.
    assert (Hf : filter (fun k0 => negb (Dict.mem k0 (merge_key k v base))) (Dict.keys rest)
                 = filter (fun k0 => negb (Dict.mem k0 base)) (Dict.keys rest)).
    { apply filter_ext_in. intros k0 Hin. unfold Dict.mem.
      rewrite get_merge_key_other; [ reflexivity | ].
      intros ->. exact (Hnotin Hin). }
    rewrite Hf. destruct (Dict.mem k base); simpl; [ reflexivity | ].
    rewrite <- app_assoc. reflexivity.
Qed.

(** ** Events *)

Lemma extend_nil (w : World) : extend [] w = w.
Proof. unfold extend. rewrite app_nil_r. destruct w; reflexivity. Qed.

Lemma extend_extend (e1 e2 : list Event) (w : World) :
  extend e2 (extend e1 w) = extend (e1 ++ e2) w.
Proof. unfold extend; simpl. rewrite app_assoc. reflexivity. Qed.

Lemma added_app (w w' : World) (evs : list Event) :
  trace w' = trace w ++ evs -> added w w' = evs.
Proof.
  intros H. unfold added. rewrite H.
  rewrite skipn_app, Nat.sub_diag, skipn_all. reflexivity.
Qed.

Lemma signals_app (a b : list Event) : signals (a ++ b) = signals a ++ signals b.
Proof.
  induction a as [ | e a IH]; simpl; [ reflexivity | ].
  destruct e; simpl; rewrite IH; reflexivity.
Qed.

Lemma signals_repeat (pid sig : Z) (n : nat) :
  signals (repeat (EvKill pid sig) n) = repeat (pid, sig) n.
Proof. induction n as [ | n IH]; simpl; [ | rewrite IH ]; reflexivity. Qed.

Lemma spawns_app (a b : list Event) : spawns (a ++ b) = spawns a ++ spawns b.
Proof.
  induction a as [ | e a IH]; simpl; [ reflexivity | ].
  destruct e; simpl; rewrite IH; reflexivity.
Qed.

Lemma saved_configs_app (a b : list Event) :
  saved_configs (a ++ b) = saved_configs a ++ saved_configs b.
Proof.
  induction a as [ | e a IH]; simpl; [ reflexivity | ].
  destruct e; simpl; rewrite IH; reflexivity.
Qed.

Lemma reserved_repeat_kill (pid sig : Z) (n : nat) :
  reserved (repeat (EvKill pid sig) n) = [].
Proof. induction n as [ | n IH]; simpl; [ | rewrite IH ]; reflexivity. Qed.

Lemma spawns_repeat_kill (pid sig : Z) (n : nat) :
  spawns (repeat (EvKill pid sig) n) = [].
Proof. induction n as [ | n IH]; simpl; [ | rewrite IH ]; reflexivity. Qed.

Lemma probes_repeat_kill (pid sig : Z) (n : nat) :
  probes (repeat (EvKill pid sig) n) = [].
Proof. induction n as [ | n IH]; simpl; [ | rewrite IH ]; reflexivity. Qed.

Lemma emit_run (e : Event) (w : World) : emit e w = (Ok tt, extend [e] w).
Proof. reflexivity. Qed.

(** ** Dictionaries *)

Lemma dict_in_keys {V} (k : string) (v : V) (d : Dict.t V) :
  In (k, v) d -> In k (Dict.keys d).
Proof. intros H. apply (in_map fst) in H. exact H. Qed.

Lemma dict_in_get {V} (k : string) (v : V) (d : Dict.t V) :
  NoDup (Dict.keys d) -> In (k, v) d -> Dict.get k d = Some v.
Proof.
  induction d as [ | [k' v'] d IH]; simpl; [ intros _ [] | ].
  intros Hnd Hin. inversion Hnd as [ | ? ? Hnotin Hnd']; subst.
  destruct Hin as [[= -> ->] | Hin].
  - rewrite String.eqb_refl. reflexivity.
  - destruct (String.eqb_spec k' k) as [-> | Hne].
    + exfalso. apply Hnotin. apply (dict_in_keys _ _ _ Hin).
    + apply IH; assumption.
Qed.

Lemma dict_in_set {V} (k k0 : string) (v v0 : V) (d : Dict.t V) :
  In (k0, v0) (Dict.set k v d) -> (k0 = k /\ v0 = v) \/ In (k0, v0) d.
Proof.
  induction d as [ | [k' v'] d IH]; simpl.
  - intros [[= <- <-] | []]. left. split; reflexivity.
  - destruct (String.eqb_spec k' k) as [-> | Hne]; simpl.
    + intros [[= <- <-] | H]; [ left; split; reflexivity | right; now right ].
    + intros [H | H]; [ right; now left | ].
      destruct (IH H) as [H' | H']; [ now left | right; now right ].
Qed.

Lemma dict_keys_pop {V} (k : string) (d : Dict.t V) :
  Dict.keys (Dict.pop k d) = filter (fun k0 => negb (String.eqb k0 k)) (Dict.keys d).
Proof.
  unfold Dict.pop, Dict.keys. induction d as [ | [k' v'] d IH]; simpl; [ reflexivity | ].
  destruct (String.eqb k' k); simpl; rewrite IH; reflexivity.
Qed.

Lemma dict_pop_head {V} (k : string) (v : V) (d : Dict.t V) :
  ~ In k (Dict.keys d) -> Dict.pop k ((k, v) :: d) = d.
Proof.
  intros H. unfold Dict.pop. simpl. rewrite String.eqb_refl. simpl.
  induction d as [ | [k' v'] d IH]; simpl; [ reflexivity | ].
  destruct (String.eqb_spec k' k) as [-> | Hne]; simpl.
  - exfalso. apply H. now left.
  - rewrite IH; [ reflexivity | ]. intros I. apply H. now right.
Qed.

Lemma dict_pop_set_fresh {V} (k : string) (v : V) (d : Dict.t V) :
  Dict.get k d = None -> Dict.pop k (Dict.set k v d) = d.
Proof.
  unfold Dict.pop. induction d as [ | [k' v'] d IH]; simpl.
  - intros _. rewrite String.eqb_refl. reflexivity.
  - destruct (String.eqb_spec k' k) as [-> | Hne]; [ discriminate | ].
    intros H. simpl. destruct (String.eqb_spec k' k); [ congruence | ].
    simpl. rewrite (IH H). reflexivity.
Qed.

(** ** The registry names objects by their identity *)

Lemma registry_wf_init (backend : string) (starting_port : Z) :
  registry_wf (mgr (init backend starting_port)).
Proof. split; [ constructor | intros id a [] ]. Qed.

Lemma registry_wf_register (m m' : ModelManager) (id : string) (c : Cell) :
  registry_wf m ->
  objects m' = objects m ++ [c] ->
  models m' = Dict.set id (List.length (objects m)) (models m) ->
  mi_id (info c) = id -> mi_name (info c) = basename id ->
  registry_wf m'.
Proof.
  intros [Hnd Hent] Hobj Hms Hid Hname. split.
  - rewrite Hms, dict_keys_set. destruct (Dict.mem id (models m)) eqn:Hmem; [ exact Hnd | ].
    apply NoDup_app; [ exact Hnd | repeat constructor; intros [] | ].
    intros k Hk [Hk' | []]. subst k. unfold Dict.mem in Hmem.
    destruct (Dict.get id (models m)) eqn:Hg; [ discriminate | ].
    apply dict_get_none_keys in Hg. contradiction.
  - intros id0 a0 Hin. rewrite Hms in Hin. unfold deref. rewrite Hobj.
    destruct (dict_in_set _ _ _ _ _ Hin) as [[-> ->] | Hold].
    + exists c. rewrite nth_error_app2, Nat.sub_diag by lia. repeat split; assumption.
    + destruct (Hent id0 a0 Hold) as (c0 & Hc0 & H1 & H2).
      exists c0. unfold deref in Hc0. rewrite nth_error_app1; [ repeat split; assumption | ].
      apply nth_error_Some. congruence.
Qed.

Lemma registry_wf_pop (m m' : ModelManager) (id : string) :
  registry_wf m ->
  objects m' = objects m ->
  models m' = Dict.pop id (models m) ->
  registry_wf m'.
Proof.
  intros [Hnd Hent] Hobj Hms. split.
  - rewrite Hms, dict_keys_pop. apply NoDup_filter, Hnd.
  - intros id0 a0 Hin. rewrite Hms in Hin. unfold Dict.pop in Hin.
    apply filter_In in Hin. destruct Hin as [Hin _].
    unfold deref. rewrite Hobj. apply Hent, Hin.
Qed.

Lemma registry_wf_same (m m' : ModelManager) :
  registry_wf m -> objects m' = objects m -> models m' = models m -> registry_wf m'.
Proof.
  intros [Hnd Hent] Hobj Hms. split; [ rewrite Hms; exact Hnd | ].
  intros id a Hin. rewrite Hms in Hin. unfold deref. rewrite Hobj. apply Hent, Hin.
Qed.

Lemma registry_wf_touch (a : nat) (c c' : Cell) (evs : list Event) (w : World) :
  registry_wf (mgr w) -> deref a (mgr w) = Some c -> cell_step c c' ->
  registry_wf (mgr (touch a c' evs w)).
Proof.
  intros [Hnd Hent] Hc Hstep. split; [ exact Hnd | ].
  intros id a0 Hin. change (models (mgr (touch a c' evs w))) with (models (mgr w)) in Hin.
  destruct (Hent id a0 Hin) as (c0 & Hc0 & H1 & H2).
  destruct (Nat.eq_dec a0 a) as [-> | Hne].
  - exists c'. rewrite (deref_touch a c c' evs w Hc).
    assert (c0 = c) by congruence. subst c0.
    destruct Hstep as [-> | (_ & (Hi & Hn & _) & _)]; [ repeat split; assumption | ].
    repeat split; congruence.
  - exists c0. rewrite (deref_touch_other a a0 c' evs w Hne). repeat split; assumption.
Qed.

(** ** Lookup *)

Lemma find_some_name (key : string) (m : ModelManager) (a : nat) :
  find (name_is key m) (Dict.values (models m)) = Some a ->
  exists id c, In (id, a) (models m) /\ deref a m = Some c /\ mi_name (info c) = key.
Proof.
  intros H. apply find_some in H. destruct H as [Hin Hname].
  unfold Dict.values in Hin. apply in_map_iff in Hin.
  destruct Hin as ([id a0] & Ha & Hin). simpl in Ha. subst a0.
  unfold name_is in Hname. destruct (deref a m) as [c | ]; [ | discriminate ].
  apply String.eqb_eq in Hname. exists id, c. repeat split; assumption.
Qed.

Lemma get_model_some_wf (key : string) (m : ModelManager) (a : nat) :
  registry_wf m -> get_model key m = Some a ->
  exists c, deref a m = Some c
            /\ Dict.get (mi_id (info c)) (models m) = Some a
            /\ (mi_id (info c) = key \/ mi_name (info c) = key).
Proof.
  intros [Hnd Hent] Hget. unfold get_model in Hget.
  destruct (Dict.get key (models m)) as [a0 | ] eqn:Hg.
  - injection Hget as ->. destruct (Hent key a (dict_get_in _ _ _ Hg)) as (c & Hc & Hcid & _).
    exists c. rewrite Hcid. repeat split; [ assumption | assumption | now left ].
  - destruct (find_some_name key m a Hget) as (id & c & Hin & Hc & Hname).
    destruct (Hent id a Hin) as (c0 & Hc0 & Hcid & _).
    assert (c0 = c) by congruence. subst c0.
    exists c. rewrite Hcid. repeat split; [ assumption | | now right ].
    apply dict_in_get; assumption.
Qed.

(** X3. [get_model] on a registry whose records sit under their own
    identity: a key resolves exactly when it is an identity of the registry
    or the base name of one, and the record it resolves to is registered
    under its own identity and has the key as identity or as display name. *)
Theorem get_model_resolves_id_or_name (key : string) (m : ModelManager) :
  registry_wf m ->
  (get_model key m = None
   <-> forall id, In id (Dict.keys (models m)) -> id <> key /\ basename id <> key)
  /\ forall a, get_model key m = Some a ->
       exists c, deref a m = Some c
                 /\ Dict.get (mi_id (info c)) (models m) = Some a
                 /\ (mi_id (info c) = key \/ mi_name (info c) = key).
Proof.
  intros [Hnd Hent]. split; [ split | ].
  - intros Hnone id Hin. unfold get_model in Hnone.
    destruct (Dict.get key (models m)) as [a | ] eqn:Hg; [ discriminate | ].
    split.
    + intros ->. apply dict_get_none_keys in Hg. contradiction.
    + intros Hb. unfold Dict.keys in Hin. apply in_map_iff in Hin.
      destruct Hin as ([id0 a] & Hid & Hin). simpl in Hid. subst id0.
      destruct (Hent id a Hin) as (c & Hc & Hcid & Hcname).
      pose proof (find_none _ _ Hnone a) as Hf.
      assert (Ha : In a (Dict.values (models m))).
      { unfold Dict.values. apply in_map_iff. exists (id, a). split; [ reflexivity | exact Hin ]. }
      specialize (Hf Ha). unfold name_is in Hf. rewrite Hc in Hf.
      apply String.eqb_neq in Hf. congruence.
  - intros Hall. apply get_model_none.
    + apply dict_get_none_keys. intros Hin. destruct (Hall key Hin) as [H _]. congruence.
    + intros a c Ha Hc Hname. unfold Dict.values in Ha. apply in_map_iff in Ha.
      destruct Ha as ([id a0] & Heq & Hin). simpl in Heq. subst a0.
      destruct (Hent id a Hin) as (c0 & Hc0 & Hcid & Hcname).
      assert (c0 = c) by congruence. subst c0.
      destruct (Hall id (dict_in_keys _ _ _ Hin)) as [_ Hb]. congruence.
  - intros a Hget. apply get_model_some_wf; [ split; assumption | exact Hget ].
Qed.

(** ** Removal *)

Lemma wait_exit_run (n k : nat) (pid : Z) (alive : nat -> bool) (w : World) :
  wait_exit n k pid alive w
  = (Ok (negb (forallb alive (seq k n))),
     extend (repeat (EvKill pid 0%Z) (checks n k alive)) w).
Proof.
  revert k w. induction n as [ | n IH]; intros k w; simpl.
  - unfold ret. rewrite extend_nil. reflexivity.
  - rewrite (bind_ok _ _ _ _ _ (emit_run _ w)).
    destruct (alive k); simpl.
    + rewrite IH, extend_extend. reflexivity.
    + reflexivity.
Qed.

Lemma stop_process_run (mi : ModelInfo) (pid : Z) (env : KillEnv) (w : World) :
  exists evs,
    stop_process mi pid env w = (Ok tt, extend evs w)
    /\ signals evs = stop_signals pid env
    /\ reserved evs = [] /\ spawns evs = [] /\ probes evs = [].
Proof.
  unfold stop_process, stop_signals.
  destruct (on_term env) eqn:Ht.
  - destruct (forallb (still_there env) (seq 0 10)) eqn:Hall.
    + destruct (on_kill env) eqn:Hk;
        cbv beta iota zeta delta [bind try_except os_kill emit logger ret raise];
        rewrite wait_exit_run, Hall; cbv beta iota zeta delta [negb];
        generalize (checks 10 0 (still_there env)); intros j;
        unfold extend; simpl mgr; simpl trace;
        rewrite <- !app_assoc;
        (eexists; split; [ reflexivity | ]);
        rewrite !signals_app, !reserved_app, !spawns_app, !probes_app, signals_repeat,
          reserved_repeat_kill, spawns_repeat_kill, probes_repeat_kill;
        repeat split; reflexivity.
    + cbv beta iota zeta delta [bind try_except os_kill emit logger ret raise];
        rewrite wait_exit_run, Hall; cbv beta iota zeta delta [negb];
        generalize (checks 10 0 (still_there env)); intros j;
        unfold extend; simpl mgr; simpl trace;
        rewrite <- !app_assoc;
        (eexists; split; [ reflexivity | ]);
        rewrite !signals_app, !reserved_app, !spawns_app, !probes_app, signals_repeat,
          reserved_repeat_kill, spawns_repeat_kill, probes_repeat_kill;
        repeat split; reflexivity.
  - cbv beta iota zeta delta [bind try_except os_kill emit logger ret raise].
    unfold extend; simpl mgr; simpl trace. rewrite <- !app_assoc.
    eexists. split; [ reflexivity | repeat split ].
  - cbv beta iota zeta delta [bind try_except os_kill emit logger ret raise].
    unfold extend; simpl mgr; simpl trace. rewrite <- !app_assoc.
    eexists. split; [ reflexivity | repeat split ].
Qed.

(** What follows the stopping of the process in [remove_model]. *)
Lemma remove_model_tail (mi : ModelInfo) (env : KillEnv) (result : RemoveResult)
    (evs1 : list Event) (w : World) :
  exists evs2,
    signals evs2 = [] /\ reserved evs2 = [] /\ spawns evs2 = [] /\ probes evs2 = []
    /\ ((if config_exists env then
           match on_remove env with
           | None => emit (EvRemoveConfig (config_file mi))
           | Some msg => raise (OSError msg)
           end
         else ret tt) ;;
        ms <- read models ;;
        match Dict.get (mi_id mi) ms with
        | None => raise (KeyError (mi_id mi))
        | Some _ => modify (set_models (Dict.pop (mi_id mi) ms))
        end ;;
        ret result) (extend evs1 w)
       = match remove_refused env with
         | Some msg => (Raise (OSError msg), extend (evs1 ++ evs2) w)
         | None =>
             match Dict.get (mi_id mi) (models (mgr w)) with
             | Some _ =>
                 (Ok result,
                  {| mgr := set_models (Dict.pop (mi_id mi) (models (mgr w))) (mgr w);
                     trace := trace w ++ evs1 ++ evs2 |})
             | None => (Raise (KeyError (mi_id mi)), extend (evs1 ++ evs2) w)
             end
         end.
Proof.
  exists (match remove_refused env with
          | Some _ => []
          | None => if config_exists env then [EvRemoveConfig (config_file mi)] else []
          end).
  unfold remove_refused.
  destruct (config_exists env); [ destruct (on_remove env) as [msg | ] | ];
    (repeat (split; [ reflexivity | ]));
    cbv beta iota zeta delta [bind emit ret read modify raise extend];
    cbn [mgr trace];
    try destruct (Dict.get (mi_id mi) (models (mgr w)));
    cbn [mgr trace]; rewrite <- ?app_assoc, ?app_nil_r; reflexivity.
Qed.

Lemma remove_model_run (key : string) (env : KillEnv) (w : World) (a : nat) (c : Cell) :
  get_model key (mgr w) = Some a -> deref a (mgr w) = Some c ->
  exists evs,
    signals evs = match mi_pid (info c) with
                  | Some pid => if (pid =? 0)%Z then [] else stop_signals pid env
                  | None => []
                  end
    /\ reserved evs = [] /\ spawns evs = [] /\ probes evs = []
    /\ remove_model key env w
       = match remove_refused env with
         | Some msg => (Raise (OSError msg), extend evs w)
         | None =>
             match Dict.get (mi_id (info c)) (models (mgr w)) with
             | Some _ =>
                 (Ok {| rr_id := mi_id (info c); rr_name := mi_name (info c);
                        rr_port := mi_port (info c) |},
                  {| mgr := set_models (Dict.pop (mi_id (info c)) (models (mgr w))) (mgr w);
                     trace := trace w ++ evs |})
             | None => (Raise (KeyError (mi_id (info c))), extend evs w)
             end
         end.
Proof.
  intros Hget Hc. unfold remove_model.
  rewrite (bind_ok _ _ w w (Some a)) by (unfold read; rewrite Hget; reflexivity).
  cbv beta iota.
  rewrite (bind_ok _ _ w w (info c)) by (unfold the_info; rewrite Hc; reflexivity).
  cbv beta zeta.
  assert (Hstop : exists evs1,
            (match mi_pid (info c) with
             | Some pid => if (pid =? 0)%Z then ret tt else stop_process (info c) pid env
             | None => ret tt
             end) w = (Ok tt, extend evs1 w)
            /\ signals evs1 = match mi_pid (info c) with
                              | Some pid => if (pid =? 0)%Z then [] else stop_signals pid env
                              | None => []
                              end
            /\ reserved evs1 = [] /\ spawns evs1 = [] /\ probes evs1 = []).
  { destruct (mi_pid (info c)) as [pid | ]; [ destruct (pid =? 0)%Z | ];
      try (exists []; rewrite extend_nil; repeat split; reflexivity).
    apply stop_process_run. }
  destruct Hstop as (evs1 & Hrun1 & Hs1 & Hr1 & Hsp1 & Hp1).
  rewrite (bind_ok _ _ _ _ _ Hrun1).
  destruct (remove_model_tail (info c) env
              {| rr_id := mi_id (info c); rr_name := mi_name (info c);
                 rr_port := mi_port (info c) |} evs1 w)
    as (evs2 & Hs2 & Hr2 & Hsp2 & Hp2 & Htail).
  exists (evs1 ++ evs2).
  rewrite signals_app, reserved_app, spawns_app, probes_app.
  rewrite Hs1, Hs2, Hr1, Hr2, Hsp1, Hsp2, Hp1, Hp2, app_nil_r.
  repeat (split; [ reflexivity | ]).
  exact Htail.
Qed.

Lemma stop_signals_head (pid : Z) (env : KillEnv) :
  hd_error (stop_signals pid env) = Some (pid, 15%Z).
Proof. reflexivity. Qed.

Lemma checks_le (n k : nat) (alive : nat -> bool) : (checks n k alive <= n)%nat.
Proof.
  revert k. induction n as [ | n IH]; intros k; simpl; [ lia | ].
  destruct (alive k); [ specialize (IH (S k)); lia | lia ].
Qed.

Lemma forallb_seq_true (f : nat -> bool) (k n : nat) :
  forallb f (seq k n) = true <-> forall i, (k <= i < k + n)%nat -> f i = true.
Proof.
  rewrite forallb_forall. split.
  - intros H i Hi. apply H, in_seq. exact Hi.
  - intros H i Hi. apply H, in_seq. exact Hi.
Qed.

(** X4. What [remove_model] sends to the process of the record a key
    resolves to. A record without a process (no pid, or pid 0) gets no
    signal. Otherwise SIGTERM goes first; every signal goes to that pid and is
    15, 0 or 9; there are at most twelve; SIGKILL is sent exactly when
    SIGTERM was delivered and all ten existence checks found the process
    alive; and when SIGTERM is not delivered nothing follows it. *)
Theorem remove_model_signal_escalation (key : string) (env : KillEnv) (w : World)
    (a : nat) (c : Cell) :
  get_model key (mgr w) = Some a -> deref a (mgr w) = Some c ->
  let sigs := signals (added w (snd (remove_model key env w))) in
  match mi_pid (info c) with
  | None => sigs = []
  | Some pid =>
      if (pid =? 0)%Z then sigs = []
      else
        hd_error sigs = Some (pid, 15%Z)
        /\ (forall s, In s sigs ->
              fst s = pid /\ (snd s = 15 \/ snd s = 0 \/ snd s = 9)%Z)
        /\ (List.length sigs <= 12)%nat
        /\ (In (pid, 9%Z) sigs
            <-> on_term env = Killed
                /\ forall k, (k < 10)%nat -> still_there env k = true)
        /\ (on_term env <> Killed -> sigs = [(pid, 15%Z)])
  end.
Proof.
  intros Hget Hc sigs.
  destruct (remove_model_run key env w a c Hget Hc) as (evs & Hs & _ & _ & _ & Hrun).
  assert (Hsigs : sigs = signals evs).
  { subst sigs. f_equal. apply added_app. rewrite Hrun.
    destruct (remove_refused env);
      [ | destruct (Dict.get (mi_id (info c)) (models (mgr w))) ]; reflexivity. }
  rewrite Hsigs, Hs. clear Hsigs sigs Hs Hrun.
  destruct (mi_pid (info c)) as [pid | ]; [ | reflexivity ].
  destruct (pid =? 0)%Z; [ reflexivity | ].
  unfold stop_signals.
  pose proof (checks_le 10 0 (still_there env)) as Hle.
  revert Hle. generalize (checks 10 0 (still_there env)). intros j Hle.
  split; [ reflexivity | ].
  destruct (on_term env) eqn:Ht.
  - destruct (forallb (still_there env) (seq 0 10)) eqn:Hall.
    + split; [ | split; [ | split; [ | congruence ] ] ].
      * intros s [<- | Hin]; [ simpl; auto | ].
        apply in_app_or in Hin. destruct Hin as [Hin | [<- | []]]; [ | simpl; auto ].
        apply repeat_spec in Hin. subst s. simpl; auto.
      * simpl. rewrite length_app, repeat_length. simpl. lia.
      * split.
        -- intros _. split; [ reflexivity | ].
           intros k Hk. apply (proj1 (forallb_seq_true _ 0 10) Hall). lia.
        -- intros _. right. apply in_or_app. right. now left.
    + split; [ | split; [ | split; [ | congruence ] ] ].
      * intros s [<- | Hin]; [ simpl; auto | ].
        rewrite app_nil_r in Hin. apply repeat_spec in Hin. subst s. simpl; auto.
      * simpl. rewrite app_nil_r, repeat_length. lia.
      * split.
        -- intros [H | Hin]; [ discriminate | ].
           rewrite app_nil_r in Hin. apply repeat_spec in Hin. discriminate.
        -- intros [_ Hk]. exfalso.
           assert (forallb (still_there env) (seq 0 10) = true)
             by (apply forallb_seq_true; intros i Hi; apply Hk; lia).
           congruence.
  - split; [ | split; [ simpl; lia | split; [ | reflexivity ] ] ].
    + intros s [<- | []]. simpl; auto.
    + split; [ intros [H | []]; discriminate | intros [H _]; discriminate ].
  - split; [ | split; [ simpl; lia | split; [ | reflexivity ] ] ].
    + intros s [<- | []]. simpl; auto.
    + split; [ intros [H | []]; discriminate | intros [H _]; discriminate ].
Qed.

(** X5. [remove_model] on a registry whose records sit under their own
    identity, for a key that resolves, no other request being served while
    the call waits for the process. If the descriptor file is not there, or
    is removed, the call returns the identity, name and port of the record
    whatever the operating system answers to the signals; the identity of the
    record (not the key) is gone from the registry and every other identity
    keeps its record. If [os.remove] refuses, the call raises that [OSError]
    and the record stays in the registry. Either way a record with a process
    has been sent SIGTERM, and neither the store of objects nor the port
    allocator changes. *)
Theorem remove_model_removes_resolved (key : string) (env : KillEnv) (w : World) (a : nat) :
  registry_wf (mgr w) -> get_model key (mgr w) = Some a ->
  exists c,
    deref a (mgr w) = Some c
    /\ let r := remove_model key env w in
       objects (mgr (snd r)) = objects (mgr w)
       /\ next_port (mgr (snd r)) = next_port (mgr w)
       /\ (forall pid, mi_pid (info c) = Some pid -> pid <> 0%Z ->
             In (pid, 15%Z) (signals (added w (snd r))))
       /\ match remove_refused env with
          | None =>
              fst r = Ok {| rr_id := mi_id (info c); rr_name := mi_name (info c);
                            rr_port := mi_port (info c) |}
              /\ lookup (mi_id (info c)) (snd r) = None
              /\ (forall id, id <> mi_id (info c) -> lookup id (snd r) = lookup id w)
              /\ Dict.keys (models (mgr (snd r)))
                 = filter (fun k => negb (String.eqb k (mi_id (info c))))
                     (Dict.keys (models (mgr w)))
          | Some msg =>
              fst r = Raise (OSError msg)
              /\ mgr (snd r) = mgr w
          end.
Proof.
  intros Hwf Hget.
  destruct (get_model_some_wf key (mgr w) a Hwf Hget) as (c & Hc & Hreg & _).
  exists c. split; [ exact Hc | ].
  destruct (remove_model_run key env w a c Hget Hc) as (evs & Hs & _ & _ & _ & Hrun).
  rewrite Hreg in Hrun. cbv zeta. rewrite Hrun.
  assert (Hsig : forall pid, mi_pid (info c) = Some pid -> pid <> 0%Z ->
            In (pid, 15%Z) (signals evs)).
  { intros pid Hpid Hne. rewrite Hs, Hpid.
    destruct (Z.eqb_spec pid 0); [ contradiction | ]. now left. }
  destruct (remove_refused env) as [msg | ]; cbn [fst snd].
  - split; [ reflexivity | ]. split; [ reflexivity | ].
    split; [ erewrite added_app by reflexivity; exact Hsig | ].
    split; reflexivity.
  - split; [ reflexivity | ]. split; [ reflexivity | ].
    split; [ erewrite added_app by reflexivity; exact Hsig | ].
    split; [ reflexivity | ].
    unfold lookup. simpl.
    split; [ rewrite dict_get_pop_same; reflexivity | ].
    split; [ intros id Hne; rewrite dict_get_pop_other by assumption; reflexivity | ].
    apply dict_keys_pop.
Qed.

(** ** Registration through [add_model] *)

Lemma set_next_port_same (w : World) :
  {| mgr := set_next_port (next_port (mgr w)) (mgr w); trace := trace w ++ [] |} = w.
Proof. destruct w as [[b o ms p] tr]. unfold set_next_port. simpl. rewrite app_nil_r. reflexivity. Qed.

Lemma port_step_run (port : option Z) (w : World) :
  (match port with None => _get_next_port | Some p => ret p end) w
  = (Ok (port_given port (mgr w)),
     {| mgr := set_next_port (port_after port (mgr w)) (mgr w);
        trace := trace w ++ match port with
                            | None => [EvReserve (next_port (mgr w))]
                            | Some _ => []
                            end |}).
Proof.
  destruct port as [p | ]; [ | reflexivity ].
  unfold ret, port_given, port_after. rewrite set_next_port_same. reflexivity.
Qed.

Lemma quantize_step_run (model_id quant_method : string) (quant_bits gpu_id : Z)
    (quantize : bool) (q : QuantRes) (w : World) :
  exists evs deployed,
    (if quantize then _quantize_model model_id quant_method quant_bits gpu_id q
     else ret model_id) w
    = (match quantize_error quantize q with
       | Some stderr => Raise (RuntimeError ("Failed to quantize model: " ++ stderr))
       | None => Ok deployed
       end, extend evs w)
    /\ reserved evs = [] /\ spawns evs = [] /\ probes evs = [] /\ signals evs = []
    /\ saved_configs evs = [].
Proof.
  destruct quantize.
  - unfold _quantize_model, quantize_error.
    destruct q as [ | rc stderr]; [ | destruct (rc =? 0)%Z ];
      cbv beta iota zeta delta [bind emit logger ret raise extend]; cbn [mgr trace];
      rewrite <- ?app_assoc.
    + eexists; eexists; (split; [ reflexivity | repeat split ]).
    + eexists; eexists; (split; [ reflexivity | repeat split ]).
    + eexists; exists model_id; (split; [ reflexivity | repeat split ]).
  - exists [], model_id. unfold ret. rewrite extend_nil. repeat split.
Qed.

(** [add_model] up to the point where the record is in the registry: the
    export has failed and nothing is stored, or the rest of the function runs
    in the world that has the new record. *)
Lemma add_model_prefix (model_id : string) (port : option Z) (gpu_id : Z)
    (quantize : bool) (quant_method : string) (quant_bits max_len : Z) (mem_util : string)
    (background_tasks : bool) (q : QuantRes) (env : LaunchEnv) (w : World) :
  Dict.mem model_id (models (mgr w)) = false ->
  exists evs deployed,
    let a := List.length (objects (mgr w)) in
    let args := {| deployed_model_id := deployed; max_model_len := max_len;
                   memory_util := mem_util |} in
    let c := {| info := new_record model_id (port_given port (mgr w)) gpu_id quantize
                          quant_method quant_bits;
                task := Pending args |} in
    add_model model_id port gpu_id quantize quant_method quant_bits max_len mem_util
      background_tasks q env w
    = match quantize_error quantize q with
      | Some stderr =>
          (Raise (RuntimeError ("Failed to quantize model: " ++ stderr)),
           {| mgr := set_next_port (port_after port (mgr w)) (mgr w);
              trace := trace w ++ evs |})
      | None =>
          ((if background_tasks then ret tt else _start_model_server a args env) ;;
           _save_model_config a ;;
           ret a) (store model_id c (port_after port (mgr w)) evs w)
      end
    /\ reserved evs = match port with None => [next_port (mgr w)] | Some _ => [] end
    /\ spawns evs = [] /\ probes evs = [] /\ signals evs = [] /\ saved_configs evs = [].
Proof.
  intros Hmem. unfold add_model.
  rewrite (bind_ok _ _ w w (models (mgr w))) by reflexivity.
  rewrite Hmem.
  rewrite (bind_ok _ _ _ _ _ (port_step_run port w)). cbv beta zeta.
  match goal with |- context [bind _ _ ?w1] => set (W1 := w1) end.
  destruct (quantize_step_run model_id quant_method quant_bits gpu_id quantize q W1)
    as (evsq & deployed & Hq & Hr & Hs & Hp & Hg & Hc).
  exists (match port with None => [EvReserve (next_port (mgr w))] | Some _ => [] end ++ evsq),
    deployed.
  cbv zeta.
  rewrite reserved_app, spawns_app, probes_app, signals_app, saved_configs_app.
  rewrite Hr, Hs, Hp, Hg, Hc.
  split; [ | destruct port; repeat split ].
  destruct (quantize_error quantize q) as [stderr | ].
  - rewrite (bind_raise _ _ _ _ _ Hq). subst W1. unfold extend. cbn [mgr trace].
    rewrite <- app_assoc. reflexivity.
  - rewrite (bind_ok _ _ _ _ _ Hq). subst W1.
    cbv beta iota zeta delta [bind alloc read modify]. cbn [mgr trace objects models extend].
    unfold store, extend, new_record, set_models, set_next_port.
    cbn [mgr trace objects models infer_backend next_port].
    rewrite <- app_assoc. reflexivity.
Qed.

Lemma deref_store (id : string) (c : Cell) (port : Z) (evs : list Event) (w : World) :
  deref (List.length (objects (mgr w))) (mgr (store id c port evs w)) = Some c.
Proof.
  unfold deref, store. cbn [mgr objects].
  rewrite nth_error_app2, Nat.sub_diag by lia. reflexivity.
Qed.

Lemma save_model_config_run (a : nat) (c : Cell) (w : World) :
  deref a (mgr w) = Some c ->
  _save_model_config a w
  = (Ok tt, extend [EvSaveConfig (config_file (info c));
                    EvLog INFO ("Saved model configuration to " ++ config_file (info c))] w).
Proof.
  intros Hc. unfold _save_model_config, bind, the_info. rewrite Hc.
  unfold logger, emit, extend. cbn [mgr trace]. rewrite <- app_assoc. reflexivity.
Qed.

(** [add_model] as the route calls it, when nothing stops it. *)
Lemma add_model_background_run (model_id : string) (port : option Z) (gpu_id : Z)
    (quantize : bool) (quant_method : string) (quant_bits max_len : Z) (mem_util : string)
    (q : QuantRes) (env : LaunchEnv) (w : World) :
  Dict.mem model_id (models (mgr w)) = false ->
  quantize_error quantize q = None ->
  exists evs args,
    let c := {| info := new_record model_id (port_given port (mgr w)) gpu_id quantize
                          quant_method quant_bits;
                task := Pending args |} in
    add_model model_id port gpu_id quantize quant_method quant_bits max_len mem_util
      true q env w
    = (Ok (List.length (objects (mgr w))),
       store model_id c (port_after port (mgr w)) evs w)
    /\ reserved evs = match port with None => [next_port (mgr w)] | Some _ => [] end
    /\ spawns evs = [] /\ probes evs = [] /\ signals evs = []
    /\ saved_configs evs = [config_file (info c)].
Proof.
  intros Hmem Hq.
  destruct (add_model_prefix model_id port gpu_id quantize quant_method quant_bits max_len
              mem_util true q env w Hmem)
    as (evs & deployed & Hrun & Hr & Hs & Hp & Hg & Hc).
  cbv zeta in Hrun. rewrite Hq in Hrun.
  eexists (evs ++ _), _. cbv zeta.
  split.
  - rewrite Hrun.
    rewrite (bind_ok _ _ _ _ tt eq_refl).
    rewrite (bind_ok _ _ _ _ _ (save_model_config_run _ _ _ (deref_store _ _ _ _ _))).
    unfold ret, extend, store. cbn [mgr trace]. rewrite <- app_assoc. reflexivity.
  - rewrite reserved_app, spawns_app, probes_app, signals_app, saved_configs_app.
    rewrite Hr, Hs, Hp, Hg, Hc. cbn [reserved spawns probes signals saved_configs app].
    rewrite app_nil_r. repeat split.
Qed.

Lemma register_from_config_record (cfg : ModelConfig) (model_id : string) (w : World) :
  c_model_id cfg = Some model_id -> model_id <> EmptyString ->
  exists mi args,
    add_model_from_config_register cfg w
    = (Ok (List.length (objects (mgr w)), args),
       store model_id {| info := mi; task := Pending args |} (next_port (mgr w) + 2)%Z
         [EvReserve (next_port (mgr w)); EvReserve (next_port (mgr w) + 1)%Z] w)
    /\ mi_id mi = model_id /\ mi_name mi = basename model_id
    /\ mi_status mi = loading /\ mi_pid mi = None /\ mi_start_time mi = None
    /\ mi_port mi = dict_get_default (c_port cfg) (next_port (mgr w))
    /\ mi_url mi = localhost (dict_get_default (c_port cfg) (next_port (mgr w) + 1)%Z).
Proof.
  intros Hid Hne.
  unfold add_model_from_config_register. rewrite Hid.
  destruct model_id as [ | ch rest]; [ congruence | ].
  cbv beta iota zeta delta [bind _get_next_port read modify emit ret alloc].
  cbn [mgr trace objects models next_port infer_backend set_next_port set_models].
  do 2 eexists. split.
  - unfold store. rewrite <- app_assoc.
    replace (next_port (mgr w) + 1 + 1)%Z with (next_port (mgr w) + 2)%Z by lia.
    reflexivity.
  - repeat split.
Qed.

(** ** The registry along a sequence of operations *)

Lemma registry_wf_exec (op : Op) (w : World) :
  registry_wf (mgr w) -> registry_wf (mgr (exec op w)).
Proof.
  intros Hwf. destruct op as [id port gpu qz qm qb ml mu q | cfg | a i | key env]; simpl exec.
  - destruct (Dict.mem id (models (mgr w))) eqn:Hmem.
    + rewrite add_model_rejects_duplicate by assumption. exact Hwf.
    + destruct (quantize_error qz q) as [stderr | ] eqn:Hq.
      * destruct (add_model_prefix id port gpu qz qm qb ml mu true q no_launch w Hmem)
          as (evs & deployed & Hrun & _).
        cbv zeta in Hrun. rewrite Hq in Hrun. rewrite Hrun.
        apply (registry_wf_same (mgr w)); [ exact Hwf | reflexivity | reflexivity ].
      * destruct (add_model_background_run id port gpu qz qm qb ml mu q no_launch w Hmem Hq)
          as (evs & args & Hrun & _).
        cbv zeta in Hrun. rewrite Hrun.
        eapply (registry_wf_register (mgr w)); [ exact Hwf | reflexivity.. ].
  - destruct (c_model_id cfg) as [[ | ch rest] | ] eqn:Hid;
      try (unfold add_model_from_config_register; rewrite Hid; exact Hwf).
    destruct (register_from_config_record cfg (String ch rest) w Hid ltac:(discriminate))
      as (mi & args & Hreg & Hmid & Hname & _).
    rewrite Hreg.
    eapply (registry_wf_register (mgr w));
      [ exact Hwf | reflexivity | reflexivity | exact Hmid | exact Hname ].
  - destruct (deref a (mgr w)) as [c | ] eqn:Hc.
    + destruct (launch_step_run a i w c Hc) as (res & c' & evs & Hrun & Hstep & _).
      rewrite Hrun. apply (registry_wf_touch a c c' evs w Hwf Hc Hstep).
    + unfold launch_step. rewrite Hc. exact Hwf.
  - destruct (get_model key (mgr w)) as [a | ] eqn:Hget.
    + destruct (get_model_some_wf key (mgr w) a Hwf Hget) as (c & Hc & Hreg & _).
      destruct (remove_model_run key env w a c Hget Hc) as (evs & _ & _ & _ & _ & Hrun).
      rewrite Hreg in Hrun. rewrite Hrun.
      destruct (remove_refused env); [ exact Hwf | ].
      apply (registry_wf_pop (mgr w) _ (mi_id (info c))); [ exact Hwf | reflexivity.. ].
    + unfold remove_model. rewrite (bind_ok _ _ w w None) by (unfold read; rewrite Hget; reflexivity).
      exact Hwf.
Qed.

Lemma registry_wf_run (ops : list Op) (w : World) :
  registry_wf (mgr w) -> registry_wf (mgr (run ops w)).
Proof.
  revert w. induction ops as [ | op ops IH]; intros w Hwf; [ exact Hwf | ].
  simpl. apply IH, registry_wf_exec, Hwf.
Qed.

(** ** The port allocator *)

Lemma get_next_port_run (w : World) :
  _get_next_port w
  = (Ok (next_port (mgr w)),
     {| mgr := set_next_port (next_port (mgr w) + 1) (mgr w);
        trace := trace w ++ [EvReserve (next_port (mgr w))] |}).
Proof. reflexivity. Qed.

Lemma ports_from_below (base : Z) (n : nat) (q : Z) :
  In q (ports_from base n) -> (base <= q < base + Z.of_nat n)%Z.
Proof.
  unfold ports_from. intros H. apply in_map_iff in H. destruct H as (i & <- & Hi).
  apply in_seq in Hi. lia.
Qed.

(** The allocator never goes back. *)

Lemma port_floor_emit (n : Z) (e : Event) : Preserved (port_floor n) (emit e).
Proof. intros w H. exact H. Qed.

Lemma port_floor_modify (n : Z) (f : ModelManager -> ModelManager) :
  (forall m, next_port (f m) = next_port m) -> Preserved (port_floor n) (modify f).
Proof. intros Hf w H. unfold port_floor, modify; simpl. rewrite Hf. exact H. Qed.

Lemma port_floor_alloc (n : Z) (c : Cell) : Preserved (port_floor n) (alloc c).
Proof. intros w H. exact H. Qed.

Lemma port_floor_get_next_port (n : Z) : Preserved (port_floor n) _get_next_port.
Proof. intros w H. rewrite get_next_port_run. unfold port_floor in *. simpl. lia. Qed.

#[export] Hint Resolve port_floor_emit port_floor_alloc port_floor_get_next_port : pres.
#[export] Hint Extern 1 (Preserved (port_floor _) (logger _ _)) =>
  apply port_floor_emit : pres.
#[export] Hint Extern 1 (Preserved (port_floor _) (modify _)) =>
  apply port_floor_modify; reflexivity : pres.
#[export] Hint Extern 1 (Preserved (port_floor _) (set_status _ _)) =>
  apply port_floor_modify; reflexivity : pres.
#[export] Hint Extern 1 (Preserved (port_floor _) (set_process _ _ _)) =>
  apply port_floor_modify; reflexivity : pres.
#[export] Hint Extern 1 (Preserved (port_floor _) (set_task _ _)) =>
  apply port_floor_modify; reflexivity : pres.

Lemma port_floor_poll_loop (n : Z) (m k a : nat) (obs : nat -> PollObs) :
  Preserved (port_floor n) (poll_loop m k a obs).
Proof.
  revert k; induction m as [ | m IH]; intros k; simpl; unfold poll_cycle; pres.
Qed.

#[export] Hint Resolve port_floor_poll_loop : pres.

Lemma port_floor_launch_step (n : Z) (a : nat) (i : LaunchInput) :
  Preserved (port_floor n) (launch_step a i).
Proof.
  intros w H. unfold launch_step.
  destruct (deref a (mgr w)) as [c | ]; [ | exact H ].
  destruct (task c) as [args | k | ], i as [r | o]; try exact H.
  - refine ((_ : Preserved (port_floor n) _) w H).
    unfold launch_prologue, popen, launch_failed. pres.
  - refine ((_ : Preserved (port_floor n) _) w H).
    unfold after_cycle, poll_cycle, launch_timeout, launch_failed. pres.
Qed.

Lemma port_floor_wait_exit (n : Z) (m k : nat) (pid : Z) (alive : nat -> bool) :
  Preserved (port_floor n) (wait_exit m k pid alive).
Proof. revert k; induction m as [ | m IH]; intros k; simpl; pres. Qed.

#[export] Hint Resolve port_floor_wait_exit : pres.

Lemma port_floor_exec (n : Z) (op : Op) (w : World) :
  port_floor n w -> port_floor n (exec op w).
Proof.
  intros H. destruct op; simpl exec.
  - refine ((_ : Preserved (port_floor n) _) w H).
    unfold add_model, _quantize_model, _save_model_config, _start_model_server,
      launch_prologue, popen, launch_timeout, launch_failed. pres.
  - refine ((_ : Preserved (port_floor n) _) w H).
    unfold add_model_from_config_register. pres.
  - apply port_floor_launch_step, H.
  - refine ((_ : Preserved (port_floor n) _) w H).
    unfold remove_model, stop_process, os_kill. pres.
Qed.

Lemma port_floor_run (n : Z) (ops : list Op) (w : World) :
  port_floor n w -> port_floor n (run ops w).
Proof.
  revert w; induction ops as [ | op ops IH]; intros w H; simpl; [ exact H | ].
  apply IH, port_floor_exec, H.
Qed.

(** C7. [_get_next_port] called after any sequence of registrations,
    launch steps and removals, started from a fresh manager: the value it
    returns is [base] plus the number of values it has returned before, which
    are [base], [base + 1], ... in this order; so the value is above every
    one returned before, whatever was removed in between, and a call made
    after any further operations returns a value that is higher still. The
    value returned is the one left in the trace, and it is the port of the
    record when [add_model] draws it. *)
Theorem reserve_never_repeats (backend : string) (base : Z) (ops more : list Op) :
  let w := run ops (init backend base) in
  let ports := reserved (trace w) in
  let p := (base + Z.of_nat (List.length ports))%Z in
  ports = ports_from base (List.length ports)
  /\ StronglySorted Z.lt ports
  /\ NoDup ports
  /\ fst (_get_next_port w) = Ok p
  /\ (forall q, In q ports -> (q < p)%Z)
  /\ reserved (trace (snd (_get_next_port w))) = ports ++ [p]
  /\ (exists p', fst (_get_next_port (run more (snd (_get_next_port w)))) = Ok p'
                 /\ (p < p')%Z)
  /\ (forall model_id gpu_id quantize quant_method quant_bits max_len mem_util q,
        Dict.mem model_id (models (mgr w)) = false ->
        quantize_error quantize q = None ->
        exists mi,
          lookup model_id
            (exec (OpAddModel model_id None gpu_id quantize quant_method quant_bits
                     max_len mem_util q) w) = Some mi
          /\ mi_port mi = p).
Proof.
  intros w ports p.
  assert (H : alloc_inv base w).
  { apply alloc_inv_run. split; simpl; [ reflexivity | lia ]. }
  destruct H as [H Hnext]. fold ports in H. fold ports in Hnext. fold p in Hnext.
  split; [ exact H | ].
  split; [ rewrite H; apply ports_from_sorted | ].
  split; [ rewrite H; apply ports_from_NoDup | ].
  rewrite get_next_port_run. cbn [fst snd trace]. rewrite Hnext.
  split; [ reflexivity | ].
  split; [ intros q Hq; rewrite H in Hq; apply ports_from_below in Hq; subst p; lia | ].
  split; [ rewrite reserved_app; reflexivity | ].
  split.
  - rewrite get_next_port_run. cbn [fst]. eexists. split; [ reflexivity | ].
    assert (Hfloor : port_floor (p + 1)
              (run more {| mgr := set_next_port (p + 1) (mgr w);
                           trace := trace w ++ [EvReserve p] |})).
    { apply port_floor_run. unfold port_floor. simpl. lia. }
    unfold port_floor in Hfloor. lia.
  - intros model_id gpu_id quantize quant_method quant_bits max_len mem_util q Hmem Hq.
    destruct (add_model_background_run model_id None gpu_id quantize quant_method quant_bits
                max_len mem_util q no_launch w Hmem Hq)
      as (evs & args & Hrun & _).
    cbv zeta in Hrun. simpl exec. rewrite Hrun. cbn [snd].
    unfold lookup, store. cbn [mgr models]. rewrite dict_get_set_same.
    unfold deref. cbn [objects]. rewrite nth_error_app2, Nat.sub_diag by lia.
    eexists. split; [ reflexivity | ]. cbn [info new_record mi_port port_given].
    exact Hnext.
Qed.

(** ** The registry on reachable worlds *)

(** X6. Whatever registrations, launch steps and removals have run since
    the manager was created, the registry holds no identity twice, and under
    each identity an object that is in the store, whose [id] is that
    identity and whose [name] is the base name of it. *)
Theorem registry_names_records_by_identity (backend : string) (starting_port : Z)
    (ops : list Op) :
  let w := run ops (init backend starting_port) in
  registry_wf (mgr w)
  /\ forall id, Dict.mem id (models (mgr w)) = true ->
       exists mi, lookup id w = Some mi /\ mi_id mi = id /\ mi_name mi = basename id.
Proof.
  intros w.
  assert (Hwf : registry_wf (mgr w))
    by (apply registry_wf_run, registry_wf_init).
  split; [ exact Hwf | ].
  intros id Hmem. unfold Dict.mem in Hmem. unfold lookup.
  destruct (Dict.get id (models (mgr w))) as [a | ] eqn:Hg; [ | discriminate ].
  destruct Hwf as [_ Hent].
  destruct (Hent id a (dict_get_in _ _ _ Hg)) as (c & Hc & Hid & Hname).
  rewrite Hc. exists (info c). repeat split; assumption.
Qed.

(** ** [list_models] *)

Lemma entries_ids (l : list ModelInfo) (k : nat) (clock : nat -> Z) :
  map e_id (entries l k clock) = map mi_id l.
Proof.
  revert k. induction l as [ | mi l IH]; intros k; simpl; [ | rewrite IH ]; reflexivity.
Qed.

Lemma entries_in (l : list ModelInfo) (k : nat) (clock : nat -> Z) (e : ModelEntry) :
  In e (entries l k clock) ->
  exists mi, In mi l /\ e_id e = mi_id mi /\ e_name e = mi_name mi
             /\ e_status e = status_str (mi_status mi)
             /\ e_quantization e = mi_quantization mi.
Proof.
  revert k. induction l as [ | mi l IH]; intros k; simpl; [ intros [] | ].
  intros [<- | Hin].
  - exists mi. repeat split. now left.
  - destruct (IH _ Hin) as (mi' & Hmi & H). exists mi'. split; [ now right | exact H ].
Qed.

Lemma records_ids (m : ModelManager) (d : Dict.t nat) :
  (forall id a, In (id, a) d -> exists c, deref a m = Some c /\ mi_id (info c) = id) ->
  map mi_id (flat_map (fun a => match deref a m with Some c => [info c] | None => [] end)
               (Dict.values d))
  = Dict.keys d.
Proof.
  induction d as [ | [id a] d IH]; intros H; simpl; [ reflexivity | ].
  destruct (H id a (or_introl eq_refl)) as (c & Hc & Hid).
  rewrite Hc. simpl. rewrite Hid. f_equal.
  apply IH. intros id' a' Hin. apply H. now right.
Qed.

Lemma records_in (m : ModelManager) (mi : ModelInfo) :
  In mi (records m) ->
  exists id a c, In (id, a) (models m) /\ deref a m = Some c /\ info c = mi.
Proof.
  unfold records. intros H. apply in_flat_map in H. destruct H as (a & Ha & Hin).
  unfold Dict.values in Ha. apply in_map_iff in Ha. destruct Ha as ([id a0] & Heq & Hd).
  simpl in Heq. subst a0.
  destruct (deref a m) as [c | ] eqn:Hc; [ | destruct Hin ].
  destruct Hin as [<- | []]. exists id, a, c. repeat split; assumption.
Qed.

(** X7. In any world the operations lead to, [list_models] has one entry
    per identity of the registry, in the order of registration; each entry
    carries the base name of its identity and the status that the record
    under that identity has at that moment. *)
Theorem list_models_follows_registry (backend : string) (starting_port : Z)
    (ops : list Op) (clock : nat -> Z) :
  let w := run ops (init backend starting_port) in
  let l := list_models clock (mgr w) in
  map e_id l = Dict.keys (models (mgr w))
  /\ forall e, In e l ->
       e_name e = basename (e_id e)
       /\ option_map status_str (view (e_id e) w) = Some (e_status e).
Proof.
  intros w l.
  assert (Hwf : registry_wf (mgr w)) by (apply registry_wf_run, registry_wf_init).
  destruct Hwf as [Hnd Hent]. split.
  - subst l. unfold list_models. rewrite entries_ids. unfold records.
    apply records_ids. intros id a Hin.
    destruct (Hent id a Hin) as (c & Hc & Hid & _). exists c. split; assumption.
  - intros e He. subst l. unfold list_models in He.
    destruct (entries_in _ _ _ _ He) as (mi & Hmi & Hid & Hname & Hst & _).
    destruct (records_in _ _ Hmi) as (id & a & c & Hin & Hc & <-).
    destruct (Hent id a Hin) as (c0 & Hc0 & Hcid & Hcname).
    assert (c0 = c) by congruence. subst c0.
    split; [ congruence | ].
    unfold view, status_at. rewrite Hid, Hcid.
    rewrite (dict_in_get _ _ _ Hnd Hin), Hc. simpl. rewrite Hst. reflexivity.
Qed.

(** ** [shutdown_all] *)

Lemma set_models_same (w : World) (d : Dict.t nat) :
  models (mgr w) = d ->
  {| mgr := set_models d (mgr w); trace := trace w ++ [] |} = w.
Proof.
  intros <-. destruct w as [[b o ms p] tr]. unfold set_models. simpl.
  rewrite app_nil_r. reflexivity.
Qed.

Lemma dict_pop_middle {V} (k : string) (v : V) (pre d : Dict.t V) :
  NoDup (Dict.keys (pre ++ (k, v) :: d)) ->
  Dict.pop k (pre ++ (k, v) :: d) = pre ++ d.
Proof.
  unfold Dict.pop, Dict.keys. rewrite map_app. simpl. intros Hnd.
  apply NoDup_remove_2 in Hnd. rewrite filter_app. simpl. rewrite String.eqb_refl. simpl.
  assert (Hkeep : forall l : Dict.t V, ~ In k (map fst l) ->
            filter (fun kv => negb (String.eqb (fst kv) k)) l = l).
  { induction l as [ | [k' v'] l IH]; simpl; intros H; [ reflexivity | ].
    destruct (String.eqb_spec k' k) as [-> | Hne]; simpl.
    - exfalso. apply H. now left.
    - rewrite IH; [ reflexivity | ]. intros I. apply H. now right. }
  rewrite !Hkeep; [ reflexivity | | ]; intros I; apply Hnd, in_or_app; auto.
Qed.

Lemma refused_entries_none (d : Dict.t nat) (k : nat) (envs : nat -> KillEnv) :
  (forall i, remove_refused (envs i) = None) -> refused_entries d k envs = [].
Proof.
  intros H. revert k. induction d as [ | e d IH]; intros k; simpl; [ reflexivity | ].
  rewrite H. apply IH.
Qed.

Lemma shutdown_loop_run (envs : nat -> KillEnv) (d pre : Dict.t nat) (k : nat) (w : World) :
  models (mgr w) = pre ++ d -> registry_wf (mgr w) ->
  exists evs,
    shutdown_loop (Dict.keys d) k envs w
    = (Ok tt, {| mgr := set_models (pre ++ refused_entries d k envs) (mgr w);
                 trace := trace w ++ evs |})
    /\ reserved evs = [] /\ spawns evs = []
    /\ forall id a c pid,
         In (id, a) d -> deref a (mgr w) = Some c ->
         mi_pid (info c) = Some pid -> pid <> 0%Z ->
         In (pid, 15%Z) (signals evs).
Proof.
  revert pre k w. induction d as [ | [id a] d IH]; intros pre k w Hd Hwf.
  - exists []. simpl. unfold ret. rewrite app_nil_r in *. rewrite (set_models_same w pre Hd).
    repeat split. intros id a c pid [].
  - simpl Dict.keys. simpl shutdown_loop.
    pose proof Hwf as [Hnd Hent].
    assert (Hin : In (id, a) (models (mgr w))) by (rewrite Hd; apply in_or_app; right; now left).
    destruct (Hent id a Hin) as (c & Hc & Hid & Hname).
    assert (Hreg : Dict.get id (models (mgr w)) = Some a) by (apply dict_in_get; assumption).
    assert (Hget : get_model id (mgr w) = Some a)
      by (unfold get_model; rewrite Hreg; reflexivity).
    destruct (remove_model_run id (envs k) w a c Hget Hc)
      as (evs1 & Hs1 & Hr1 & Hsp1 & _ & Hrun).
    rewrite Hid, Hreg in Hrun.
    cbn [refused_entries].
    destruct (remove_refused (envs k)) as [msg | ].
    + set (W1 := extend (evs1 ++ [EvLog ERROR ("Error shutting down model " ++ id ++ ": "
                                                ++ exn_str (OSError msg))]) w).
      rewrite (bind_ok _ _ w W1 tt).
      2:{ unfold try_except. rewrite (bind_raise _ _ _ _ _ Hrun).
          unfold logger. rewrite emit_run, extend_extend. reflexivity. }
      destruct (IH (pre ++ [(id, a)]) (S k) W1) as (evs2 & Hrun2 & Hr2 & Hsp2 & Hsig2).
      { subst W1. cbn [mgr extend]. rewrite Hd, <- app_assoc. reflexivity. }
      { exact Hwf. }
      eexists. rewrite Hrun2. subst W1. unfold extend. cbn [mgr trace].
      rewrite <- !app_assoc. split; [ reflexivity | ].
      rewrite !reserved_app, !spawns_app, Hr1, Hr2, Hsp1, Hsp2.
      split; [ reflexivity | split; [ reflexivity | ] ].
      intros id0 a0 c0 pid [[= <- <-] | Hin0] Hc0 Hpid Hne; rewrite signals_app; apply in_or_app.
      * left. assert (c0 = c) by congruence. subst c0. rewrite Hs1, Hpid.
        destruct (Z.eqb_spec pid 0); [ contradiction | ]. now left.
      * right. rewrite signals_app. apply in_or_app. right.
        apply (Hsig2 id0 a0 c0 pid Hin0 Hc0 Hpid Hne).
    + rewrite Hd in Hrun. rewrite dict_pop_middle in Hrun by (rewrite <- Hd; exact Hnd).
      match type of Hrun with _ = (_, ?w1) => set (W1 := w1) in * end.
      rewrite (bind_ok _ _ w W1 tt).
      2:{ apply try_ok. rewrite (bind_ok _ _ _ _ _ Hrun). reflexivity. }
      assert (Hwf1 : registry_wf (mgr W1)).
      { apply (registry_wf_pop (mgr w) _ id); [ exact Hwf | reflexivity | ].
        subst W1. cbn [mgr models set_models]. rewrite Hd.
        symmetry. apply dict_pop_middle. rewrite <- Hd. exact Hnd. }
      destruct (IH pre (S k) W1 eq_refl Hwf1) as (evs2 & Hrun2 & Hr2 & Hsp2 & Hsig2).
      exists (evs1 ++ evs2). rewrite Hrun2. subst W1.
      unfold set_models. cbn [mgr trace infer_backend objects next_port].
      rewrite <- app_assoc, reserved_app, spawns_app, Hr1, Hr2, Hsp1, Hsp2.
      repeat split.
      intros id0 a0 c0 pid [[= <- <-] | Hin0] Hc0 Hpid Hne; rewrite signals_app; apply in_or_app.
      * left. assert (c0 = c) by congruence. subst c0. rewrite Hs1, Hpid.
        destruct (Z.eqb_spec pid 0); [ contradiction | ]. now left.
      * right. apply (Hsig2 id0 a0 c0 pid Hin0 Hc0 Hpid Hne).
Qed.

(** X8. [shutdown_all] on a registry whose records sit under their own
    identity, no other request being served meanwhile: it does not raise,
    whatever the operating system answers to the signals and to the removal
    of the descriptors; every record that had a process was sent SIGTERM;
    the records left in the registry are exactly those whose descriptor
    [os.remove] refused to remove, in their order, so that the registry is
    empty when no removal is refused; and neither the store of objects nor
    the port allocator changes. *)
Theorem shutdown_all_empties_registry (envs : nat -> KillEnv) (w : World) :
  registry_wf (mgr w) ->
  let w' := snd (shutdown_all envs w) in
  fst (shutdown_all envs w) = Ok tt
  /\ models (mgr w') = refused_entries (models (mgr w)) 0 envs
  /\ ((forall k, remove_refused (envs k) = None) -> models (mgr w') = [])
  /\ objects (mgr w') = objects (mgr w)
  /\ next_port (mgr w') = next_port (mgr w)
  /\ forall id mi pid,
       lookup id w = Some mi -> mi_pid mi = Some pid -> pid <> 0%Z ->
       In (pid, 15%Z) (signals (added w w')).
Proof.
  intros Hwf w'. subst w'. unfold shutdown_all.
  rewrite (bind_ok _ _ w w (Dict.keys (models (mgr w)))) by reflexivity.
  destruct (shutdown_loop_run envs (models (mgr w)) [] 0 w eq_refl Hwf)
    as (evs & Hrun & _ & _ & Hsig).
  rewrite Hrun. simpl fst. simpl snd.
  split; [ reflexivity | ]. split; [ reflexivity | ].
  split; [ intros Hnone; simpl; apply refused_entries_none, Hnone | ].
  split; [ reflexivity | ]. split; [ reflexivity | ].
  intros id mi pid Hl Hpid Hne. unfold lookup in Hl.
  destruct (Dict.get id (models (mgr w))) as [a | ] eqn:Hg; [ | discriminate ].
  destruct (deref a (mgr w)) as [c | ] eqn:Hc; [ | discriminate ].
  injection Hl as <-.
  erewrite added_app by reflexivity.
  apply (Hsig id a c pid (dict_get_in _ _ _ Hg) Hc Hpid Hne).
Qed.

(** ** The descriptor file of a record *)

(** X9. In any world the operations lead to, the descriptor file of a
    record is named by the base name of its identity alone, the
    [replace('/', '_')] applied to the name changing nothing: two identities
    with the same base name share one descriptor file. *)
Theorem descriptor_file_named_by_base_name (backend : string) (starting_port : Z)
    (ops : list Op) (id : string) (mi : ModelInfo) :
  lookup id (run ops (init backend starting_port)) = Some mi ->
  config_file mi = ("config/model_configs/" ++ basename id ++ ".json")%string
  /\ forall id' mi',
       lookup id' (run ops (init backend starting_port)) = Some mi' ->
       basename id' = basename id -> config_file mi' = config_file mi.
Proof.
  set (w := run ops (init backend starting_port)).
  assert (Hwf : registry_wf (mgr w)) by (apply registry_wf_run, registry_wf_init).
  assert (Hfile : forall id0 mi0, lookup id0 w = Some mi0 ->
            config_file mi0 = ("config/model_configs/" ++ basename id0 ++ ".json")%string).
  { intros id0 mi0 Hl. unfold lookup in Hl.
    destruct (Dict.get id0 (models (mgr w))) as [a | ] eqn:Hg; [ | discriminate ].
    destruct Hwf as [_ Hent].
    destruct (Hent id0 a (dict_get_in _ _ _ Hg)) as (c & Hc & _ & Hname).
    rewrite Hc in Hl. injection Hl as <-.
    unfold config_file. rewrite Hname.
    rewrite (replace_slash_without _ (basename_no_slash id0)). reflexivity. }
  intros Hl. split; [ apply Hfile, Hl | ].
  intros id' mi' Hl' Hb. rewrite (Hfile id' mi' Hl'), (Hfile id mi Hl), Hb. reflexivity.
Qed.

(** ** A launch that raises *)

Lemma launch_body_frame (w0 : World) (a : nat) (cmd : list string) (env : LaunchEnv) :
  Preserved (frame w0)
    (popen a cmd (spawn_res env) ;;
     resolved <- poll_loop POLL_CYCLES 0 a (poll_obs env) ;;
     if resolved then set_task a Finished else launch_timeout a).
Proof. unfold popen, launch_timeout. pres. Qed.

Lemma start_model_server_raise (a : nat) (c : Cell) (args : LaunchArgs) (env : LaunchEnv)
    (w w' : World) (e : Exn) :
  deref a (mgr w) = Some c ->
  _start_model_server a args env w = (Raise e, w') ->
  status_at a w' = Some failed.
Proof.
  intros Hc. unfold _start_model_server.
  destruct (launch_prologue_run a args c w Hc) as (evs0 & Hp & _).
  rewrite (bind_ok _ _ _ _ _ Hp). cbv beta.
  pose proof (deref_touch a c c evs0 w Hc) as Hc1.
  set (w1 := touch a c evs0 w) in *.
  pose proof (launch_body_frame w1 a (deploy_cmd (infer_backend (mgr w)) (info c) args) env
                w1 (frame_refl w1)) as Hframe.
  unfold try_except.
  destruct ((popen a (deploy_cmd (infer_backend (mgr w)) (info c) args) (spawn_res env) ;;
             resolved <- poll_loop POLL_CYCLES 0 a (poll_obs env) ;;
             if resolved then set_task a Finished else launch_timeout a) w1)
    as [[u | e1] w2]; [ discriminate | ].
  simpl snd in Hframe.
  destruct Hframe as (_ & _ & _ & _ & _ & Hobj).
  destruct (Hobj a c Hc1) as (c2 & Hc2 & _).
  rewrite (launch_failed_run a e1 c2 w2 Hc2).
  intros [= _ <-]. rewrite (status_at_touch a c2 _ _ w2 Hc2). reflexivity.
Qed.

Lemma saved_emit (t0 : list Event) (e : Event) :
  saved_configs [e] = [] -> Preserved (no_config_saved t0) (emit e).
Proof.
  intros He w (evs & Ht & Hs). exists (evs ++ [e]). unfold emit; simpl.
  rewrite Ht, app_assoc, saved_configs_app, Hs, He. split; reflexivity.
Qed.

Lemma saved_modify (t0 : list Event) (f : ModelManager -> ModelManager) :
  Preserved (no_config_saved t0) (modify f).
Proof. intros w H. exact H. Qed.

#[export] Hint Extern 1 (Preserved (no_config_saved _) (emit _)) =>
  apply saved_emit; reflexivity : pres.
#[export] Hint Extern 1 (Preserved (no_config_saved _) (logger _ _)) =>
  apply saved_emit; reflexivity : pres.
#[export] Hint Extern 1 (Preserved (no_config_saved _) (set_status _ _)) =>
  apply saved_modify : pres.
#[export] Hint Extern 1 (Preserved (no_config_saved _) (set_process _ _ _)) =>
  apply saved_modify : pres.
#[export] Hint Extern 1 (Preserved (no_config_saved _) (set_task _ _)) =>
  apply saved_modify : pres.

Lemma saved_poll_loop (t0 : list Event) (n k a : nat) (obs : nat -> PollObs) :
  Preserved (no_config_saved t0) (poll_loop n k a obs).
Proof.
  revert k; induction n as [ | n IH]; intros k; simpl; unfold poll_cycle; pres.
Qed.

#[export] Hint Resolve saved_poll_loop : pres.

Lemma saved_start_model_server (t0 : list Event) (a : nat) (args : LaunchArgs)
    (env : LaunchEnv) :
  Preserved (no_config_saved t0) (_start_model_server a args env).
Proof.
  unfold _start_model_server, launch_prologue, popen, launch_timeout, launch_failed. pres.
Qed.

(** ** [add_model] when the export fails *)

(** X11. [add_model] when the export of the quantized model fails, for an
    identity the registry does not hold: the call raises the [RuntimeError]
    that carries the standard error of the export; nothing is stored, neither
    a record nor a descriptor, and no process is spawned; but a port that was
    drawn from the allocator is not given back. *)
Theorem add_model_failed_export_keeps_port (model_id : string) (port : option Z)
    (gpu_id : Z) (quant_method : string) (quant_bits max_len : Z) (mem_util : string)
    (background_tasks : bool) (returncode : Z) (stderr : string) (env : LaunchEnv)
    (w : World) :
  Dict.mem model_id (models (mgr w)) = false ->
  returncode <> 0%Z ->
  let r := add_model model_id port gpu_id true quant_method quant_bits max_len mem_util
             background_tasks (QuantRan returncode stderr) env w in
  fst r = Raise (RuntimeError ("Failed to quantize model: " ++ stderr))
  /\ models (mgr (snd r)) = models (mgr w)
  /\ objects (mgr (snd r)) = objects (mgr w)
  /\ next_port (mgr (snd r))
     = match port with Some _ => next_port (mgr w) | None => (next_port (mgr w) + 1)%Z end
  /\ reserved (added w (snd r))
     = match port with Some _ => [] | None => [next_port (mgr w)] end
  /\ spawns (added w (snd r)) = []
  /\ saved_configs (added w (snd r)) = [].
Proof.
  intros Hmem Hrc r. subst r.
  destruct (add_model_prefix model_id port gpu_id true quant_method quant_bits max_len
              mem_util background_tasks (QuantRan returncode stderr) env w Hmem)
    as (evs & deployed & Hrun & Hr & Hs & _ & _ & Hsaved).
  cbv zeta in Hrun. cbn [quantize_error] in Hrun.
  destruct (Z.eqb_spec returncode 0) as [ | _]; [ contradiction | ].
  rewrite Hrun. cbn [fst snd].
  erewrite added_app by reflexivity. rewrite Hr, Hs, Hsaved.
  repeat split.
Qed.

(** ** The route [POST /v1/models/add] *)

(** X12. The route that adds a model, for an identity the registry does not
    hold, an export that does not fail, a body that gives none of its
    optional fields as [null], and a descriptor that can be written: it
    answers [started] with the new record, which is [loading] and has no
    process; the record is in the registry and its descriptor has been
    saved; and when the answer is given no process has been spawned and no
    probe sent, the launch being only scheduled. *)
Theorem app_add_model_answers_before_launch (model_req : ModelAddRequest) (q : QuantRes)
    (w : World) :
  Dict.mem (ar_model_id model_req) (models (mgr w)) = false ->
  quantize_error (ar_quantize model_req) q = None ->
  let w' := snd (app_add_model model_req q w) in
  exists response,
    fst (app_add_model model_req q w) = Ok response
    /\ ad_status response = "started"
    /\ lookup (ar_model_id model_req) w' = Some (ad_model_info response)
    /\ mi_status (ad_model_info response) = loading
    /\ mi_pid (ad_model_info response) = None
    /\ mi_url (ad_model_info response) = localhost (mi_port (ad_model_info response))
    /\ (exists a args, Dict.get (ar_model_id model_req) (models (mgr w')) = Some a
                       /\ task_at a w' = Some (Pending args))
    /\ spawns (added w w') = []
    /\ probes (added w w') = []
    /\ saved_configs (added w w') = [config_file (ad_model_info response)].
Proof.
  intros Hmem Hq w'. subst w'. unfold app_add_model.
  destruct (add_model_background_run (ar_model_id model_req) (ar_port model_req)
              (ar_gpu_id model_req) (ar_quantize model_req) (ar_quant_method model_req)
              (ar_quant_bits model_req) (ar_max_model_len model_req)
              (ar_memory_util model_req) q no_launch w Hmem Hq)
    as (evs & args & Hrun & _ & Hs & Hp & _ & Hsaved).
  cbv zeta in Hrun, Hsaved.
  erewrite try_ok.
  2:{ rewrite (bind_ok _ _ _ _ _ Hrun).
      unfold bind, the_info. rewrite deref_store. reflexivity. }
  eexists. split; [ reflexivity | ]. cbn [fst snd ad_status ad_model_info info].
  erewrite added_app by reflexivity. rewrite Hs, Hp, Hsaved.
  unfold lookup, task_at, store. cbn [mgr models objects].
  rewrite dict_get_set_same.
  unfold deref. cbn [objects]. rewrite nth_error_app2, Nat.sub_diag by lia.
  repeat split.
  exists (List.length (objects (mgr w))), args. split; [ reflexivity | ].
  rewrite nth_error_app2, Nat.sub_diag by lia. reflexivity.
Qed.

(** X13. The route that adds a model, for an identity the registry holds: the caller gets
    status 500 with the text of the refusal, an error line is logged, and
    the manager is left as it was; in particular no port is drawn. *)
Theorem app_add_model_duplicate_is_500 (model_req : ModelAddRequest) (q : QuantRes)
    (w : World) :
  Dict.mem (ar_model_id model_req) (models (mgr w)) = true ->
  fst (app_add_model model_req q w)
  = Raise (HTTPException 500
             ("Failed to add model: Model " ++ ar_model_id model_req ++ " already exists"))
  /\ mgr (snd (app_add_model model_req q w)) = mgr w
  /\ added w (snd (app_add_model model_req q w))
     = [EvLog ERROR ("Error adding model: Model " ++ ar_model_id model_req
                     ++ " already exists")].
Proof.
  intros Hmem. unfold app_add_model.
  erewrite try_raise.
  2:{ erewrite bind_raise; [ reflexivity | ].
      apply add_model_rejects_duplicate, Hmem. }
  cbv beta iota zeta delta [bind logger emit raise exn_str]. cbn [fst snd mgr].
  repeat split. apply added_app. reflexivity.
Qed.

(** ** [startup_event] *)

Lemma add_model_from_config_rejected (cfg : ModelConfig) (env : LaunchEnv) (w : World) :
  has_model_id cfg = false ->
  add_model_from_config cfg env w
  = (Raise (ValueError "Missing model_id in configuration"), w).
Proof.
  unfold has_model_id, add_model_from_config, add_model_from_config_register, bind.
  destruct (c_model_id cfg) as [[ | ch rest] | ]; [ reflexivity | discriminate | reflexivity ].
Qed.

Lemma add_model_from_config_accepted (cfg : ModelConfig) (env : LaunchEnv) (w : World) :
  has_model_id cfg = true ->
  exists id,
    c_model_id cfg = Some id
    /\ models (mgr (snd (add_model_from_config cfg env w)))
       = Dict.set id (List.length (objects (mgr w))) (models (mgr w))
    /\ next_port (mgr (snd (add_model_from_config cfg env w))) = (next_port (mgr w) + 2)%Z
    /\ List.length (objects (mgr (snd (add_model_from_config cfg env w))))
       = S (List.length (objects (mgr w))).
Proof.
  unfold has_model_id. intros Hacc.
  destruct (c_model_id cfg) as [[ | ch rest] | ] eqn:Hid; try discriminate.
  exists (String ch rest). split; [ reflexivity | ].
  destruct (register_from_config_record cfg (String ch rest) w Hid ltac:(discriminate))
    as (mi & args & Hreg & _).
  unfold add_model_from_config. rewrite (bind_ok _ _ _ _ _ Hreg). cbn [fst snd].
  match goal with |- context [bind _ _ ?w1] => set (W := w1) end.
  pose proof (frame_start_model_server W (List.length (objects (mgr w))) args env W
                (frame_refl W)) as Hframe.
  unfold bind, ret.
  destruct (_start_model_server (List.length (objects (mgr w))) args env W) as [[u | e] w2];
    cbn [snd] in *; destruct Hframe as (Hms & Hnp & _ & _ & Hlen & _);
    rewrite Hms, Hnp, Hlen; subst W; unfold store; cbn [mgr models next_port objects];
    rewrite length_app; simpl; repeat split; lia.
Qed.

Lemma dict_mem_set {V} (k k0 : string) (v : V) (d : Dict.t V) :
  Dict.mem k0 (Dict.set k v d) = (String.eqb k k0 || Dict.mem k0 d)%bool.
Proof.
  unfold Dict.mem. destruct (String.eqb_spec k k0) as [-> | Hne].
  - rewrite dict_get_set_same. reflexivity.
  - rewrite dict_get_set_other by congruence. reflexivity.
Qed.

Lemma load_model_file_run (config_file : string) (loaded : option ModelConfig)
    (env : LaunchEnv) (w : World) :
  exists w1,
    load_model_file config_file loaded env w = (Ok tt, w1)
    /\ match loaded with
       | Some cfg =>
           if has_model_id cfg then
             exists id,
               c_model_id cfg = Some id
               /\ models (mgr w1)
                  = Dict.set id (List.length (objects (mgr w))) (models (mgr w))
               /\ next_port (mgr w1) = (next_port (mgr w) + 2)%Z
               /\ List.length (objects (mgr w1)) = S (List.length (objects (mgr w)))
           else mgr w1 = mgr w
       | None => mgr w1 = mgr w
       end.
Proof.
  unfold load_model_file.
  destruct loaded as [cfg | ]; [ | eexists; split; reflexivity ].
  unfold try_except.
  rewrite (bind_ok _ _ w (extend [EvLog INFO ("Loading model from config: "
                                               ++ config_file)] w) tt eq_refl).
  set (w0 := extend [EvLog INFO ("Loading model from config: " ++ config_file)] w).
  destruct (has_model_id cfg) eqn:Hacc.
  - destruct (add_model_from_config_accepted cfg env w0 Hacc) as (id & Hid & Hms & Hnp & Hlen).
    unfold bind.
    destruct (add_model_from_config cfg env w0) as [[a | e] w2]; cbn [snd] in *;
      eexists; (split; [ reflexivity | ]); exists id; repeat split; assumption.
  - unfold bind. rewrite add_model_from_config_rejected by exact Hacc.
    eexists. split; reflexivity.
Qed.

Lemma startup_loop_run (files : list (string * option ModelConfig)) (k : nat)
    (envs : nat -> LaunchEnv) (w : World) :
  let r := startup_loop files k envs w in
  fst r = Ok tt
  /\ next_port (mgr (snd r))
     = (next_port (mgr w) + 2 * Z.of_nat (List.length (accepted files)))%Z
  /\ List.length (objects (mgr (snd r)))
     = (List.length (objects (mgr w)) + List.length (accepted files))%nat
  /\ (forall id, Dict.mem id (models (mgr w)) = true ->
        Dict.mem id (models (mgr (snd r))) = true)
  /\ (forall cfg id, In cfg (accepted files) -> c_model_id cfg = Some id ->
        Dict.mem id (models (mgr (snd r))) = true).
Proof.
  revert k w. induction files as [ | [config_file loaded] files IH]; intros k w.
  - simpl. repeat split; try lia; auto.
  - cbv zeta.
    change (startup_loop ((config_file, loaded) :: files) k envs w)
      with ((load_model_file config_file loaded (envs k) ;;
             startup_loop files (S k) envs) w).
    destruct (load_model_file_run config_file loaded (envs k) w) as (w1 & Hrun & Hw1).
    rewrite (bind_ok _ _ _ _ _ Hrun).
    specialize (IH (S k) w1). cbv zeta in IH.
    destruct IH as (IH1 & IH2 & IH3 & IH4 & IH5).
    destruct loaded as [cfg | ]; [ simpl accepted; destruct (has_model_id cfg) | ].
    + destruct Hw1 as (id & Hid & Hms & Hnp & Hlen).
      split; [ exact IH1 | ].
      split; [ rewrite IH2, Hnp; simpl List.length; lia | ].
      split; [ rewrite IH3, Hlen; simpl List.length; lia | ].
      split.
      * intros id0 Hm. apply IH4. rewrite Hms, dict_mem_set, Hm. apply orb_true_r.
      * intros cfg0 id0 [<- | Hin] Hid0.
        -- apply IH4. rewrite Hms, dict_mem_set.
           assert (id = id0) by congruence. subst id0.
           rewrite String.eqb_refl. reflexivity.
        -- apply (IH5 cfg0 id0 Hin Hid0).
    + rewrite Hw1 in *. repeat split; assumption.
    + simpl accepted. rewrite Hw1 in *. repeat split; assumption.
Qed.

(** X14. [startup_event], its directories made and no request being served
    meanwhile, over descriptor files each of which either cannot be loaded or holds a
    dictionary with values of the types the code expects (a string under
    [model_id], integers under [port] and [gpu_id], dictionaries under
    [quantization] and [parameters]): it does not raise, however the
    launches end; every descriptor that was read and has a non-empty
    [model_id] leaves its identity in the registry, also when its launch
    failed; each of them has drawn two ports from the allocator, with or
    without a [port] of its own; and one object has been stored for each. *)
Theorem startup_event_registers_accepted (files : list (string * option ModelConfig))
    (envs : nat -> LaunchEnv) (w : World) :
  let w' := snd (startup_event files envs w) in
  fst (startup_event files envs w) = Ok tt
  /\ next_port (mgr w')
     = (next_port (mgr w) + 2 * Z.of_nat (List.length (accepted files)))%Z
  /\ List.length (objects (mgr w'))
     = (List.length (objects (mgr w)) + List.length (accepted files))%nat
  /\ forall cfg id, In cfg (accepted files) -> c_model_id cfg = Some id ->
       Dict.mem id (models (mgr w')) = true.
Proof.
  intros w'. subst w'. unfold startup_event.
  rewrite (bind_ok _ _ w (extend [EvLog INFO "Starting Swift Model Server"] w) tt eq_refl).
  destruct (startup_loop_run files 0 envs
              (extend [EvLog INFO "Starting Swift Model Server"] w))
    as (H1 & H2 & H3 & _ & H5).
  repeat split; assumption.
Qed.

(** ** The completion routes on a ready record *)

Lemma completion_route_ready (endpoint what : string) (request : Request) (body : Body)
    (key : string) (backend : Backend) (w w1 : World) (a : nat) (c : Cell)
    (response : Response) :
  req_body request = Some body -> b_model body = Some key -> key <> EmptyString ->
  get_model key (mgr w) = Some a -> deref a (mgr w) = Some c ->
  mi_status (info c) = ready ->
  proxy_request request (mi_url (info c)) endpoint backend w = (Ok response, w1) ->
  completion_route endpoint what request backend w = (Ok response, w1).
Proof.
  intros Hbody Hkey Hne Hget Hc Hst Hproxy.
  unfold completion_route. rewrite Hbody, Hkey.
  destruct key as [ | ch rest]; [ congruence | ].
  apply try_ok.
  rewrite (bind_ok _ _ w w (Some a)) by (unfold read; rewrite Hget; reflexivity).
  cbv beta iota.
  rewrite (bind_ok _ _ w w (info c)) by (unfold the_info; rewrite Hc; reflexivity).
  cbv beta. rewrite Hst. exact Hproxy.
Qed.

(** X15. A buffered request for a ready record, answered by the backend
    with a 2xx status: exactly one call goes out, to the URL of the record;
    the caller gets the backend's status and parsed body when the body is
    JSON, and status 500 with an error object, whose text starts with
    [Internal server error:], when it is not (an empty body, as with 204,
    included). The manager is not touched. *)
Theorem route_passes_backend_success (endpoint what : string) (request : Request)
    (body : Body) (key : string) (r : BackendResponse) (w : World) (a : nat) (c : Cell) :
  req_body request = Some body -> b_model body = Some key -> key <> EmptyString ->
  b_stream body = false ->
  get_model key (mgr w) = Some a -> deref a (mgr w) = Some c ->
  mi_status (info c) = ready ->
  is_success (r_status r) = true ->
  let res := completion_route endpoint what request (Responds r) w in
  (r_json_ok r = true ->
     fst res = Ok (JSONResponse (r_status r) (JsonOf (r_text r))))
  /\ (r_json_ok r = false ->
        exists detail,
          fst res = Ok (JSONResponse 500 (ErrorObj ("Internal server error: " ++ detail))))
  /\ mgr (snd res) = mgr w
  /\ posts (added w (snd res))
     = [EvPost (mi_url (info c) ++ "/v1/" ++ endpoint) (proxy_headers (req_headers request))
          (b_text body) false].
Proof.
  intros Hbody Hkey Hne Hstream Hget Hc Hst Hok res. subst res.
  assert (Hproxy : exists evs,
    proxy_request request (mi_url (info c)) endpoint (Responds r) w
    = (if r_json_ok r then Ok (JSONResponse (r_status r) (JsonOf (r_text r)))
       else Ok (JSONResponse 500
                  (ErrorObj ("Internal server error: " ++ exn_str JSONDecodeError))),
       extend evs w)
    /\ posts evs = [EvPost (mi_url (info c) ++ "/v1/" ++ endpoint)
                      (proxy_headers (req_headers request)) (b_text body) false]).
  { unfold proxy_request. rewrite Hbody, Hstream. unfold proxy_standard_request.
    cbv beta iota zeta delta [bind ret raise emit try_except logger]. rewrite Hok.
    destruct (r_json_ok r); cbv beta iota; unfold extend; cbn [mgr trace];
      rewrite <- ?app_assoc; eexists; (split; [ reflexivity | reflexivity ]). }
  destruct Hproxy as (evs & Hproxy & Hposts).
  destruct (r_json_ok r);
    rewrite (completion_route_ready endpoint what request body key (Responds r) w _ a c _
               Hbody Hkey Hne Hget Hc Hst Hproxy); cbn [fst snd];
    (split; [ intros H; try discriminate H; reflexivity | ]);
    (split; [ intros H; try discriminate H; eexists; reflexivity | ]);
    (split; [ reflexivity | ]);
    erewrite added_app by reflexivity; exact Hposts.
Qed.

(** X16. A streamed request for a ready record is answered with status 200
    and an event stream whatever the backend does: a backend that cannot be
    reached, or that answers with an error status, shows as a stream that
    relays nothing and breaks, not as a 503 or as the backend's status. *)
Theorem streamed_route_always_200 (endpoint what : string) (request : Request)
    (body : Body) (key : string) (backend : Backend) (w : World) (a : nat) (c : Cell) :
  req_body request = Some body -> b_model body = Some key -> key <> EmptyString ->
  b_stream body = true ->
  get_model key (mgr w) = Some a -> deref a (mgr w) = Some c ->
  mi_status (info c) = ready ->
  fst (completion_route endpoint what request backend w)
  = Ok (StreamingResponse 200 "text/event-stream" (stream_generator backend))
  /\ (forall msg, backend = Unreachable msg ->
        stream_generator backend = {| relayed := []; broken := Some (RequestError msg) |})
  /\ (forall r, backend = Responds r -> is_success (r_status r) = false ->
        stream_generator backend = {| relayed := []; broken := Some (HTTPStatusError r) |}).
Proof.
  intros Hbody Hkey Hne Hstream Hget Hc Hst.
  split; [ | split ].
  - erewrite completion_route_ready; try eassumption; [ reflexivity | ].
    unfold proxy_request. rewrite Hbody, Hstream. reflexivity.
  - intros msg ->. reflexivity.
  - intros r -> Hs. simpl. rewrite Hs. reflexivity.
Qed.

(** ** A launch whose first probe is answered *)

Lemma launch_prologue_events (a : nat) (args : LaunchArgs) (c : Cell) (w : World) :
  deref a (mgr w) = Some c ->
  exists evs,
    launch_prologue a args w
    = (Ok (deploy_cmd (infer_backend (mgr w)) (info c) args), touch a c evs w)
    /\ spawns evs = [] /\ probes evs = [] /\ signals evs = [].
Proof.
  intros Hc. unfold launch_prologue, bind, the_info, logger, emit, read, ret.
  rewrite Hc. cbn [mgr trace]. rewrite <- app_assoc.
  eexists. split; [ rewrite (emit_only a c _ w Hc); reflexivity | repeat split ].
Qed.

Lemma start_model_server_ready_first (a : nat) (c : Cell) (args : LaunchArgs)
    (env : LaunchEnv) (pid now : Z) (w : World) :
  deref a (mgr w) = Some c ->
  spawn_res env = Spawned pid now ->
  exit_code (poll_obs env 0) = None -> probe (poll_obs env 0) = Some 200%Z ->
  exists c' evs,
    _start_model_server a args env w = (Ok tt, touch a c' evs w)
    /\ mi_status (info c') = ready
    /\ same_record (info c) (info c')
    /\ spawns evs = [deploy_cmd (infer_backend (mgr w)) (info c) args]
    /\ probes evs = [probe_url (info c)].
Proof.
  intros Hc Hspawn Hexit Hprobe. unfold _start_model_server. rewrite Hspawn.
  destruct (launch_prologue_events a args c w Hc) as (evs0 & Hp & Hs0 & Hp0 & _).
  rewrite (bind_ok _ _ _ _ _ Hp). cbv beta.
  pose proof (deref_touch a c c evs0 w Hc) as Hc1.
  pose proof (popen_run a (deploy_cmd (infer_backend (mgr w)) (info c) args)
                (Spawned pid now) c _ Hc1) as Hopen.
  cbv beta iota in Hopen. rewrite touch_touch in Hopen.
  set (c1 := with_task (Polling 0) (with_process pid now c)) in *.
  pose proof (deref_touch a c c1 (evs0 ++ [EvSpawn (deploy_cmd (infer_backend (mgr w))
                                                      (info c) args)
                                             (mi_gpu_id (info c))]) w Hc) as Hc2.
  pose proof (poll_cycle_run a (poll_obs env 0) c1 _ Hc2) as Hcycle.
  rewrite Hexit, Hprobe in Hcycle. cbn [Z.eqb Pos.eqb] in Hcycle.
  rewrite touch_touch in Hcycle.
  erewrite try_ok.
  2:{ rewrite (bind_ok _ _ _ _ _ Hopen).
      change (poll_loop POLL_CYCLES 0 a (poll_obs env))
        with (resolved <- poll_cycle a (poll_obs env 0) ;;
              if resolved then ret true
              else set_task a (Polling 1) ;; poll_loop 29 1 a (poll_obs env)).
      rewrite (bind_ok _ _ _ _ _ (bind_ok _ _ _ _ _ Hcycle)).
      cbv beta iota.
      rewrite (set_task_run a Finished (with_status ready c1) _
                 (deref_touch a c _ _ w Hc)).
      rewrite touch_touch. reflexivity. }
  do 2 eexists. split; [ reflexivity | ].
  rewrite !spawns_app, !probes_app, Hs0, Hp0.
  repeat split.
Qed.

(** X17. A descriptor without ["port"], loaded by [add_model_from_config]
    when the allocator stands at [p], with a launch whose first probe is
    answered 200: the process is started with [--port p] and probed on port
    [p], the record becomes [ready], and a chat completion for it is then
    sent to port [p + 1]. *)
Theorem config_record_served_on_other_port (cfg : ModelConfig) (model_id : string)
    (env : LaunchEnv) (pid now : Z) (request : Request) (body : Body) (backend : Backend)
    (w : World) :
  c_model_id cfg = Some model_id -> model_id <> EmptyString -> c_port cfg = None ->
  spawn_res env = Spawned pid now ->
  exit_code (poll_obs env 0) = None -> probe (poll_obs env 0) = Some 200%Z ->
  req_body request = Some body -> b_model body = Some model_id ->
  let p := next_port (mgr w) in
  let w1 := snd (add_model_from_config cfg env w) in
  let w2 := snd (chat_completions request backend w1) in
  view model_id w1 = Some ready
  /\ (exists cmd pre post,
        spawns (added w w1) = [cmd] /\ cmd = pre ++ "--port" :: str p :: post)
  /\ probes (added w w1) = [("http://localhost:" ++ str p ++ "/v1/models")%string]
  /\ posts (added w1 w2)
     = [EvPost (localhost (p + 1) ++ "/v1/chat/completions")
          (proxy_headers (req_headers request)) (b_text body) (b_stream body)].
Proof.
  intros Hid Hne Hport Hspawn Hexit Hprobe Hbody Hkey p w1 w2.
  destruct (register_from_config_record cfg model_id w Hid Hne)
    as (mi & args & Hreg & Hmid & _ & _ & _ & _ & Hmport & Hmurl).
  rewrite Hport in Hmport, Hmurl. cbn [dict_get_default] in Hmport, Hmurl.
  fold p in Hmport, Hmurl.
  set (a := List.length (objects (mgr w))) in *.
  set (c := {| info := mi; task := Pending args |}) in *.
  set (W := store model_id c (next_port (mgr w) + 2)
              [EvReserve (next_port (mgr w)); EvReserve (next_port (mgr w) + 1)%Z] w) in *.
  assert (Hc : deref a (mgr W) = Some c) by apply deref_store.
  destruct (start_model_server_ready_first a c args env pid now W Hc Hspawn Hexit Hprobe)
    as (c' & evs & Hstart & Hst & Hsame & Hsp & Hpr).
  assert (Hw1 : w1 = touch a c' evs W).
  { subst w1. unfold add_model_from_config. rewrite (bind_ok _ _ _ _ _ Hreg).
    cbn [fst snd]. rewrite (bind_ok _ _ _ _ _ Hstart). reflexivity. }
  assert (Hget : Dict.get model_id (models (mgr w1)) = Some a).
  { rewrite Hw1. unfold touch, store. cbn [mgr models update_cell]. apply dict_get_set_same. }
  assert (Hc' : deref a (mgr w1) = Some c') by (rewrite Hw1; apply (deref_touch a c c' evs W Hc)).
  assert (Hadded : added w w1
                   = [EvReserve (next_port (mgr w)); EvReserve (next_port (mgr w) + 1)%Z] ++ evs).
  { apply added_app. rewrite Hw1. unfold touch, W, store. cbn [trace].
    rewrite <- app_assoc. reflexivity. }
  split; [ | split; [ | split ] ].
  - unfold view, status_at. rewrite Hget, Hc'. simpl. rewrite Hst. reflexivity.
  - rewrite Hadded, spawns_app, Hsp. simpl app.
    exists (deploy_cmd (infer_backend (mgr W)) (info c) args),
      ["swift"; "deploy"; "--model"; deployed_model_id args;
       "--infer_backend"; infer_backend (mgr W)],
      ["--host"; "0.0.0.0"; "--max_model_len"; str (max_model_len args);
       "--gpu_memory_utilization"; memory_util args; "--max_batch_size"; "32"].
    split; [ reflexivity | ].
    unfold deploy_cmd. cbn [info c app]. rewrite Hmport. reflexivity.
  - rewrite Hadded, probes_app, Hpr. unfold probe_url. cbn [info c probes app].
    rewrite Hmport. reflexivity.
  - assert (Hready : get_model model_id (mgr w1) = Some a)
      by (unfold get_model; rewrite Hget; reflexivity).
    destruct (completion_route_ready_posts "chat/completions" "chat completions" request
                body model_id backend w1 a c' Hbody Hkey Hne Hready Hc' Hst)
      as (evs2 & Ht & Hposts).
    subst w2. unfold chat_completions.
    rewrite (added_app w1 _ evs2 Ht), Hposts.
    destruct Hsame as (_ & _ & _ & Hurl & _). rewrite <- Hurl. cbn [info c].
    rewrite Hmurl. reflexivity.
Qed.

(** ** Removal before the launch has started *)

(** X18. A model added through the route and removed before its scheduled
    launch has started: the removal sends no signal and, when the descriptor
    is removed or was not there, leaves the registry as it was before the
    addition (when the operating system refuses to remove the descriptor the
    record stays registered); in both cases the launch is not cancelled: it
    then spawns a process for the record, which after a completed removal is
    under no identity of the registry; the port drawn for it is not given
    back. *)
Theorem removal_does_not_cancel_scheduled_launch (model_id : string) (port : option Z)
    (gpu_id : Z) (quantize : bool) (quant_method : string) (quant_bits max_len : Z)
    (mem_util : string) (q : QuantRes) (kenv : KillEnv) (pid now : Z) (w : World) :
  Dict.mem model_id (models (mgr w)) = false ->
  quantize_error quantize q = None ->
  let a := List.length (objects (mgr w)) in
  let w1 := exec (OpAddModel model_id port gpu_id quantize quant_method quant_bits
                    max_len mem_util q) w in
  let w2 := exec (OpRemoveModel model_id kenv) w1 in
  let w3 := exec (OpLaunch a (InSpawn (Spawned pid now))) w2 in
  let left := match remove_refused kenv with
              | None => models (mgr w)
              | Some _ => models (mgr w1)
              end in
  signals (added w1 w2) = []
  /\ models (mgr w2) = left
  /\ List.length (spawns (added w2 w3)) = 1%nat
  /\ models (mgr w3) = left
  /\ option_map (fun c => mi_pid (info c)) (deref a (mgr w3)) = Some (Some pid)
  /\ option_map (fun c => mi_id (info c)) (deref a (mgr w3)) = Some model_id
  /\ next_port (mgr w3)
     = match port with Some _ => next_port (mgr w) | None => (next_port (mgr w) + 1)%Z end.
Proof.
  intros Hmem Hq a w1 w2 w3 left.
  destruct (add_model_background_run model_id port gpu_id quantize quant_method quant_bits
              max_len mem_util q no_launch w Hmem Hq)
    as (evs & args & Hrun & _).
  cbv zeta in Hrun.
  set (c := {| info := new_record model_id (port_given port (mgr w)) gpu_id quantize
                         quant_method quant_bits;
               task := Pending args |}) in *.
  assert (Hw1 : w1 = store model_id c (port_after port (mgr w)) evs w).
  { subst w1. simpl exec. rewrite Hrun. reflexivity. }
  assert (Hc1 : deref a (mgr w1) = Some c) by (rewrite Hw1; apply deref_store).
  assert (Hget1 : get_model model_id (mgr w1) = Some a).
  { unfold get_model. rewrite Hw1. unfold store. cbn [mgr models].
    rewrite dict_get_set_same. reflexivity. }
  destruct (remove_model_run model_id kenv w1 a c Hget1 Hc1)
    as (evs2 & Hs2 & _ & _ & _ & Hrem).
  cbn [c info new_record mi_id mi_pid] in Hrem, Hs2.
  assert (Hreg : Dict.get model_id (models (mgr w1)) = Some a).
  { rewrite Hw1. unfold store. cbn [mgr models]. apply dict_get_set_same. }
  rewrite Hreg in Hrem.
  assert (Hnone : Dict.get model_id (models (mgr w)) = None).
  { unfold Dict.mem in Hmem. destruct (Dict.get model_id (models (mgr w))); congruence. }
  assert (Hpop : Dict.pop model_id (models (mgr w1)) = models (mgr w)).
  { rewrite Hw1. unfold store. cbn [mgr models]. apply dict_pop_set_fresh, Hnone. }
  rewrite Hpop in Hrem.
  assert (Hw2 : w2 = {| mgr := set_models left (mgr w1); trace := trace w1 ++ evs2 |}).
  { subst w2 left. simpl exec. rewrite Hrem.
    destruct (remove_refused kenv); [ | reflexivity ].
    unfold extend, set_models. cbn [snd]. destruct (mgr w1); reflexivity. }
  assert (Hc2 : deref a (mgr w2) = Some c) by (rewrite Hw2; exact Hc1).
  destruct (launch_prologue_events a args c w2 Hc2) as (evs3 & Hp & Hsp3 & _).
  pose proof (deref_touch a c c evs3 w2 Hc2) as Hc3.
  pose proof (popen_run a (deploy_cmd (infer_backend (mgr w2)) (info c) args)
                (Spawned pid now) c _ Hc3) as Hopen.
  cbv beta iota in Hopen. rewrite touch_touch in Hopen.
  assert (Hw3 : w3 = touch a (with_task (Polling 0) (with_process pid now c))
                       (evs3 ++ [EvSpawn (deploy_cmd (infer_backend (mgr w2)) (info c) args)
                                   (mi_gpu_id (info c))]) w2).
  { subst w3. simpl exec. unfold launch_step. rewrite Hc2. cbn [task c].
    rewrite (bind_ok _ _ _ _ _ Hp). cbv beta.
    rewrite (try_ok _ _ _ _ _ Hopen). reflexivity. }
  split; [ rewrite (added_app w1 w2 evs2) by (rewrite Hw2; reflexivity); exact Hs2 | ].
  split; [ rewrite Hw2; reflexivity | ].
  split.
  { rewrite (added_app w2 w3 _ ltac:(rewrite Hw3; reflexivity)).
    rewrite spawns_app, Hsp3. reflexivity. }
  split; [ rewrite Hw3, Hw2; reflexivity | ].
  rewrite Hw3, (deref_touch a c _ _ w2 Hc2).
  split; [ reflexivity | split; [ reflexivity | ] ].
  rewrite Hw2, Hw1. destruct port; reflexivity.
Qed.

(** ** The route [DELETE /v1/models/{model_id}] on reachable worlds *)

(** X19. Whatever registrations, launch steps and removals have run since
    the manager was created, and no other request being served while the
    removal waits for the process: the route that removes a model answers
    404, leaving the world as it was, when the key does not resolve; when it
    resolves, it answers with success, the identity of the record gone from
    the registry, if the descriptor is not there or is removed, and with 500
    and the text of the [OSError], the record still in the registry, if
    [os.remove] refuses. *)
Theorem remove_route_outcomes (backend : string) (starting_port : Z)
    (ops : list Op) (key : string) (env : KillEnv) :
  let w := run ops (init backend starting_port) in
  let r := app_remove_model key env w in
  match get_model key (mgr w) with
  | Some a =>
      exists c,
        deref a (mgr w) = Some c
        /\ match remove_refused env with
           | None =>
               fst r = Ok {| rr_id := mi_id (info c); rr_name := mi_name (info c);
                             rr_port := mi_port (info c) |}
               /\ lookup (mi_id (info c)) (snd r) = None
           | Some msg =>
               fst r = Raise (HTTPException 500 ("Failed to remove model: " ++ msg))
               /\ mgr (snd r) = mgr w
           end
  | None => r = (Raise (HTTPException 404 ("Model " ++ key ++ " not found")), w)
  end.
Proof.
  intros w r. subst r.
  assert (Hwf : registry_wf (mgr w)) by (apply registry_wf_run, registry_wf_init).
  destruct (get_model key (mgr w)) as [a | ] eqn:Hget.
  - destruct (get_model_some_wf key (mgr w) a Hwf Hget) as (c & Hc & Hreg & _).
    exists c. split; [ exact Hc | ].
    destruct (remove_model_run key env w a c Hget Hc) as (evs & _ & _ & _ & _ & Hrun).
    rewrite Hreg in Hrun.
    unfold app_remove_model.
    destruct (remove_refused env) as [msg | ].
    + rewrite (try_raise _ _ _ _ _ Hrun).
      cbv beta iota zeta delta [bind logger emit raise exn_str]. cbn [fst snd mgr].
      split; reflexivity.
    + rewrite (try_ok _ _ _ _ _ Hrun). cbn [fst snd].
      split; [ reflexivity | ].
      unfold lookup. cbn [mgr models set_models]. rewrite dict_get_pop_same. reflexivity.
  - unfold app_remove_model, remove_model, try_except.
    rewrite (bind_ok _ _ w w None) by (unfold read; rewrite Hget; reflexivity).
    reflexivity.
Qed.

(** ** The outcome of an awaited launch *)

Lemma poll_loop_first_resolved (m j k a : nat) (obs : nat -> PollObs) (c : Cell) (w : World) :
  deref a (mgr w) = Some c ->
  (forall i, (k <= i < k + j)%nat -> unresolved (obs i) = true) ->
  unresolved (obs (k + j)%nat) = false ->
  exists c' evs,
    same_record (info c) (info c')
    /\ mi_pid (info c') = mi_pid (info c)
    /\ match exit_code (obs (k + j)%nat) with
       | Some returncode =>
           poll_loop (j + S m) k a obs w
           = (Raise (RuntimeError (exit_message returncode)), touch a c' evs w)
           /\ List.length (probes evs) = j
       | None =>
           poll_loop (j + S m) k a obs w = (Ok true, touch a c' evs w)
           /\ mi_status (info c') = ready
           /\ List.length (probes evs) = S j
       end.
Proof.
  revert k c w. induction j as [ | j IH]; intros k c w Hc Hun Hres.
  - rewrite Nat.add_0_r in *. simpl poll_loop.
    pose proof (poll_cycle_run a (obs k) c w Hc) as Hcycle.
    unfold unresolved in Hres.
    destruct (exit_code (obs k)) as [rc | ].
    + rewrite (bind_raise _ _ _ _ _ Hcycle).
      do 2 eexists. split; [ | split; [ | split; reflexivity ] ]; repeat split.
    + destruct (probe (obs k)) as [code | ]; [ | discriminate ].
      destruct (code =? 200)%Z; [ | discriminate ].
      rewrite (bind_ok _ _ _ _ _ Hcycle).
      do 2 eexists. split; [ | split; [ | split; [ reflexivity | split; reflexivity ] ] ];
        repeat split.
  - simpl poll_loop.
    rewrite (bind_ok _ _ _ _ _ (unresolved_cycle a (obs k) c w Hc (Hun k ltac:(lia)))).
    pose proof (deref_touch a c c [EvProbe (probe_url (info c))] w Hc) as Hc1.
    rewrite (bind_ok _ _ _ _ _ (set_task_run a (Polling (S k)) c _ Hc1)).
    rewrite touch_touch.
    pose proof (deref_touch a c (with_task (Polling (S k)) c)
                  ([EvProbe (probe_url (info c))] ++ []) w Hc) as Hc2.
    destruct (IH (S k) _ _ Hc2) as (c' & evs & Hsame & Hpid & Hrun).
    { intros i Hi. apply Hun. lia. }
    { replace (S k + j)%nat with (k + S j)%nat by lia. exact Hres. }
    replace (S k + j)%nat with (k + S j)%nat in Hrun by lia.
    exists c'. eexists. split; [ exact Hsame | ]. split; [ exact Hpid | ].
    destruct (exit_code (obs (k + S j)%nat)) as [rc | ].
    + destruct Hrun as [Hrun Hlen]. rewrite Hrun, touch_touch.
      split; [ reflexivity | ]. rewrite probes_app. simpl. rewrite Hlen. reflexivity.
    + destruct Hrun as (Hrun & Hst & Hlen). rewrite Hrun, touch_touch.
      split; [ reflexivity | ]. split; [ exact Hst | ].
      rewrite probes_app. simpl. rewrite Hlen. reflexivity.
Qed.

Lemma start_model_server_outcome (a : nat) (c : Cell) (args : LaunchArgs) (env : LaunchEnv)
    (pid now : Z) (j : nat) (w : World) :
  deref a (mgr w) = Some c ->
  spawn_res env = Spawned pid now ->
  (j < POLL_CYCLES)%nat ->
  (forall i, (i < j)%nat -> unresolved (poll_obs env i) = true) ->
  unresolved (poll_obs env j) = false ->
  let r := _start_model_server a args env w in
  option_map (fun c' => mi_pid (info c')) (deref a (mgr (snd r))) = Some (Some pid)
  /\ match exit_code (poll_obs env j) with
     | Some returncode =>
         fst r = Raise (RuntimeError (exit_message returncode))
         /\ status_at a (snd r) = Some failed
         /\ List.length (probes (added w (snd r))) = j
     | None =>
         fst r = Ok tt
         /\ status_at a (snd r) = Some ready
         /\ List.length (probes (added w (snd r))) = S j
     end.
Proof.
  intros Hc Hspawn Hj Hun Hres r. subst r.
  unfold _start_model_server. rewrite Hspawn.
  destruct (launch_prologue_events a args c w Hc) as (evs0 & Hp & _ & Hp0 & _).
  rewrite (bind_ok _ _ _ _ _ Hp). cbv beta.
  pose proof (deref_touch a c c evs0 w Hc) as Hc1.
  set (cmd := deploy_cmd (infer_backend (mgr w)) (info c) args).
  pose proof (popen_run a cmd (Spawned pid now) c _ Hc1) as Hopen.
  cbv beta iota in Hopen. rewrite touch_touch in Hopen.
  set (c1 := with_task (Polling 0) (with_process pid now c)) in *.
  pose proof (deref_touch a c c1 (evs0 ++ [EvSpawn cmd (mi_gpu_id (info c))]) w Hc) as Hc2.
  assert (Hn : POLL_CYCLES = (j + S (POLL_CYCLES - S j))%nat) by lia.
  rewrite Hn.
  destruct (poll_loop_first_resolved (POLL_CYCLES - S j) j 0 a (poll_obs env) c1 _ Hc2)
    as (c2 & evs & _ & Hpid & Hloop).
  { intros i Hi. apply Hun. lia. }
  { exact Hres. }
  cbn [Nat.add] in Hloop.
  pose proof (deref_touch a c c2 ((evs0 ++ [EvSpawn cmd (mi_gpu_id (info c))]) ++ evs) w Hc)
    as Hc3.
  destruct (exit_code (poll_obs env j)) as [rc | ].
  - destruct Hloop as [Hloop Hlen]. rewrite touch_touch in Hloop.
    pose proof (launch_failed_run a (RuntimeError (exit_message rc)) c2 _ Hc3) as Hfail.
    rewrite touch_touch in Hfail.
    erewrite try_raise.
    2:{ rewrite (bind_ok _ _ _ _ _ Hopen). apply (bind_raise _ _ _ _ _ Hloop). }
    rewrite Hfail. cbn [fst snd].
    rewrite (status_at_touch a c _ _ w Hc), (deref_touch a c _ _ w Hc).
    split; [ simpl; rewrite Hpid; reflexivity | ].
    split; [ reflexivity | split; [ reflexivity | ] ].
    erewrite added_app by reflexivity.
    rewrite !probes_app, Hp0. simpl. rewrite ?app_nil_r, Hlen. reflexivity.
  - destruct Hloop as (Hloop & Hst & Hlen). rewrite touch_touch in Hloop.
    pose proof (set_task_run a Finished c2 _ Hc3) as Hfin. rewrite touch_touch in Hfin.
    erewrite try_ok.
    2:{ rewrite (bind_ok _ _ _ _ _ Hopen), (bind_ok _ _ _ _ _ Hloop). exact Hfin. }
    cbn [fst snd].
    rewrite (status_at_touch a c _ _ w Hc), (deref_touch a c _ _ w Hc).
    split; [ simpl; rewrite Hpid; reflexivity | ].
    split; [ reflexivity | split; [ simpl; rewrite Hst; reflexivity | ] ].
    erewrite added_app by reflexivity.
    rewrite !probes_app, Hp0. simpl. rewrite ?app_nil_r, Hlen. reflexivity.
Qed.

(** X20. [_start_model_server] awaited, the process being spawned: the
    first cycle that finds the process gone, or its probe answered 200,
    decides. If it is cycle [j] and the process is gone, the call raises the
    error that carries the exit code, the status is [failed] and [j] probes
    were sent; if the probe is answered 200, the call returns, the status is
    [ready] and [j + 1] probes were sent. Either way the record keeps the pid
    of the spawned process. *)
Theorem awaited_launch_outcome (a : nat) (c : Cell) (args : LaunchArgs) (env : LaunchEnv)
    (pid now : Z) (j : nat) (w : World) :
  deref a (mgr w) = Some c ->
  spawn_res env = Spawned pid now ->
  (j < POLL_CYCLES)%nat ->
  (forall i, (i < j)%nat -> unresolved (poll_obs env i) = true) ->
  unresolved (poll_obs env j) = false ->
  let r := _start_model_server a args env w in
  option_map (fun c' => mi_pid (info c')) (deref a (mgr (snd r))) = Some (Some pid)
  /\ match exit_code (poll_obs env j) with
     | Some returncode =>
         fst r = Raise (RuntimeError (exit_message returncode))
         /\ status_at a (snd r) = Some failed
         /\ List.length (probes (added w (snd r))) = j
     | None =>
         fst r = Ok tt
         /\ status_at a (snd r) = Some ready
         /\ List.length (probes (added w (snd r))) = S j
     end.
Proof.
  intros Hc Hspawn Hj Hun Hres.
  exact (start_model_server_outcome a c args env pid now j w Hc Hspawn Hj Hun Hres).
Qed.

(** ** [add_model], awaited, when the launch fails *)

Lemma unresolved_exit (o : PollObs) (returncode : Z) :
  exit_code o = Some returncode -> unresolved o = false.
Proof. unfold unresolved. intros ->. reflexivity. Qed.

Lemma start_model_server_fails (a : nat) (c : Cell) (args : LaunchArgs) (env : LaunchEnv)
    (e : Exn) (w : World) :
  deref a (mgr w) = Some c -> launch_fails env e ->
  fst (_start_model_server a args env w) = Raise e.
Proof.
  intros Hc [msg Hspawn | pid now j rc Hspawn Hj Hun Hexit].
  - unfold _start_model_server. rewrite Hspawn.
    destruct (launch_prologue_events a args c w Hc) as (evs0 & Hp & _).
    rewrite (bind_ok _ _ _ _ _ Hp). cbv beta.
    pose proof (deref_touch a c c evs0 w Hc) as Hc1.
    pose proof (popen_run a (deploy_cmd (infer_backend (mgr w)) (info c) args)
                  (SpawnError msg) c _ Hc1) as Hopen.
    cbv beta iota in Hopen.
    erewrite try_raise by (apply bind_raise; exact Hopen).
    rewrite (launch_failed_run a _ c _ Hc1). reflexivity.
  - pose proof (start_model_server_outcome a c args env pid now j w Hc Hspawn Hj Hun
                  (unresolved_exit _ _ Hexit)) as H.
    cbv zeta in H. rewrite Hexit in H. exact (proj1 (proj2 H)).
Qed.

(** X10. [add_model] awaited without [background_tasks], for an identity
    the registry does not hold and with no quantization, when the launch
    fails inside the [try] of [_start_model_server] (the process cannot be
    spawned, or a cycle finds it gone): the call raises the error of the
    launch; the record is nevertheless in the registry, with status
    [failed]; no descriptor has been saved for it; and the identity is taken,
    so that a second [add_model] for it is refused. *)
Theorem awaited_add_model_failure_leaves_failed_record (model_id : string)
    (port : option Z) (gpu_id : Z) (quant_method : string) (quant_bits max_len : Z)
    (mem_util : string) (q : QuantRes) (env : LaunchEnv) (w : World) (e : Exn) :
  Dict.mem model_id (models (mgr w)) = false ->
  launch_fails env e ->
  let r := add_model model_id port gpu_id false quant_method quant_bits max_len mem_util
             false q env w in
  fst r = Raise e
  /\ view model_id (snd r) = Some failed
  /\ saved_configs (added w (snd r)) = []
  /\ forall port' gpu_id' quantize' quant_method' quant_bits' max_len' mem_util'
            background_tasks' q' env',
       add_model model_id port' gpu_id' quantize' quant_method' quant_bits' max_len'
         mem_util' background_tasks' q' env' (snd r)
       = (Raise (ValueError ("Model " ++ model_id ++ " already exists")), snd r).
Proof.
  intros Hmem Hfails.
  destruct (add_model_prefix model_id port gpu_id false quant_method quant_bits max_len
              mem_util false q env w Hmem)
    as (evs & deployed & Hrun & _ & _ & _ & _ & Hsaved).
  cbv zeta in Hrun. cbn [quantize_error] in Hrun. cbv zeta. rewrite Hrun. clear Hrun.
  set (a := List.length (objects (mgr w))).
  set (args := {| deployed_model_id := deployed; max_model_len := max_len;
                  memory_util := mem_util |}).
  set (c := {| info := new_record model_id (port_given port (mgr w)) gpu_id false
                         quant_method quant_bits;
               task := Pending args |}).
  set (W := store model_id c (port_after port (mgr w)) evs w).
  assert (Hc : deref a (mgr W) = Some c) by apply deref_store.
  pose proof (frame_start_model_server W a args env W (frame_refl W)) as Hframe.
  assert (Hs0 : no_config_saved (trace w) W).
  { exists evs. split; [ reflexivity | exact Hsaved ]. }
  pose proof (saved_start_model_server (trace w) a args env W Hs0) as Hs.
  pose proof (start_model_server_raise a c args env W) as Hraise.
  pose proof (start_model_server_fails a c args env e W Hc Hfails) as Hfst.
  remember ((_start_model_server a args env ;; _save_model_config a ;; ret a) W) as R eqn:HR.
  unfold bind at 1 in HR.
  destruct (_start_model_server a args env W) as [[u | e1] w2]; simpl fst in Hfst;
    [ discriminate Hfst | ].
  injection Hfst as ->. simpl snd in *. subst R. cbn [fst snd].
  destruct Hframe as (Hms & _).
  assert (Hget : Dict.get model_id (models (mgr w2)) = Some a).
  { rewrite Hms. subst W. unfold store. cbn [mgr models]. apply dict_get_set_same. }
  split; [ reflexivity | ]. split; [ | split ].
  - unfold view. rewrite Hget. apply (Hraise w2 e Hc eq_refl).
  - destruct Hs as (evs2 & Ht & Hsv). rewrite (added_app w w2 evs2 Ht). exact Hsv.
  - intros. apply add_model_rejects_duplicate. unfold Dict.mem. rewrite Hget. reflexivity.
Qed.

(** ** The further statements at sample inputs *)

Lemma merge_configs_lookup_witness :
  NoDup (Dict.keys ex_override)
  /\ Dict.get "limits" (merge_configs ex_base ex_override)
     = Some (VDict [("gpu", VLeaf "1"); ("mem", VLeaf "0.5"); ("len", VLeaf "8192")]).
Proof.
  assert (H : NoDup (Dict.keys ex_override)).
  { repeat constructor; simpl; intuition discriminate. }
  split; [ exact H | ].
  rewrite (merge_configs_lookup ex_base ex_override "limits" H). reflexivity.
Defined.

Lemma merge_configs_keys_witness :
  NoDup (Dict.keys ex_override)
  /\ Dict.keys (merge_configs ex_base ex_override) = ["host"; "limits"; "port"; "debug"].
Proof.
  assert (H : NoDup (Dict.keys ex_override)).
  { repeat constructor; simpl; intuition discriminate. }
  split; [ exact H | ].
  rewrite (merge_configs_keys ex_base ex_override H). reflexivity.
Defined.

Lemma ex_ready_world_wf : registry_wf (mgr ex_ready_world).
Proof.
  split.
  - vm_compute. repeat constructor. intros [].
  - intros id a Hin. vm_compute in Hin. destruct Hin as [[= <- <-] | []].
    eexists. split; [ vm_compute; reflexivity | split; reflexivity ].
Qed.

(** The display name of the one record of a registry. *)
Lemma get_model_resolves_id_or_name_witness :
  registry_wf (mgr ex_ready_world)
  /\ get_model "modelA" (mgr ex_ready_world) = Some 0%nat
  /\ exists c, deref 0 (mgr ex_ready_world) = Some c
               /\ Dict.get (mi_id (info c)) (models (mgr ex_ready_world)) = Some 0%nat
               /\ (mi_id (info c) = "modelA" \/ mi_name (info c) = "modelA").
Proof.
  split; [ exact ex_ready_world_wf | ]. split; [ reflexivity | ].
  exact (proj2 (get_model_resolves_id_or_name "modelA" (mgr ex_ready_world)
                  ex_ready_world_wf) 0%nat eq_refl).
Defined.

(** A process that ignores SIGTERM is sent SIGKILL. *)
Lemma remove_model_signal_escalation_witness :
  get_model "org/modelA" (mgr ex_ready_world) = Some 0%nat
  /\ option_map (fun c => mi_pid (info c)) (deref 0 (mgr ex_ready_world)) = Some (Some 4242%Z)
  /\ In (4242%Z, 9%Z)
       (signals (added ex_ready_world
                   (snd (remove_model "org/modelA" ex_kill_stubborn ex_ready_world)))).
Proof.
  split; [ reflexivity | ]. split; [ reflexivity | ].
  pose proof (remove_model_signal_escalation "org/modelA" ex_kill_stubborn ex_ready_world
                0%nat _ eq_refl eq_refl) as H.
  cbv zeta in H. cbn [mi_pid info Z.eqb] in H.
  destruct H as (_ & _ & _ & Hiff & _).
  apply Hiff. split; [ reflexivity | intros k _; reflexivity ].
Defined.

(** Removal by display name, the descriptor removed and the descriptor
    refused. *)
Lemma remove_model_removes_resolved_witness :
  registry_wf (mgr ex_ready_world)
  /\ get_model "modelA" (mgr ex_ready_world) = Some 0%nat
  /\ fst (remove_model "modelA" ex_kill ex_ready_world)
     = Ok {| rr_id := "org/modelA"; rr_name := "modelA"; rr_port := 8000 |}
  /\ lookup "org/modelA" (snd (remove_model "modelA" ex_kill ex_ready_world)) = None
  /\ fst (remove_model "modelA" ex_kill_refused ex_ready_world)
     = Raise (OSError "Permission denied")
  /\ mgr (snd (remove_model "modelA" ex_kill_refused ex_ready_world)) = mgr ex_ready_world.
Proof.
  split; [ exact ex_ready_world_wf | ]. split; [ reflexivity | ].
  destruct (remove_model_removes_resolved "modelA" ex_kill ex_ready_world 0%nat
              ex_ready_world_wf eq_refl) as (c & Hc & H).
  destruct (remove_model_removes_resolved "modelA" ex_kill_refused ex_ready_world 0%nat
              ex_ready_world_wf eq_refl) as (c' & Hc' & H').
  cbv zeta in H, H'.
  change (remove_refused ex_kill) with (@None string) in H.
  change (remove_refused ex_kill_refused) with (Some "Permission denied") in H'.
  cbv beta iota in H, H'.
  destruct H as (_ & _ & _ & Hfst & Hlook & _).
  destruct H' as (_ & _ & _ & Hfst' & Hmgr').
  vm_compute in Hc. injection Hc as <-.
  split; [ exact Hfst | ]. split; [ exact Hlook | ]. split; [ exact Hfst' | exact Hmgr' ].
Defined.

(** Shutdown with one ready model. *)
Lemma shutdown_all_empties_registry_witness :
  registry_wf (mgr ex_ready_world)
  /\ fst (shutdown_all (fun _ => ex_kill) ex_ready_world) = Ok tt
  /\ models (mgr (snd (shutdown_all (fun _ => ex_kill) ex_ready_world))) = []
  /\ In (4242%Z, 15%Z)
       (signals (added ex_ready_world
                   (snd (shutdown_all (fun _ => ex_kill) ex_ready_world))))
  /\ Dict.keys (models (mgr (snd (shutdown_all (fun _ => ex_kill_refused) ex_ready_world))))
     = ["org/modelA"].
Proof.
  split; [ exact ex_ready_world_wf | ].
  destruct (shutdown_all_empties_registry (fun _ => ex_kill) ex_ready_world
              ex_ready_world_wf) as (H1 & _ & H3 & _ & _ & H5).
  destruct (shutdown_all_empties_registry (fun _ => ex_kill_refused) ex_ready_world
              ex_ready_world_wf) as (_ & H2' & _).
  split; [ exact H1 | ]. split; [ exact (H3 (fun _ => eq_refl)) | ].
  split; [ apply (H5 "org/modelA" _ 4242%Z eq_refl eq_refl); discriminate | ].
  rewrite H2'. reflexivity.
Defined.

(** An awaited launch whose process cannot be spawned. *)
Lemma awaited_add_model_failure_leaves_failed_record_witness :
  Dict.mem "org/modelA" (models (mgr ex_world)) = false
  /\ launch_fails no_launch (OSError EmptyString)
  /\ fst (add_model "org/modelA" None 0 false "awq" 4 8192 "0.9" false QuantExists
            no_launch ex_world) = Raise (OSError EmptyString)
  /\ view "org/modelA"
       (snd (add_model "org/modelA" None 0 false "awq" 4 8192 "0.9" false QuantExists
               no_launch ex_world)) = Some failed.
Proof.
  assert (Hfails : launch_fails no_launch (OSError EmptyString))
    by (apply (fails_at_spawn no_launch EmptyString); reflexivity).
  split; [ reflexivity | ]. split; [ exact Hfails | ].
  destruct (awaited_add_model_failure_leaves_failed_record "org/modelA" None 0 "awq" 4
              8192 "0.9" QuantExists no_launch ex_world (OSError EmptyString)
              eq_refl Hfails) as (H1 & H2 & _).
  split; [ exact H1 | exact H2 ].
Defined.

(** An export that ends with return code 1. *)
Lemma add_model_failed_export_keeps_port_witness :
  Dict.mem "org/modelA" (models (mgr ex_world)) = false
  /\ 1%Z <> 0%Z
  /\ fst (add_model "org/modelA" None 0 true "awq" 4 8192 "0.9" true
            (QuantRan 1 "no calibration data") no_launch ex_world)
     = Raise (RuntimeError "Failed to quantize model: no calibration data")
  /\ next_port (mgr (snd (add_model "org/modelA" None 0 true "awq" 4 8192 "0.9" true
                            (QuantRan 1 "no calibration data") no_launch ex_world)))
     = 8001%Z.
Proof.
  assert (H10 : 1%Z <> 0%Z) by discriminate.
  split; [ reflexivity | ]. split; [ exact H10 | ].
  destruct (add_model_failed_export_keeps_port "org/modelA" None 0 "awq" 4 8192 "0.9" true
              1 "no calibration data" no_launch ex_world eq_refl H10)
    as (H1 & _ & _ & H4 & _).
  split; [ exact H1 | exact H4 ].
Defined.

(** The route adds a model to an empty registry. *)
Lemma app_add_model_answers_before_launch_witness :
  Dict.mem (ar_model_id ex_add_request) (models (mgr ex_world)) = false
  /\ quantize_error (ar_quantize ex_add_request) QuantExists = None
  /\ exists response,
       fst (app_add_model ex_add_request QuantExists ex_world) = Ok response
       /\ mi_status (ad_model_info response) = loading
       /\ spawns (added ex_world (snd (app_add_model ex_add_request QuantExists ex_world)))
          = [].
Proof.
  split; [ reflexivity | ]. split; [ reflexivity | ].
  destruct (app_add_model_answers_before_launch ex_add_request QuantExists ex_world
              eq_refl eq_refl)
    as (response & H1 & _ & _ & H4 & _ & _ & _ & H8 & _).
  exists response. split; [ exact H1 | ]. split; [ exact H4 | exact H8 ].
Defined.

(** The route is asked for a model that is there. *)
Lemma app_add_model_duplicate_is_500_witness :
  Dict.mem (ar_model_id ex_add_request) (models (mgr ex_ready_world)) = true
  /\ fst (app_add_model ex_add_request QuantExists ex_ready_world)
     = Raise (HTTPException 500 "Failed to add model: Model org/modelA already exists").
Proof.
  split; [ reflexivity | ].
  exact (proj1 (app_add_model_duplicate_is_500 ex_add_request QuantExists ex_ready_world
                  eq_refl)).
Defined.

(** A chat completion by display name, answered 200. *)
Lemma route_passes_backend_success_witness :
  get_model "modelA" (mgr ex_ready_world) = Some 0%nat
  /\ is_success (r_status ex_backend_ok) = true
  /\ fst (chat_completions (ex_request "modelA" false) (Responds ex_backend_ok)
            ex_ready_world)
     = Ok (JSONResponse 200 (JsonOf "{}")).
Proof.
  split; [ reflexivity | ]. split; [ reflexivity | ].
  exact (proj1 (route_passes_backend_success "chat/completions" "chat completions"
                  (ex_request "modelA" false) _ "modelA" ex_backend_ok ex_ready_world
                  0%nat _ eq_refl eq_refl ltac:(discriminate) eq_refl eq_refl eq_refl
                  eq_refl eq_refl) eq_refl).
Defined.

(** A streamed chat completion, the backend refusing the connection. *)
Lemma streamed_route_always_200_witness :
  get_model "org/modelA" (mgr ex_ready_world) = Some 0%nat
  /\ fst (chat_completions (ex_request "org/modelA" true) (Unreachable "refused")
            ex_ready_world)
     = Ok (StreamingResponse 200 "text/event-stream"
             (stream_generator (Unreachable "refused"))).
Proof.
  split; [ reflexivity | ].
  exact (proj1 (streamed_route_always_200 "chat/completions" "chat completions"
                  (ex_request "org/modelA" true) _ "org/modelA" (Unreachable "refused")
                  ex_ready_world 0%nat _ eq_refl eq_refl ltac:(discriminate) eq_refl
                  eq_refl eq_refl eq_refl)).
Defined.

(** The descriptor of ["org/modelA"], loaded when the allocator stands at 8000. *)
Lemma config_record_served_on_other_port_witness :
  c_model_id ex_cfg = Some "org/modelA"
  /\ c_port ex_cfg = None
  /\ probes (added ex_world (snd (add_model_from_config ex_cfg ex_env_ready ex_world)))
     = ["http://localhost:8000/v1/models"]
  /\ posts (added (snd (add_model_from_config ex_cfg ex_env_ready ex_world))
              (snd (chat_completions (ex_request "org/modelA" false)
                      (Responds ex_backend_ok)
                      (snd (add_model_from_config ex_cfg ex_env_ready ex_world)))))
     = [EvPost "http://localhost:8001/v1/chat/completions"
          (proxy_headers (req_headers (ex_request "org/modelA" false))) "{}" false].
Proof.
  split; [ reflexivity | ]. split; [ reflexivity | ].
  destruct (config_record_served_on_other_port ex_cfg "org/modelA" ex_env_ready 4242 1000
              (ex_request "org/modelA" false) _ (Responds ex_backend_ok) ex_world
              eq_refl ltac:(discriminate) eq_refl eq_refl eq_refl eq_refl eq_refl eq_refl)
    as (_ & _ & H3 & H4).
  split; [ exact H3 | exact H4 ].
Defined.

(** A model added and removed before its launch has started. *)
Lemma removal_does_not_cancel_scheduled_launch_witness :
  Dict.mem "org/modelA" (models (mgr ex_world)) = false
  /\ quantize_error false QuantExists = None
  /\ models (mgr (exec (OpLaunch 0 (InSpawn (Spawned 4242 1000)))
                    (exec (OpRemoveModel "org/modelA" ex_kill)
                       (exec (OpAddModel "org/modelA" None 0 false "awq" 4 8192 "0.9"
                                QuantExists) ex_world)))) = []
  /\ List.length
       (spawns (added (exec (OpRemoveModel "org/modelA" ex_kill)
                         (exec (OpAddModel "org/modelA" None 0 false "awq" 4 8192 "0.9"
                                  QuantExists) ex_world))
                  (exec (OpLaunch 0 (InSpawn (Spawned 4242 1000)))
                     (exec (OpRemoveModel "org/modelA" ex_kill)
                        (exec (OpAddModel "org/modelA" None 0 false "awq" 4 8192 "0.9"
                                 QuantExists) ex_world))))) = 1%nat.
Proof.
  split; [ reflexivity | ]. split; [ reflexivity | ].
  destruct (removal_does_not_cancel_scheduled_launch "org/modelA" None 0 false "awq" 4 8192
              "0.9" QuantExists ex_kill 4242 1000 ex_world eq_refl eq_refl)
    as (_ & _ & H3 & H4 & _).
  split; [ exact H4 | exact H3 ].
Defined.

(** The descriptor of the record of ["org/modelA"]. *)
Lemma descriptor_file_named_by_base_name_witness :
  exists mi,
    lookup "org/modelA" ex_registered_world = Some mi
    /\ config_file mi = "config/model_configs/modelA.json".
Proof.
  eexists. split; [ reflexivity | ].
  exact (proj1 (descriptor_file_named_by_base_name "vllm" 8000
                  [OpAddModel "org/modelA" None 0 false "awq" 4 8192 "0.9" QuantExists]
                  "org/modelA" _ eq_refl)).
Defined.

(** A launch whose process is found gone by the third cycle. *)
Lemma awaited_launch_outcome_witness :
  (exists c, deref 0 (mgr ex_registered_world) = Some c)
  /\ spawn_res ex_env_crash = Spawned 4545 3000
  /\ unresolved (poll_obs ex_env_crash 2) = false
  /\ fst (_start_model_server 0 ex_args ex_env_crash ex_registered_world)
     = Raise (RuntimeError (exit_message 1))
  /\ status_at 0 (snd (_start_model_server 0 ex_args ex_env_crash ex_registered_world))
     = Some failed
  /\ List.length
       (probes (added ex_registered_world
                  (snd (_start_model_server 0 ex_args ex_env_crash ex_registered_world))))
     = 2%nat.
Proof.
  assert (Hun : forall i, (i < 2)%nat -> unresolved (poll_obs ex_env_crash i) = true).
  { intros [ | [ | i]] Hi; [ reflexivity | reflexivity | lia ]. }
  assert (Hj : (2 < POLL_CYCLES)%nat) by (unfold POLL_CYCLES; lia).
  split; [ eexists; reflexivity | ]. split; [ reflexivity | ]. split; [ reflexivity | ].
  exact (proj2 (awaited_launch_outcome 0%nat _ ex_args ex_env_crash 4545 3000 2%nat
                  ex_registered_world eq_refl eq_refl Hj Hun eq_refl)).
Defined.
